(** * brevitas.graph.generator: the module generator, embedded in Rocq

    A shallow embedding of [ModuleGenerator] (brevitas/graph/generator.py):
    the allow/block-list classifier, the tracker of already generated module
    contexts, the hierarchy builder [_add_module], the schedule builder
    [_gen_schedule] and the constant/parameter resolver.

    Python objects are compared by identity ([is]) in several places, so every
    object that takes part in such a comparison carries its address; mutation
    of the generator and of the output module tree is written as explicit
    state passing; a raised exception is a [Raise] result. *)

From Stdlib Require Import List String Ascii Bool Arith ZArith Lia.
Import ListNotations.
Open Scope string_scope.
Open Scope nat_scope.
Open Scope list_scope.

(** ** Exceptions and results *)

Inductive pyerror : Type :=
| IndexError
| KeyError
| TypeError
| ValueError
| AssertionError
| RuntimeError (msg : string).

Inductive result (A : Type) : Type :=
| Ok (a : A)
| Raise (e : pyerror).
Arguments Ok {A} a.
Arguments Raise {A} e.

Definition bind {A B : Type} (r : result A) (k : A -> result B) : result B :=
  match r with
  | Ok a => k a
  | Raise e => Raise e
  end.

Notation "x <- r ;; k" := (bind r (fun x => k))
  (at level 61, r at next level, right associativity).
Notation "' p <- r ;; k" := (bind r (fun p => k))
  (at level 61, p pattern, r at next level, right associativity).

(** ** Classes and modules *)

(** A class: its address, the qualified name that [module_class_name]
    reports for its instances, and the addresses of the classes of its
    method resolution order (itself included), which decide [isinstance]. *)
Record pyclass : Type := {
  class_addr : nat;
  class_qualname : string;
  class_mro : list nat
}.

(** A [torch.nn.Module] object: its address, its class and the ordered
    dictionary [_modules] of its named children.  Module graphs are written
    as trees: an object registered under two names occurs twice, with the
    same address, which is what [named_modules] looks at. *)
#[warnings="-register-all"]
Inductive Module : Type :=
| MkModule (ident : nat) (cls : pyclass) (_modules : list (string * Module)).

Definition ident (m : Module) : nat :=
  match m with MkModule i _ _ => i end.
Definition cls (m : Module) : pyclass :=
  match m with MkModule _ c _ => c end.
Definition _modules (m : Module) : list (string * Module) :=
  match m with MkModule _ _ l => l end.

(** [m is module] on two module objects. *)
Definition module_is (m1 m2 : Module) : bool := ident m1 =? ident m2.

(** Modelled from the spec: [module_class_name] of brevitas/graph/utils.py,
    which is not part of the sources; the spec calls its result the module's
    fully-qualified class name. *)
Definition module_class_name (m : Module) : string := class_qualname (cls m).

(** [isinstance(m, k)] for a class object at address [k]. *)
Definition isinstance_module (m : Module) (k : nat) : bool :=
  existsb (Nat.eqb k) (class_mro (cls m)).

(** [s.startswith(p)]. *)
Definition startswith (s p : string) : bool := String.prefix p s.

(** An entry of the allowlist or of the blocklist: a string (a prefix of a
    qualified class name), a class object, or any other object, for which
    both [isinstance(gm, str)] and [isclass(gm)] are false. *)
Inductive gen_entry : Type :=
| GStr (s : string)
| GClass (k : nat)
| GOther.

(** ** The torch runtime *)

(** What the generator takes from the torch runtime and the source does not
    determine.  [own_attr self name] is [hasattr(self, name)] for a name that
    is not one of the children of [self]: a method, a parameter, a buffer or
    any other attribute of the module object.  [item_error] is the exception
    that [Tensor.item()] raises on a tensor that has not exactly one element;
    its class and message are torch's. *)
Class Torch : Type := {
  own_attr : Module -> string -> bool;
  item_error : pyerror
}.

(** ** Values, references and trace elements *)

(** Runtime values addressed by the trace are compared with [is] only: an
    address stands for them. *)
Definition objaddr := nat.

(** Python values that occur in argument structures, as keys and as values of
    the index map.  [VIndex] is an [Index] object (compared by equality),
    [VTensor] a tensor with its address and its elements, the flag telling a
    [torch.nn.Parameter] from a plain tensor. *)
#[warnings="-register-all"]
Inductive pyval : Type :=
| VNone
| VNum (z : Z)
| VIndex (i : nat)
| VTensor (is_param : bool) (addr : nat) (data : list Z)
| VList (l : list pyval)
| VTuple (l : list pyval)
| VDict (l : list (string * pyval)).

Inductive FnType : Type :=
| MODULE
| FUNCTION
| METHOD
| ATTRIBUTE
| SCRIPTMODULE
| OTHER_FN_TYPE (tag : nat).

Definition FnType_eqb (a b : FnType) : bool :=
  match a, b with
  | MODULE, MODULE | FUNCTION, FUNCTION | METHOD, METHOD
  | ATTRIBUTE, ATTRIBUTE | SCRIPTMODULE, SCRIPTMODULE => true
  | OTHER_FN_TYPE x, OTHER_FN_TYPE y => x =? y
  | _, _ => false
  end.

(** The called entity of a trace element: a module (plain or scripted) or
    some other callable, named. *)
Inductive pyfn : Type :=
| FnModule (m : Module)
| FnCallable (name : string).

Record TraceElem : Type := {
  module_context_list : list Module;
  module_input_list : list objaddr;
  module_output : objaddr;
  prefix_list : list string;
  prefix : string;
  fn : pyfn;
  fn_type : FnType;
  module_fn_name : string;
  fn_args_index : list pyval;
  fn_kwargs_index : list (string * pyval);
  fn_out_index : pyval
}.

Record Trace : Type := {
  trace_elem_list : list TraceElem;
  index_from_val : objaddr -> nat;
  index_map : list (pyval * pyval);
  model_input_index_list : list pyval;
  model_output_index_list : list pyval
}.

Record Instruction : Type := {
  output_index : pyval;
  inst_fn : pyfn;
  inst_fn_type : FnType;
  input_args_list : list pyval;
  input_kwargs_dict : list (string * pyval);
  inst_prefix : string
}.

(** ** The generator *)

(** A recorded context: the tuple [(module, module_input_list, module_output)]
    appended to [_generated_allowlist_modules], with the address of the tuple
    object itself. *)
Record gen_ctx : Type := {
  ctx_addr : nat;
  ctx_module : Module;
  ctx_input_list : list objaddr;
  ctx_output : objaddr
}.

Record ModuleGenerator : Type := {
  gen_module_allowlist : list gen_entry;
  gen_module_blocklist : list gen_entry;
  _generated_allowlist_modules : list gen_ctx
}.

(** Objects that meet in an [is] comparison in [_is_module_already_gen]. *)
Inductive pyobject : Type :=
| ObjModule (m : Module)
| ObjTuple (t : gen_ctx).

(** [a is b]: two live objects are the same object when they are of the same
    kind and have the same address; a module is never a tuple. *)
Definition py_is (a b : pyobject) : bool :=
  match a, b with
  | ObjModule m1, ObjModule m2 => module_is m1 m2
  | ObjTuple t1, ObjTuple t2 => ctx_addr t1 =? ctx_addr t2
  | _, _ => false
  end.

Module Classifier.

(** [_is_module_in_gen_list]: the disjunction, over the entries, of the
    prefix test (strings) and of the instance test (classes). *)
Definition _is_module_in_gen_list (module : Module) (gen_list : list gen_entry) : bool :=
  fold_left
    (fun output gm =>
       let output :=
         output || match gm with
                   | GStr s => startswith (module_class_name module) s
                   | _ => false
                   end in
       output || match gm with
                 | GClass k => isinstance_module module k
                 | _ => false
                 end)
    gen_list false.

Definition _is_module_in_gen_blocklist (self : ModuleGenerator) (module : Module) : bool :=
  _is_module_in_gen_list module (gen_module_blocklist self).

Definition _is_module_in_gen_allowlist (self : ModuleGenerator) (module : Module) : bool :=
  _is_module_in_gen_list module (gen_module_allowlist self).

(** [l[:-1]]. *)
Definition all_but_last {A : Type} (l : list A) : list A := removelast l.

(** The inner loop of [_parent_in_gen_allowlist] over the allowlist, for one
    context module [c], updating [output]. *)
Definition parent_scan_entries (self : ModuleGenerator) (c : Module)
    (output : option Module) : option Module :=
  fold_left
    (fun output gma =>
       match gma with
       | GStr s =>
           if startswith (module_class_name c) s
           then if negb (_is_module_in_gen_blocklist self c) then Some c else output
           else output
       | GClass k =>
           if isinstance_module c k
           then if negb (_is_module_in_gen_blocklist self c) then Some c else output
           else output
       | GOther => output
       end)
    (gen_module_allowlist self) output.

(** [_parent_in_gen_allowlist]: the loop runs over
    [reversed(module_context_list[:-1])]. *)
Definition _parent_in_gen_allowlist (self : ModuleGenerator) (trace_elem : TraceElem)
    : option Module :=
  let context := rev (all_but_last (module_context_list trace_elem)) in
  fold_left (fun output c => parent_scan_entries self c output) context None.

End Classifier.

Module Tracker.

(** [all([i is mi for i, mi in zip(i_list, module_input_list)])]: [zip]
    stops at the end of the shorter list. *)
Fixpoint same_input (i_list module_input_list : list objaddr) : bool :=
  match i_list, module_input_list with
  | i :: il, mi :: ml => (i =? mi) && same_input il ml
  | _, _ => true
  end.

(** First loop of [_is_module_already_gen]. *)
Definition already_gen_exact (self : ModuleGenerator) (module : Module)
    (trace_elem : TraceElem) (is_already_gen : bool) : bool :=
  fold_left
    (fun is_already_gen t =>
       let same_module := module_is (ctx_module t) module in
       let same_in := same_input (ctx_input_list t) (module_input_list trace_elem) in
       let same_output := ctx_output t =? module_output trace_elem in
       is_already_gen || (same_module && same_in && same_output))
    (_generated_allowlist_modules self) is_already_gen.

(** Second loop of [_is_module_already_gen]: every module of the context list
    against every recorded tuple. *)
Definition already_gen_parents (self : ModuleGenerator) (trace_elem : TraceElem)
    (is_already_gen : bool) : bool :=
  fold_left
    (fun is_already_gen c =>
       fold_left
         (fun is_already_gen m => is_already_gen || py_is (ObjModule c) (ObjTuple m))
         (_generated_allowlist_modules self) is_already_gen)
    (module_context_list trace_elem) is_already_gen.

Definition _is_module_already_gen (self : ModuleGenerator) (module : Module)
    (trace_elem : TraceElem) : bool :=
  already_gen_parents self trace_elem (already_gen_exact self module trace_elem false).

(** The first loop of [_is_module_already_gen] on its own, as the existence
    of a recorded triple that passes its three tests; the test of the input
    lists is the one of the source, [same_input]. *)
Definition already_gen_first_loop (self : ModuleGenerator) (module : Module)
    (trace_elem : TraceElem) : bool :=
  existsb
    (fun t =>
       module_is (ctx_module t) module
       && same_input (ctx_input_list t) (module_input_list trace_elem)
       && (ctx_output t =? module_output trace_elem))
    (_generated_allowlist_modules self).

End Tracker.

(** ** Ordered dictionaries with string keys *)

Module Dict.
Section Dict.
Context {V : Type}.

(** [d[k]], as an option. *)
Fixpoint get (d : list (string * V)) (k : string) : option V :=
  match d with
  | [] => None
  | (k', v) :: d' => if String.eqb k k' then Some v else get d' k
  end.

(** [k in d]. *)
Definition mem (d : list (string * V)) (k : string) : bool :=
  match get d k with Some _ => true | None => false end.

(** [d[k] = v]: an existing key keeps its position, a new key goes last. *)
Fixpoint set (d : list (string * V)) (k : string) (v : V) : list (string * V) :=
  match d with
  | [] => [(k, v)]
  | (k', v') :: d' =>
      if String.eqb k k' then (k, v) :: d' else (k', v') :: set d' k v
  end.

End Dict.
End Dict.

(** ** The hierarchy builder *)

Module Hierarchy.

(** The class [torch.nn.Module] of the placeholder containers. *)
Definition Module_class : pyclass :=
  {| class_addr := 0;
     class_qualname := "torch.nn.modules.module.Module";
     class_mro := [0] |}.

(** [hasattr(self, name)]: a child of [self] or another attribute of it. *)
Definition hasattr `{Torch} (self : Module) (name : string) : bool :=
  Dict.mem (_modules self) name || own_attr self name.

(** ['.' in name]. *)
Fixpoint has_dot (name : string) : bool :=
  match name with
  | EmptyString => false
  | String c rest => Ascii.eqb c "."%char || has_dot rest
  end.

(** [Module.add_module(name, module)] of torch: it refuses an object that is
    not a module, a name that is an attribute and not a child, a name with a
    dot and the empty name, and otherwise sets [_modules[name]]. *)
Definition add_module `{Torch} (self : Module) (name : string) (module : pyfn)
    : result Module :=
  match module with
  | FnCallable _ => Raise TypeError
  | FnModule module =>
      if hasattr self name && negb (Dict.mem (_modules self) name) then Raise KeyError
      else if has_dot name then Raise KeyError
      else if String.eqb name "" then Raise KeyError
      else Ok (MkModule (ident self) (cls self) (Dict.set (_modules self) name module))
  end.

(** [Module.named_modules(memo, prefix)] of torch: a depth-first walk that
    yields each module once, by identity, the first time it is met, under its
    dotted name; [memo] holds the addresses already met. *)
Fixpoint named_modules_memo (self : Module) (memo : list nat) (prefix : string)
    {struct self} : list (string * Module) * list nat :=
  match self with
  | MkModule i c children =>
      if existsb (Nat.eqb i) memo then ([], memo)
      else
        let fix over_children (l : list (string * Module)) (memo : list nat)
            {struct l} : list (string * Module) * list nat :=
          match l with
          | [] => ([], memo)
          | (name, module) :: l' =>
              let submodule_prefix :=
                (prefix ++ (if String.eqb prefix "" then "" else ".") ++ name)%string in
              let '(ys, memo1) := named_modules_memo module memo submodule_prefix in
              let '(zs, memo2) := over_children l' memo1 in
              ((ys ++ zs)%list, memo2)
          end in
        let '(ys, memo') := over_children children (i :: memo) in
        ((prefix, self) :: ys, memo')
  end.

Definition named_modules (self : Module) : list (string * Module) :=
  fst (named_modules_memo self [] "").

(** [_add_module]: the walk over [prefix_list] from [supermodule], then the
    attachment of [module] under [module_name].  The output tree is mutated in
    place in Python; here the walk returns the updated [supermodule], rebuilt
    along the path that was walked.  The two say the same where no object
    occurs twice in the tree: an object registered under two names is mutated
    under both in Python, and only under the walked one here.  [alloc] is the
    next free address, used by [Module()]. *)
Fixpoint _add_module `{Torch} (alloc : nat) (module : pyfn) (module_name : string)
    (prefix_list : list string) (supermodule : Module) {struct prefix_list}
    : result (Module * nat) :=
  match prefix_list with
  | [] =>
      supermodule' <- add_module supermodule module_name module ;;
      Ok (supermodule', alloc)
  | prefix :: rest =>
      let submodule_names := map fst (named_modules supermodule) in
      if existsb (String.eqb prefix) submodule_names then
        match Dict.get (_modules supermodule) prefix with
        | None => Raise KeyError
        | Some submodule =>
            '(submodule', alloc') <- _add_module alloc module module_name rest submodule ;;
            Ok (MkModule (ident supermodule) (cls supermodule)
                  (Dict.set (_modules supermodule) prefix submodule'), alloc')
        end
      else
        let submodule := MkModule alloc Module_class [] in
        supermodule1 <- add_module supermodule prefix (FnModule submodule) ;;
        '(submodule', alloc') <- _add_module (S alloc) module module_name rest submodule ;;
        Ok (MkModule (ident supermodule1) (cls supermodule1)
              (Dict.set (_modules supermodule1) prefix submodule'), alloc')
  end.

(** The number of placeholder containers an attachment created. *)
Definition containers_created (alloc alloc' : nat) : nat := alloc' - alloc.

(** The module reached from [root] by following [path] through [_modules]. *)
Fixpoint descend (root : Module) (path : list string) : option Module :=
  match path with
  | [] => Some root
  | s :: rest =>
      match Dict.get (_modules root) s with
      | Some sub => descend sub rest
      | None => None
      end
  end.

End Hierarchy.

(** ** The instruction synthesizer *)

(** The mutable state of one run: the generator object, the output module
    tree, and the next free address (tuples and placeholder containers are
    allocated during the run). *)
Record gen_state : Type := {
  st_self : ModuleGenerator;
  st_model : Module;
  st_alloc : nat
}.

(** [l[-1]]. *)
Definition last_item {A : Type} (l : list A) : result A :=
  match rev l with
  | [] => Raise IndexError
  | x :: _ => Ok x
  end.

Module Synth.
Import Classifier.

Definition _module_instruction `{Torch} (module : pyfn) (trace_elem : TraceElem) (trace : Trace)
    (st : gen_state) : result (gen_state * Instruction) :=
  module_name <- last_item (prefix_list trace_elem) ;;
  let prefix_list := all_but_last (prefix_list trace_elem) in
  '(output_model, alloc) <-
     Hierarchy._add_module (st_alloc st) module module_name prefix_list (st_model st) ;;
  let iil := map (fun i => VIndex (index_from_val trace i)) (module_input_list trace_elem) in
  let module_output_index := VIndex (index_from_val trace (module_output trace_elem)) in
  let inst :=
    {| output_index := module_output_index;
       inst_fn := module;
       inst_fn_type := MODULE;
       input_args_list := iil;
       input_kwargs_dict := [];
       inst_prefix := prefix trace_elem |} in
  Ok ({| st_self := st_self st; st_model := output_model; st_alloc := alloc |}, inst).

Definition _torch_fn_instruction (trace_elem : TraceElem) : Instruction :=
  {| output_index := fn_out_index trace_elem;
     inst_fn := fn trace_elem;
     inst_fn_type := fn_type trace_elem;
     input_args_list := fn_args_index trace_elem;
     input_kwargs_dict := fn_kwargs_index trace_elem;
     inst_prefix := prefix trace_elem |}.

Definition _module_fn_instruction `{Torch} (trace_elem : TraceElem) (st : gen_state)
    : result (gen_state * Instruction) :=
  let module := fn trace_elem in
  let module_name := module_fn_name trace_elem in
  '(output_model, alloc) <-
     Hierarchy._add_module (st_alloc st) module module_name (prefix_list trace_elem)
       (st_model st) ;;
  Ok ({| st_self := st_self st; st_model := output_model; st_alloc := alloc |},
      _torch_fn_instruction trace_elem).

Definition _tensor_fn_instruction (trace_elem : TraceElem) (trace : Trace) : Instruction :=
  {| output_index := fn_out_index trace_elem;
     inst_fn := fn trace_elem;
     inst_fn_type := fn_type trace_elem;
     input_args_list := fn_args_index trace_elem;
     input_kwargs_dict := fn_kwargs_index trace_elem;
     inst_prefix := prefix trace_elem |}.

End Synth.

(** ** The schedule builder *)

Module Schedule.
Import Classifier Tracker Synth.

(** [self._generated_allowlist_modules.append(ctx)] for the tuple
    [ctx = (module, module_input_list, module_output)], allocated at the next
    free address. *)
Definition record_ctx (module : Module) (trace_elem : TraceElem) (st : gen_state)
    : gen_state :=
  let ctx :=
    {| ctx_addr := st_alloc st;
       ctx_module := module;
       ctx_input_list := module_input_list trace_elem;
       ctx_output := module_output trace_elem |} in
  {| st_self :=
       {| gen_module_allowlist := gen_module_allowlist (st_self st);
          gen_module_blocklist := gen_module_blocklist (st_self st);
          _generated_allowlist_modules :=
            _generated_allowlist_modules (st_self st) ++ [ctx] |};
     st_model := st_model st;
     st_alloc := S (st_alloc st) |}.

(** The last branch of the loop body: the dispatch on the call kind, with
    [inst] left at [None] when no kind matches, and the assertion. *)
Definition dispatch_fn_type `{Torch} (trace_elem : TraceElem) (trace : Trace) (st : gen_state)
    : result (gen_state * Instruction) :=
  '(st', inst) <-
     match fn_type trace_elem with
     | MODULE =>
         '(st', i) <- _module_fn_instruction trace_elem st ;; Ok (st', Some i)
     | FUNCTION => Ok (st, Some (_torch_fn_instruction trace_elem))
     | METHOD => Ok (st, Some (_tensor_fn_instruction trace_elem trace))
     | ATTRIBUTE => Ok (st, Some (_tensor_fn_instruction trace_elem trace))
     | SCRIPTMODULE =>
         '(st', i) <- _module_instruction (fn trace_elem) trace_elem trace st ;;
         Ok (st', Some i)
     | OTHER_FN_TYPE _ => Ok (st, None)
     end ;;
  match inst with
  | Some i => Ok (st', i)
  | None => Raise AssertionError
  end.

(** The four dispositions of a trace element. *)
Inductive disposition : Type :=
| EmitAncestor (parent : Module)
| EmitModule
| Skip
| EmitPrimitive.

Definition choose_disposition (parent_in_allowlist : option Module)
    (in_allowlist m_already_gen : bool) : disposition :=
  match parent_in_allowlist with
  | Some parent =>
      if negb m_already_gen then EmitAncestor parent
      else if in_allowlist && negb m_already_gen then EmitModule
      else if in_allowlist && m_already_gen then Skip
      else EmitPrimitive
  | None =>
      if in_allowlist && negb m_already_gen then EmitModule
      else if in_allowlist && m_already_gen then Skip
      else EmitPrimitive
  end.

(** The disposition the loop body of [_gen_schedule] takes for [trace_elem]
    whose innermost module is [module]. *)
Definition disposition_of (self : ModuleGenerator) (module : Module)
    (trace_elem : TraceElem) : disposition :=
  let parent_in_allowlist := _parent_in_gen_allowlist self trace_elem in
  let in_allowlist := _is_module_in_gen_allowlist self module in
  let in_allowlist := in_allowlist && negb (_is_module_in_gen_blocklist self module) in
  let m_already_gen := _is_module_already_gen self module trace_elem in
  choose_disposition parent_in_allowlist in_allowlist m_already_gen.

(** One iteration of the loop of [_gen_schedule]: the new state and the
    instruction appended to the schedule, [None] for [continue]. *)
Definition schedule_step `{Torch} (trace : Trace) (st : gen_state) (trace_elem : TraceElem)
    : result (gen_state * option Instruction) :=
  module <- last_item (module_context_list trace_elem) ;;
  match disposition_of (st_self st) module trace_elem with
  | EmitAncestor parent_in_allowlist =>
      let st := record_ctx module trace_elem st in
      '(st', inst) <- _module_instruction (FnModule parent_in_allowlist) trace_elem trace st ;;
      Ok (st', Some inst)
  | EmitModule =>
      let st := record_ctx module trace_elem st in
      '(st', inst) <- _module_instruction (FnModule module) trace_elem trace st ;;
      Ok (st', Some inst)
  | Skip => Ok (st, None)
  | EmitPrimitive =>
      '(st', inst) <- dispatch_fn_type trace_elem trace st ;;
      Ok (st', Some inst)
  end.

(** The loop of [_gen_schedule] over the remaining elements, [schedule] being
    the list built so far. *)
Fixpoint gen_schedule_loop `{Torch} (trace : Trace) (elems : list TraceElem) (st : gen_state)
    (schedule : list Instruction) : result (gen_state * list Instruction) :=
  match elems with
  | [] => Ok (st, schedule)
  | trace_elem :: rest =>
      '(st', inst) <- schedule_step trace st trace_elem ;;
      match inst with
      | None => gen_schedule_loop trace rest st' schedule
      | Some inst => gen_schedule_loop trace rest st' (schedule ++ [inst])
      end
  end.

Definition _gen_schedule `{Torch} (trace : Trace) (st : gen_state)
    : result (gen_state * list Instruction) :=
  gen_schedule_loop trace (trace_elem_list trace) st [].

End Schedule.

(** ** The constant and parameter resolver *)

Module Resolver.

(** [a == b] on the values that reach a membership test or a dictionary
    lookup: [Index] objects and numbers by value, tensors by address,
    containers element by element. *)
Fixpoint pyval_eqb (a b : pyval) {struct a} : bool :=
  let fix list_eqb (l1 l2 : list pyval) {struct l1} : bool :=
    match l1, l2 with
    | [], [] => true
    | x :: l1', y :: l2' => pyval_eqb x y && list_eqb l1' l2'
    | _, _ => false
    end in
  let fix dict_eqb (l1 l2 : list (string * pyval)) {struct l1} : bool :=
    match l1, l2 with
    | [], [] => true
    | (k1, x) :: l1', (k2, y) :: l2' =>
        String.eqb k1 k2 && pyval_eqb x y && dict_eqb l1' l2'
    | _, _ => false
    end in
  match a, b with
  | VNone, VNone => true
  | VNum x, VNum y => Z.eqb x y
  | VIndex i, VIndex j => i =? j
  | VTensor _ x _, VTensor _ y _ => x =? y
  | VList l1, VList l2 => list_eqb l1 l2
  | VTuple l1, VTuple l2 => list_eqb l1 l2
  | VDict l1, VDict l2 => dict_eqb l1 l2
  | _, _ => false
  end.

(** [x in l] for a list [l]. *)
Definition py_in (x : pyval) (l : list pyval) : bool := existsb (pyval_eqb x) l.

(** Modelled from the spec: [flatten] of brevitas/graph/utils.py, which is
    not part of the sources; nested lists and tuples are flattened into the
    list of their leaves, as the spec's flattened set of input references. *)
Fixpoint flatten (x : pyval) : list pyval :=
  match x with
  | VList l | VTuple l =>
      (fix over (l : list pyval) : list pyval :=
         match l with
         | [] => []
         | a :: l' => flatten a ++ over l'
         end) l
  | _ => [x]
  end.

(** [isinstance(c, Parameter)] and [isinstance(v, Tensor)]. *)
Definition is_Parameter (c : pyval) : bool :=
  match c with VTensor true _ _ => true | _ => false end.
Definition is_Tensor (v : pyval) : bool :=
  match v with VTensor _ _ _ => true | _ => false end.
Definition is_Index (v : pyval) : bool :=
  match v with VIndex _ => true | _ => false end.

(** Lists and dictionaries cannot be dictionary keys. *)
Fixpoint hashable (c : pyval) : bool :=
  match c with
  | VList _ | VDict _ => false
  | VTuple l => forallb hashable l
  | _ => true
  end.

(** Dictionaries keyed by Python values. *)
Definition pydict := list (pyval * pyval).

Fixpoint pydict_get (d : pydict) (k : pyval) : option pyval :=
  match d with
  | [] => None
  | (k', v) :: d' => if pyval_eqb k k' then Some v else pydict_get d' k
  end.

Definition pydict_mem (d : pydict) (k : pyval) : bool :=
  match pydict_get d k with Some _ => true | None => false end.

Fixpoint pydict_set (d : pydict) (k v : pyval) : pydict :=
  match d with
  | [] => [(k, v)]
  | (k', v') :: d' =>
      if pyval_eqb k k' then (k', v) :: d' else (k', v') :: pydict_set d' k v
  end.

(** [trace.index_map[c]]. *)
Definition index_map_get (trace : Trace) (c : pyval) : result pyval :=
  if negb (hashable c) then Raise TypeError
  else match pydict_get (index_map trace) c with
       | Some v => Ok v
       | None => Raise KeyError
       end.

(** [{c: trace.index_map[c] for c in const_index_list if keep c}]. *)
Fixpoint index_map_comprehension (trace : Trace) (keep : pyval -> bool)
    (const_index_list : list pyval) (acc : pydict) : result pydict :=
  match const_index_list with
  | [] => Ok acc
  | c :: rest =>
      if keep c then
        v <- index_map_get trace c ;;
        index_map_comprehension trace keep rest (pydict_set acc c v)
      else index_map_comprehension trace keep rest acc
  end.

(** [v.item()]: the element of a one-element tensor; on any other tensor the
    exception of torch. *)
Definition item `{Torch} (v : pyval) : result pyval :=
  match v with
  | VTensor _ _ [x] => Ok (VNum x)
  | _ => Raise item_error
  end.

(** [{k: v.item() if isinstance(v, Tensor) else v for k, v in consts.items()}]. *)
Fixpoint materialize `{Torch} (consts : pydict) : result pydict :=
  match consts with
  | [] => Ok []
  | (k, v) :: rest =>
      v' <- (if is_Tensor v then item v else Ok v) ;;
      rest' <- materialize rest ;;
      Ok ((k, v') :: rest')
  end.

(** The input references of the whole schedule: positional arguments first,
    keyword arguments after them, both flattened. *)
Definition input_index_list (schedule : list Instruction) : list pyval :=
  flatten (VList (flat_map input_args_list schedule))
  ++ flatten (VList (flat_map (fun inst => map snd (input_kwargs_dict inst)) schedule)).

Definition const_index_list (schedule : list Instruction) (trace : Trace) : list pyval :=
  let output_index_list := map output_index schedule in
  let l := filter (fun i => negb (py_in i (model_input_index_list trace)))
             (input_index_list schedule) in
  filter (fun i => negb (py_in i output_index_list)) l.

(** The message of the [RuntimeError] that [_gen_constants_parameters]
    raises itself. *)
Definition something_went_wrong : pyerror := RuntimeError "Something went wrong".

Definition _gen_constants_parameters `{Torch} (schedule : list Instruction) (trace : Trace)
    : result (pydict * pydict) :=
  let const_index_list := const_index_list schedule trace in
  consts <- index_map_comprehension trace (fun c => negb (is_Parameter c))
              const_index_list [] ;;
  params <- index_map_comprehension trace is_Parameter const_index_list [] ;;
  consts <- materialize consts ;;
  if pydict_mem consts VNone then Raise something_went_wrong
  else Ok (consts, params).

Fixpoint _solve_consts_params (arg : pyval) (consts params : pydict) : pyval :=
  match arg with
  | VList l => VList (map (fun a => _solve_consts_params a consts params) l)
  | VTuple l => VTuple (map (fun a => _solve_consts_params a consts params) l)
  | VDict l =>
      VDict ((fix over (l : list (string * pyval)) : list (string * pyval) :=
                match l with
                | [] => []
                | (k, v) :: l' => (k, _solve_consts_params v consts params) :: over l'
                end) l)
  | VIndex _ =>
      match pydict_get consts arg with
      | Some v => v
      | None =>
          match pydict_get params arg with
          | Some v => v
          | None => arg
          end
      end
  | _ => arg
  end.

Definition solve_kwargs (d : list (string * pyval)) (consts params : pydict)
    : list (string * pyval) :=
  map (fun kv => (fst kv, _solve_consts_params (snd kv) consts params)) d.

Definition _apply_consts_params (schedule : list Instruction) (consts params : pydict)
    : list Instruction :=
  map (fun inst =>
         {| output_index := output_index inst;
            inst_fn := inst_fn inst;
            inst_fn_type := inst_fn_type inst;
            input_args_list :=
              map (fun a => _solve_consts_params a consts params) (input_args_list inst);
            input_kwargs_dict := solve_kwargs (input_kwargs_dict inst) consts params;
            inst_prefix := inst_prefix inst |})
      schedule.

End Resolver.

(** ** [gen_model] *)

Module Generator.
Import Schedule Resolver.

(** [ModuleGenerator.__init__]: the tracker of generated contexts is created
    here, once per generator object.  ([_module_name_id_dict] is never read
    and is left out.) *)
Definition init (gen_module_allowlist gen_module_blocklist : list gen_entry)
    : ModuleGenerator :=
  {| gen_module_allowlist := gen_module_allowlist;
     gen_module_blocklist := gen_module_blocklist;
     _generated_allowlist_modules := [] |}.

Definition default_gen_module_allowlist : list gen_entry :=
  [GStr "torch.nn"; GStr "brevitas.nn"].

(** [Sequential], [ModuleList] and [ModuleDict], the class objects at the
    addresses 11, 13 and 14. *)
Definition default_gen_module_blocklist : list gen_entry :=
  [GClass 11; GClass 13; GClass 14].

(** The class of the output container, [CodegenModule]. *)
Definition CodegenModule_class : pyclass :=
  {| class_addr := 1;
     class_qualname := "brevitas.graph.module.CodegenModule";
     class_mro := [1; 0] |}.

(** The generated model: the output module tree with the attributes that
    [gen_model] sets on it. *)
Record CodegenModule : Type := {
  cm_tree : Module;
  cm_schedule : list Instruction;
  cm_input_index_list : list pyval;
  cm_output_index_list : list pyval
}.

(** The state in which [gen_model] enters [_gen_schedule]: the output model
    is a fresh [CodegenModule()], allocated at the next free address. *)
Definition fresh_state (self : ModuleGenerator) (alloc : nat) : gen_state :=
  let output_model := MkModule alloc CodegenModule_class [] in
  {| st_self := self; st_model := output_model; st_alloc := S alloc |}.

(** [gen_model]: [self] and the next free address go in, and come out
    updated with the generated model. *)
Definition gen_model `{Torch} (self : ModuleGenerator) (alloc : nat) (trace : Trace)
    : result (ModuleGenerator * nat * CodegenModule) :=
  let st := fresh_state self alloc in
  '(st, schedule) <- _gen_schedule trace st ;;
  '(consts, params) <- _gen_constants_parameters schedule trace ;;
  let schedule := _apply_consts_params schedule consts params in
  Ok (st_self st, st_alloc st,
      {| cm_tree := st_model st;
         cm_schedule := schedule;
         cm_input_index_list := model_input_index_list trace;
         cm_output_index_list := model_output_index_list trace |}).

End Generator.

(** * Specification-level definitions *)

Module ClassifierSpec.
Import Classifier.

(** A module is eligible for as-is preservation when it matches the
    allowlist and does not match the blocklist. *)
Definition eligible (self : ModuleGenerator) (c : Module) : bool :=
  _is_module_in_gen_allowlist self c && negb (_is_module_in_gen_blocklist self c).

Definition entry_matches (module : Module) (gm : gen_entry) : bool :=
  match gm with
  | GStr s => startswith (module_class_name module) s
  | GClass k => isinstance_module module k
  | GOther => false
  end.

End ClassifierSpec.

Module ScheduleSpec.
Import Schedule.


(** A run of the loop of [_gen_schedule], element by element: an element
    whose disposition is [Skip] leaves the state and the schedule as they
    are, every other element goes through one successful [schedule_step] and
    contributes exactly the one instruction that step returns, at its place
    in trace order. *)
Inductive run `{Torch} (trace : Trace) : gen_state -> list TraceElem -> list Instruction
    -> gen_state -> Prop :=
| run_done (st : gen_state) : run trace st [] [] st
| run_skip (st st' : gen_state) (e : TraceElem) (module : Module)
    (rest : list TraceElem) (emitted : list Instruction) :
    last_item (module_context_list e) = Ok module ->
    disposition_of (st_self st) module e = Skip ->
    run trace st rest emitted st' ->
    run trace st (e :: rest) emitted st'
| run_emit (st st1 st' : gen_state) (e : TraceElem) (module : Module)
    (inst : Instruction) (rest : list TraceElem) (emitted : list Instruction) :
    last_item (module_context_list e) = Ok module ->
    disposition_of (st_self st) module e <> Skip ->
    schedule_step trace st e = Ok (st1, Some inst) ->
    run trace st1 rest emitted st' ->
    run trace st (e :: rest) (inst :: emitted) st'.

(** The elements of a run that are not skipped, in trace order. *)
Inductive kept `{Torch} (trace : Trace) : gen_state -> list TraceElem -> list TraceElem -> Prop :=
| kept_done (st : gen_state) : kept trace st [] []
| kept_skip (st : gen_state) (e : TraceElem) (rest ks : list TraceElem) :
    schedule_step trace st e = Ok (st, None) ->
    kept trace st rest ks ->
    kept trace st (e :: rest) ks
| kept_emit (st st1 : gen_state) (e : TraceElem) (inst : Instruction)
    (rest ks : list TraceElem) :
    schedule_step trace st e = Ok (st1, Some inst) ->
    kept trace st1 rest ks ->
    kept trace st (e :: rest) (e :: ks).

End ScheduleSpec.

(** * Example objects *)

Module Examples.
Import Generator.

(** A torch runtime for the examples.  The attributes of a module object are
    the public methods and the fields of every [torch.nn.Module] and, for a
    convolution, its parameters and settings as well; the private helpers
    and the methods of [object] are left out.  [item()] fails with the
    [RuntimeError] of a recent torch. *)
Definition Module_attrs : list string :=
  ["forward"; "training"; "add_module"; "register_module"; "named_modules";
   "_modules"; "_parameters"; "_buffers"; "parameters"; "children"; "modules";
   "state_dict"; "load_state_dict"; "apply"; "train"; "eval";
   "register_buffer"; "register_parameter"; "named_parameters";
   "named_children"; "buffers"; "named_buffers"; "get_submodule";
   "get_parameter"; "get_buffer"; "type"; "cuda"; "cpu"; "xpu"; "to";
   "to_empty"; "float"; "double"; "half"; "bfloat16"; "zero_grad";
   "requires_grad_"; "share_memory"; "extra_repr"; "dump_patches";
   "register_forward_hook"; "register_forward_pre_hook";
   "register_backward_hook"; "register_full_backward_hook"].

Definition Conv_attrs : list string :=
  ["weight"; "bias"; "in_channels"; "out_channels"; "kernel_size"; "stride";
   "padding"; "dilation"; "transposed"; "output_padding"; "groups";
   "padding_mode"; "reset_parameters"].

Definition is_conv (self : Module) : bool :=
  startswith (module_class_name self) "torch.nn.modules.conv.".

Definition torch_example : Torch :=
  {| own_attr := fun self name =>
       existsb (String.eqb name) Module_attrs
       || (existsb (String.eqb name) Conv_attrs && is_conv self);
     item_error := RuntimeError "a Tensor with 2 elements cannot be converted to Scalar" |}.

Definition Conv2d_class : pyclass :=
  {| class_addr := 10;
     class_qualname := "torch.nn.modules.conv.Conv2d";
     class_mro := [10; 0] |}.

Definition Sequential_class : pyclass :=
  {| class_addr := 11;
     class_qualname := "torch.nn.modules.container.Sequential";
     class_mro := [11; 0] |}.

Definition MyNet_class : pyclass :=
  {| class_addr := 12;
     class_qualname := "__main__.MyNet";
     class_mro := [12; 0] |}.

Definition default_generator : ModuleGenerator :=
  init default_gen_module_allowlist default_gen_module_blocklist.

(** Module objects at addresses 100, 101, 102. *)
Definition conv : Module := MkModule 100 Conv2d_class [].
Definition seq : Module := MkModule 101 Sequential_class [("0", conv)].
Definition net : Module := MkModule 102 MyNet_class [("features", seq)].

(** [torch.relu(Index 1) -> Index 2], called directly in [net.forward]. *)
Definition relu_elem : TraceElem :=
  {| module_context_list := [net];
     module_input_list := [500];
     module_output := 502;
     prefix_list := ["relu"];
     prefix := "relu";
     fn := FnCallable "torch.relu";
     fn_type := FUNCTION;
     module_fn_name := "";
     fn_args_index := [VIndex 1];
     fn_kwargs_index := [];
     fn_out_index := VIndex 2 |}.

(** The convolution inside [net.features.0], traced as a call of
    [torch.conv2d] on the input [Index 0] and the weight [Index 7]. *)
Definition conv_elem : TraceElem :=
  {| module_context_list := [net; seq; conv];
     module_input_list := [500];
     module_output := 501;
     prefix_list := ["features"; "0"];
     prefix := "features.0";
     fn := FnCallable "torch.conv2d";
     fn_type := FUNCTION;
     module_fn_name := "";
     fn_args_index := [VIndex 0; VIndex 7];
     fn_kwargs_index := [];
     fn_out_index := VIndex 1 |}.

Definition index_of (v : objaddr) : nat := v - 500.

Definition small_trace : Trace :=
  {| trace_elem_list := [conv_elem; relu_elem];
     index_from_val := index_of;
     index_map := [(VIndex 0, VTensor false 500 [1]%Z);
                   (VIndex 1, VTensor false 501 [3]%Z);
                   (VIndex 2, VTensor false 502 [3]%Z)];
     model_input_index_list := [VIndex 0];
     model_output_index_list := [VIndex 2] |}.

Definition start_state (self : ModuleGenerator) (alloc : nat) : gen_state :=
  fresh_state self alloc.

End Examples.

Module AncestorExample.
Import Generator Examples.

(** A block of the namespace [brevitas.nn], allow-listed by default, whose
    forward calls two inner modules of a namespace that is not. *)
Definition QuantBlock_class : pyclass :=
  {| class_addr := 20;
     class_qualname := "brevitas.nn.QuantBlock";
     class_mro := [20; 0] |}.

Definition Inner_class : pyclass :=
  {| class_addr := 21;
     class_qualname := "__main__.Inner";
     class_mro := [21; 0] |}.

Definition inner1 : Module := MkModule 110 Inner_class [].
Definition inner2 : Module := MkModule 111 Inner_class [].
Definition block : Module :=
  MkModule 112 QuantBlock_class [("a", inner1); ("b", inner2)].
Definition top : Module := MkModule 113 MyNet_class [("block", block)].

(** [block] is called on the value at 500 and returns the value at 502;
    inside, [inner1] maps 500 to 501 and [inner2] maps 501 to 502. *)
Definition inner1_elem : TraceElem :=
  {| module_context_list := [top; block; inner1];
     module_input_list := [500];
     module_output := 501;
     prefix_list := ["block"; "a"];
     prefix := "block.a";
     fn := FnCallable "torch.tanh";
     fn_type := FUNCTION;
     module_fn_name := "";
     fn_args_index := [VIndex 0];
     fn_kwargs_index := [];
     fn_out_index := VIndex 1 |}.

Definition inner2_elem : TraceElem :=
  {| module_context_list := [top; block; inner2];
     module_input_list := [501];
     module_output := 502;
     prefix_list := ["block"; "b"];
     prefix := "block.b";
     fn := FnCallable "torch.tanh";
     fn_type := FUNCTION;
     module_fn_name := "";
     fn_args_index := [VIndex 1];
     fn_kwargs_index := [];
     fn_out_index := VIndex 2 |}.

Definition block_trace : Trace :=
  {| trace_elem_list := [inner1_elem; inner2_elem];
     index_from_val := index_of;
     index_map := [];
     model_input_index_list := [VIndex 0];
     model_output_index_list := [VIndex 2] |}.

End AncestorExample.

Module ClaimsAsStated.
Import Classifier Tracker Schedule Generator.

(** The ancestor claim as the specification states it, for an assignment of
    a declared input list and a declared output to every module: whenever an
    element is emitted as its ancestor [parent], the instruction carries the
    references of the inputs and of the output declared for [parent]. *)
Definition ancestor_io_claim `{Torch} (declared_inputs : Module -> list objaddr)
    (declared_output : Module -> objaddr) : Prop :=
  forall (trace : Trace) (st st' : gen_state) (e : TraceElem) (module parent : Module)
         (inst : Instruction),
    last_item (module_context_list e) = Ok module ->
    disposition_of (st_self st) module e = EmitAncestor parent ->
    schedule_step trace st e = Ok (st', Some inst) ->
    input_args_list inst
      = map (fun i => VIndex (index_from_val trace i)) (declared_inputs parent)
    /\ output_index inst = VIndex (index_from_val trace (declared_output parent)).

(** Independence of invocations as the specification states it: two
    successive calls of [gen_model] on the same generator and the same trace
    give the same schedule. *)
Definition invocations_independent `{Torch} : Prop :=
  forall (self self1 self2 : ModuleGenerator) (alloc alloc1 alloc2 : nat)
         (trace : Trace) (m1 m2 : CodegenModule),
    gen_model self alloc trace = Ok (self1, alloc1, m1) ->
    gen_model self1 alloc1 trace = Ok (self2, alloc2, m2) ->
    cm_schedule m1 = cm_schedule m2.

End ClaimsAsStated.

Module DedupExample.
Import Examples.

(** A second invocation of [conv] that returns the same value 501 but takes
    one more input, 503, after the input 500 of the first. *)
Definition conv_elem_two_inputs : TraceElem :=
  {| module_context_list := [net; seq; conv];
     module_input_list := [500; 503];
     module_output := 501;
     prefix_list := ["features"; "0"];
     prefix := "features.0";
     fn := FnCallable "torch.conv2d";
     fn_type := FUNCTION;
     module_fn_name := "";
     fn_args_index := [VIndex 0; VIndex 3; VIndex 7];
     fn_kwargs_index := [];
     fn_out_index := VIndex 1 |}.

Definition two_invocations : Trace :=
  {| trace_elem_list := [conv_elem; conv_elem_two_inputs];
     index_from_val := index_of;
     index_map := [];
     model_input_index_list := [VIndex 0; VIndex 3];
     model_output_index_list := [VIndex 1] |}.

End DedupExample.

Module TrackerSpec.
Import Tracker Schedule.

(** The dispositions that record a context and emit a module instruction. *)
Definition preserving (d : disposition) : bool :=
  match d with
  | EmitAncestor _ | EmitModule => true
  | Skip | EmitPrimitive => false
  end.

(** An element is settled for a generator when no later call can preserve
    it: it counts as already generated, or it has no eligible ancestor and
    its module is not eligible either. *)
Definition settled (self : ModuleGenerator) (e : TraceElem) : Prop :=
  forall module,
    last_item (module_context_list e) = Ok module ->
    _is_module_already_gen self module e = true
    \/ (Classifier._parent_in_gen_allowlist self e = None
        /\ Classifier._is_module_in_gen_allowlist self module
           && negb (Classifier._is_module_in_gen_blocklist self module) = false).

(** [self'] has the lists of [self] and a tracker that extends its tracker. *)
Definition extends (self self' : ModuleGenerator) : Prop :=
  gen_module_allowlist self' = gen_module_allowlist self
  /\ gen_module_blocklist self' = gen_module_blocklist self
  /\ exists added,
       _generated_allowlist_modules self'
       = _generated_allowlist_modules self ++ added.

End TrackerSpec.

Module ResolverSpec.
Import Resolver.

(** The references an instruction consumes: the leaves of its positional
    arguments and of the values of its keyword arguments. *)
Definition inst_refs (inst : Instruction) : list pyval :=
  flatten (VList (input_args_list inst))
  ++ flatten (VList (map snd (input_kwargs_dict inst))).

(** [r] is the output of one of the first [k] instructions. *)
Definition produced_earlier (schedule : list Instruction) (k : nat) (r : pyval) : bool :=
  py_in r (map output_index (firstn k schedule)).

(** [r] is the output of some instruction of the schedule. *)
Definition produced (schedule : list Instruction) (r : pyval) : bool :=
  py_in r (map output_index schedule).

(** [r] is wired: a top-level model input or the output of an instruction. *)
Definition wired (schedule : list Instruction) (trace : Trace) (r : pyval) : bool :=
  py_in r (model_input_index_list trace) || produced schedule r.

(** Values without parts, on which [==] is plain equality. *)
Definition atom (a : pyval) : bool :=
  match a with
  | VNone | VNum _ | VIndex _ => true
  | _ => false
  end.

Definition count_true (l : list bool) : nat := List.length (filter (fun b => b) l).

(** The tensor values of [consts0] are replaced by their element in
    [consts]; every other value is kept; the keys are the same, in order. *)
Inductive materialized : pydict -> pydict -> Prop :=
| materialized_nil : materialized [] []
| materialized_tensor (k : pyval) (is_param : bool) (addr : nat) (x : Z)
    (consts0 consts : pydict) :
    materialized consts0 consts ->
    materialized ((k, VTensor is_param addr [x]) :: consts0) ((k, VNum x) :: consts)
| materialized_other (k v : pyval) (consts0 consts : pydict) :
    is_Tensor v = false ->
    materialized consts0 consts ->
    materialized ((k, v) :: consts0) ((k, v) :: consts).

End ResolverSpec.

Module ResolverExample.
Import Examples.

(** [x.abs_()] returns its receiver: the output reference of the first
    instruction is the top-level input, [Index 0], which the second consumes. *)
Definition abs_inplace_elem : TraceElem :=
  {| module_context_list := [net];
     module_input_list := [500];
     module_output := 501;
     prefix_list := ["abs_"];
     prefix := "abs_";
     fn := FnCallable "abs_";
     fn_type := METHOD;
     module_fn_name := "";
     fn_args_index := [VIndex 0];
     fn_kwargs_index := [];
     fn_out_index := VIndex 0 |}.

Definition relu_after_inplace_elem : TraceElem :=
  {| module_context_list := [net];
     module_input_list := [500];
     module_output := 501;
     prefix_list := ["relu"];
     prefix := "relu";
     fn := FnCallable "torch.relu";
     fn_type := FUNCTION;
     module_fn_name := "";
     fn_args_index := [VIndex 0];
     fn_kwargs_index := [];
     fn_out_index := VIndex 1 |}.

Definition inplace_trace : Trace :=
  {| trace_elem_list := [abs_inplace_elem; relu_after_inplace_elem];
     index_from_val := index_of;
     index_map := [(VIndex 0, VTensor false 500 [1; 2]%Z);
                   (VIndex 1, VTensor false 501 [3; 4]%Z)];
     model_input_index_list := [VIndex 0];
     model_output_index_list := [VIndex 1] |}.

(** [torch.mul(x, w)] in [net.forward], [w] being a parameter of [net] with
    a single element, addressed by [Index 7]; [b], addressed by [Index 8],
    has no value in the index map but [None]. *)
Definition mul_elem : TraceElem :=
  {| module_context_list := [net];
     module_input_list := [500];
     module_output := 501;
     prefix_list := ["mul"];
     prefix := "mul";
     fn := FnCallable "torch.mul";
     fn_type := FUNCTION;
     module_fn_name := "";
     fn_args_index := [VIndex 0; VIndex 7];
     fn_kwargs_index := [("out", VIndex 8)];
     fn_out_index := VIndex 1 |}.

Definition mul_trace : Trace :=
  {| trace_elem_list := [mul_elem];
     index_from_val := index_of;
     index_map := [(VIndex 0, VTensor false 500 [1; 2]%Z);
                   (VIndex 7, VTensor true 700 [5]%Z);
                   (VIndex 8, VNone);
                   (VIndex 1, VTensor false 501 [5; 10]%Z)];
     model_input_index_list := [VIndex 0];
     model_output_index_list := [VIndex 1] |}.

End ResolverExample.

Module ResolverClaims.
Import Schedule Resolver Generator ResolverSpec.

(** The classification as the specification states it: every [Index]
    consumed by an instruction of the schedule is in exactly one of the four
    classes: produced by an earlier instruction, top-level input, key of
    [consts], key of [params]. *)
Definition references_classified_claim `{Torch} : Prop :=
  forall (self : ModuleGenerator) (alloc : nat) (trace : Trace) (st : gen_state)
         (raw : list Instruction) (consts params : pydict),
    _gen_schedule trace (fresh_state self alloc) = Ok (st, raw) ->
    _gen_constants_parameters raw trace = Ok (consts, params) ->
    forall (k : nat) (inst : Instruction) (i : nat),
      nth_error raw k = Some inst ->
      In (VIndex i) (inst_refs inst) ->
      count_true [produced_earlier raw k (VIndex i);
                  py_in (VIndex i) (model_input_index_list trace);
                  pydict_mem consts (VIndex i);
                  pydict_mem params (VIndex i)] = 1.

(** The unresolved-constant error as the specification states it: raised
    exactly when some candidate that goes to [consts] has the value [None] in
    the index map. *)
Definition unresolved_iff_none_value_claim `{Torch} : Prop :=
  forall (schedule : list Instruction) (trace : Trace),
    _gen_constants_parameters schedule trace = Raise something_went_wrong
    <-> exists c,
          In c (const_index_list schedule trace)
          /\ is_Parameter c = false
          /\ pydict_get (index_map trace) c = Some VNone.

End ResolverClaims.

Module HierarchySpec.
Import Hierarchy.

(** The loop of [named_modules] over the children of a module, from the
    prefix of that module. *)
Fixpoint over_children (prefix : string) (l : list (string * Module)) (memo : list nat)
    {struct l} : list (string * Module) * list nat :=
  match l with
  | [] => ([], memo)
  | (name, module) :: l' =>
      let submodule_prefix :=
        (prefix ++ (if String.eqb prefix "" then "" else ".") ++ name)%string in
      let '(ys, memo1) := named_modules_memo module memo submodule_prefix in
      let '(zs, memo2) := over_children prefix l' memo1 in
      (ys ++ zs, memo2)
  end.

(** The keys of [_modules] are distinct and are names that [add_module]
    lets in (no dot, not empty), at every node of the tree. *)
Definition valid_key (name : string) : bool :=
  negb (has_dot name) && negb (String.eqb name "").

(** A name that [add_module] accepts on every module: without a dot, not
    empty, and an attribute of no module object. *)
Definition attachable `{Torch} (name : string) : Prop :=
  valid_key name = true /\ forall self, own_attr self name = false.

Fixpoint distinct_keys (keys : list string) : bool :=
  match keys with
  | [] => true
  | k :: rest => negb (existsb (String.eqb k) rest) && distinct_keys rest
  end.

Fixpoint wf_module (m : Module) : bool :=
  match m with
  | MkModule _ _ children =>
      distinct_keys (map fst children)
      && (fix go (l : list (string * Module)) : bool :=
            match l with
            | [] => true
            | (k, c) :: l' => valid_key k && wf_module c && go l'
            end) children
  end.

(** Every module of the tree was allocated before [alloc]. *)
Fixpoint idents_below (alloc : nat) (m : Module) : bool :=
  match m with
  | MkModule i _ children =>
      (i <? alloc)
      && (fix go (l : list (string * Module)) : bool :=
            match l with
            | [] => true
            | (_, c) :: l' => idents_below alloc c && go l'
            end) children
  end.

(** The addresses of the objects of a tree, the root first. *)
Fixpoint all_idents (m : Module) : list nat :=
  match m with
  | MkModule i _ children =>
      i :: (fix go (l : list (string * Module)) : list nat :=
              match l with
              | [] => []
              | (_, c) :: l' => all_idents c ++ go l'
              end) children
  end.

Fixpoint distinct_addrs (l : list nat) : bool :=
  match l with
  | [] => true
  | i :: rest => negb (existsb (Nat.eqb i) rest) && distinct_addrs rest
  end.

(** No object occurs twice in the tree: the case in which a tree value and
    the object graph of Python say the same. *)
Definition no_shared_object (m : Module) : bool := distinct_addrs (all_idents m).

(** [leaf] has no object in common with [root]. *)
Definition apart (root leaf : Module) : bool :=
  forallb (fun i => negb (existsb (Nat.eqb i) (all_idents root))) (all_idents leaf).

(** The shared-prefix property as the specification states it, for every
    tree and every pair of names: after a first attachment under a path, a
    second one under the same path succeeds without a new container and
    leaves both modules under their names at the end of the path. *)
Definition shared_prefix_claim `{Torch} : Prop :=
  forall (root root1 leaf1 leaf2 : Module) (name1 name2 : string)
         (prefix_list : list string) (alloc alloc1 : nat),
    name1 <> name2 ->
    _add_module alloc (FnModule leaf1) name1 prefix_list root = Ok (root1, alloc1) ->
    exists root2 container,
      _add_module alloc1 (FnModule leaf2) name2 prefix_list root1 = Ok (root2, alloc1)
      /\ descend root2 prefix_list = Some container
      /\ Dict.get (_modules container) name1 = Some leaf1
      /\ Dict.get (_modules container) name2 = Some leaf2.

End HierarchySpec.

Module HierarchyExample.
Import Hierarchy Generator Examples.

Definition relu_module : Module :=
  MkModule 120 {| class_addr := 30;
                  class_qualname := "torch.nn.modules.activation.ReLU";
                  class_mro := [30; 0] |} [].

Definition empty_root : Module := MkModule 200 CodegenModule_class [].

End HierarchyExample.

Module ScheduleMoreSpec.
Import Schedule.

(** Two generators that differ at most in the addresses of their recorded
    tuples. *)
Definition same_contexts (self self' : ModuleGenerator) : Prop :=
  gen_module_allowlist self = gen_module_allowlist self'
  /\ gen_module_blocklist self = gen_module_blocklist self'
  /\ Forall2
       (fun t t' =>
          ctx_module t = ctx_module t'
          /\ ctx_input_list t = ctx_input_list t'
          /\ ctx_output t = ctx_output t')
       (_generated_allowlist_modules self) (_generated_allowlist_modules self').

(** An element without a module context: the trace of a call outside of
    every module. *)
Definition orphan_elem : TraceElem :=
  {| module_context_list := [];
     module_input_list := [];
     module_output := 0;
     prefix_list := [];
     prefix := "";
     fn := FnCallable "torch.relu";
     fn_type := FUNCTION;
     module_fn_name := "";
     fn_args_index := [VIndex 0];
     fn_kwargs_index := [];
     fn_out_index := VIndex 1 |}.

Definition orphan_trace : Trace :=
  {| trace_elem_list := [orphan_elem];
     index_from_val := fun v => v;
     index_map := [];
     model_input_index_list := [VIndex 0];
     model_output_index_list := [VIndex 1] |}.

End ScheduleMoreSpec.

Module ResolverMoreSpec.
Import Resolver.

(** The [Index] objects inside an argument structure, at any depth, through
    lists, tuples and the values of dictionaries. *)
Fixpoint index_leaves (x : pyval) : list nat :=
  match x with
  | VIndex i => [i]
  | VList l | VTuple l =>
      (fix over (l : list pyval) : list nat :=
         match l with
         | [] => []
         | a :: l' => index_leaves a ++ over l'
         end) l
  | VDict l =>
      (fix over (l : list (string * pyval)) : list nat :=
         match l with
         | [] => []
         | (_, a) :: l' => index_leaves a ++ over l'
         end) l
  | _ => []
  end.

(** The value that stands for [v] in [consts]: the element of a one-element
    tensor, [v] itself otherwise. *)
Definition scalar_of (v : pyval) : pyval :=
  match v with
  | VTensor _ _ [x] => VNum x
  | _ => v
  end.

(** A tensor for which [item()] fails: it has no element or several. *)
Definition non_scalar_tensor (v : pyval) : bool :=
  match v with
  | VTensor _ _ [_] => false
  | VTensor _ _ _ => true
  | _ => false
  end.

(** [torch.mul(x, w)] with a weight of two elements, addressed by
    [Index 7], as a free reference. *)
Definition weight_trace : Trace :=
  {| trace_elem_list := [ResolverExample.mul_elem];
     index_from_val := Examples.index_of;
     index_map := [(VIndex 0, VTensor false 500 [1; 2]%Z);
                   (VIndex 7, VTensor false 700 [5; 6]%Z);
                   (VIndex 8, VNum 0);
                   (VIndex 1, VTensor false 501 [5; 12]%Z)];
     model_input_index_list := [VIndex 0];
     model_output_index_list := [VIndex 1] |}.

(** The same call when the index map knows nothing of [Index 7]. *)
Definition dangling_trace : Trace :=
  {| trace_elem_list := [ResolverExample.mul_elem];
     index_from_val := Examples.index_of;
     index_map := [(VIndex 0, VTensor false 500 [1; 2]%Z);
                   (VIndex 8, VNum 0)];
     model_input_index_list := [VIndex 0];
     model_output_index_list := [VIndex 1] |}.

End ResolverMoreSpec.

Module DuplicateSpec.
Import Tracker.

(** [l1] and [l2] are the same list of references: same length, and the
    same object at every position. *)
Fixpoint identical_inputs (l1 l2 : list objaddr) : bool :=
  match l1, l2 with
  | [], [] => true
  | i :: l1', mi :: l2' => (i =? mi) && identical_inputs l1' l2'
  | _, _ => false
  end.

(** Condition (a) as the specification words it: some recorded triple has
    the same module, an identical input reference list and the same output
    reference. *)
Definition is_already_gen_identical (self : ModuleGenerator) (module : Module)
    (trace_elem : TraceElem) : bool :=
  existsb
    (fun t =>
       module_is (ctx_module t) module
       && identical_inputs (ctx_input_list t) (module_input_list trace_elem)
       && (ctx_output t =? module_output trace_elem))
    (_generated_allowlist_modules self).

End DuplicateSpec.

(** * Properties *)

(** ** The classifier *)

Module ClassifierFacts.
Import Classifier ClassifierSpec.

Section ClassifierFacts_general.
Context {torch : Torch}.

Lemma gen_list_fold (module : Module) (gen_list : list gen_entry) (b : bool) :
  fold_left
    (fun output gm =>
       let output :=
         output || match gm with
                   | GStr s => startswith (module_class_name module) s
                   | _ => false
                   end in
       output || match gm with
                 | GClass k => isinstance_module module k
                 | _ => false
                 end)
    gen_list b
  = b || existsb (entry_matches module) gen_list.
Proof.
  revert b; induction gen_list as [|gm l IH]; intro b; simpl.
  - now rewrite orb_false_r.
  - rewrite IH. destruct gm; simpl; destruct b; simpl;
      rewrite ?orb_false_r, ?orb_true_r; reflexivity.
Qed.

Lemma is_module_in_gen_list_existsb (module : Module) (gen_list : list gen_entry) :
  _is_module_in_gen_list module gen_list = existsb (entry_matches module) gen_list.
Proof. unfold _is_module_in_gen_list. now rewrite gen_list_fold. Qed.

Lemma scan_entries_fold (self : ModuleGenerator) (c : Module)
    (l : list gen_entry) (output : option Module) :
  fold_left
    (fun output gma =>
       match gma with
       | GStr s =>
           if startswith (module_class_name c) s
           then if negb (_is_module_in_gen_blocklist self c) then Some c else output
           else output
       | GClass k =>
           if isinstance_module c k
           then if negb (_is_module_in_gen_blocklist self c) then Some c else output
           else output
       | GOther => output
       end) l output
  = if existsb (entry_matches c) l && negb (_is_module_in_gen_blocklist self c)
    then Some c else output.
Proof.
  revert output; induction l as [|gma l IH]; intro output; simpl; [reflexivity|].
  rewrite IH.
  destruct gma; simpl;
    destruct (existsb (entry_matches c) l);
    destruct (negb (_is_module_in_gen_blocklist self c));
    rewrite ?andb_true_r, ?andb_false_r, ?orb_true_r, ?orb_false_r; simpl;
    try reflexivity;
    match goal with |- context [if ?b then _ else _] => destruct b end;
    reflexivity.
Qed.

Lemma parent_scan_entries_eligible (self : ModuleGenerator) (c : Module)
    (output : option Module) :
  parent_scan_entries self c output = if eligible self c then Some c else output.
Proof.
  unfold parent_scan_entries, eligible, _is_module_in_gen_allowlist.
  now rewrite scan_entries_fold, is_module_in_gen_list_existsb.
Qed.

Lemma scan_reversed (self : ModuleGenerator) (l : list Module) :
  fold_left (fun output c => parent_scan_entries self c output) (rev l) None
  = find (eligible self) l.
Proof.
  induction l as [|c l IH]; simpl; [reflexivity|].
  rewrite fold_left_app; simpl.
  rewrite IH, parent_scan_entries_eligible.
  destruct (eligible self c); reflexivity.
Qed.

(** C6: [_parent_in_gen_allowlist] scans the context list without its last
    (innermost) module and returns the outermost eligible ancestor: the
    first module, in the order of the context list (outermost first), that
    matches the allowlist and not the blocklist; none when there is none. *)
Theorem parent_in_gen_allowlist_outermost (self : ModuleGenerator) (trace_elem : TraceElem) :
  _parent_in_gen_allowlist self trace_elem
  = find (eligible self) (all_but_last (module_context_list trace_elem)).
Proof. unfold _parent_in_gen_allowlist. apply scan_reversed. Qed.

End ClassifierFacts_general.

End ClassifierFacts.

(** ** The tracker *)

Module TrackerFacts.
Import Tracker.

Section TrackerFacts_general.
Context {torch : Torch}.

Lemma already_gen_parents_id (self : ModuleGenerator) (trace_elem : TraceElem) (b : bool) :
  already_gen_parents self trace_elem b = b.
Proof.
  unfold already_gen_parents.
  generalize (module_context_list trace_elem) as ctxs.
  intro ctxs; revert b; induction ctxs as [|c ctxs IH]; intro b; simpl; [reflexivity|].
  rewrite IH. clear IH.
  generalize (_generated_allowlist_modules self) as ms.
  intro ms; revert b; induction ms as [|m ms IH]; intro b; simpl; [reflexivity|].
  rewrite IH. apply orb_false_r.
Qed.

Lemma already_gen_exact_existsb (self : ModuleGenerator) (module : Module)
    (trace_elem : TraceElem) (b : bool) :
  already_gen_exact self module trace_elem b
  = b || already_gen_first_loop self module trace_elem.
Proof.
  unfold already_gen_exact, already_gen_first_loop.
  generalize (_generated_allowlist_modules self) as ms.
  intro ms; revert b; induction ms as [|t ms IH]; intro b; simpl.
  - now rewrite orb_false_r.
  - rewrite IH. now rewrite orb_assoc.
Qed.

Lemma identical_inputs_same_input (l1 l2 : list objaddr) :
  DuplicateSpec.identical_inputs l1 l2 = true -> same_input l1 l2 = true.
Proof.
  revert l2. induction l1 as [|x l1 IH]; intros [|y l2]; simpl; try discriminate; auto.
  intro H. apply andb_prop in H. destruct H as [-> H]. simpl. now apply IH.
Qed.

(** C10, the code against condition (a): the second loop of
    [_is_module_already_gen] never changes the answer, and whenever
    condition (a) holds the code answers true; but the code also answers
    true where condition (a) fails, because its test of the input lists
    stops at the end of the shorter list: with the context of [conv]
    recorded for the inputs [[500]] and the output 501, the element with the
    inputs [[500; 503]] and the same output is already generated for the
    code, and is not for condition (a). *)
Theorem already_gen_is_wider_than_condition_a :
  (forall self trace_elem b, already_gen_parents self trace_elem b = b)
  /\ (forall self module trace_elem,
        DuplicateSpec.is_already_gen_identical self module trace_elem = true ->
        _is_module_already_gen self module trace_elem = true)
  /\ _is_module_already_gen
       {| gen_module_allowlist := Generator.default_gen_module_allowlist;
          gen_module_blocklist := Generator.default_gen_module_blocklist;
          _generated_allowlist_modules :=
            [{| ctx_addr := 201; ctx_module := Examples.conv;
                ctx_input_list := [500]; ctx_output := 501 |}] |}
       Examples.conv DedupExample.conv_elem_two_inputs = true
  /\ DuplicateSpec.is_already_gen_identical
       {| gen_module_allowlist := Generator.default_gen_module_allowlist;
          gen_module_blocklist := Generator.default_gen_module_blocklist;
          _generated_allowlist_modules :=
            [{| ctx_addr := 201; ctx_module := Examples.conv;
                ctx_input_list := [500]; ctx_output := 501 |}] |}
       Examples.conv DedupExample.conv_elem_two_inputs = false.
Proof.
  split; [intros self trace_elem b; apply already_gen_parents_id|].
  split; [|split; reflexivity].
  intros self module trace_elem H.
  unfold _is_module_already_gen.
  rewrite already_gen_parents_id, already_gen_exact_existsb. simpl.
  unfold DuplicateSpec.is_already_gen_identical in H. unfold already_gen_first_loop.
  apply existsb_exists in H. destruct H as (t & Hin & Ht).
  apply existsb_exists. exists t. split; [exact Hin|].
  apply andb_prop in Ht. destruct Ht as [Ht Ho]. apply andb_prop in Ht.
  destruct Ht as [Hm Hi]. rewrite Hm, Ho, (identical_inputs_same_input _ _ Hi). reflexivity.
Qed.

End TrackerFacts_general.

End TrackerFacts.

(** ** The schedule builder *)

Module ScheduleFacts.
Import Classifier Tracker Synth Schedule ScheduleSpec.

Section ScheduleFacts_general.
Context {torch : Torch}.

#[local] Arguments Hierarchy.add_module : simpl never.

Ltac bind_cases H :=
  match type of H with
  | bind ?r _ = _ =>
      let E := fresh "E" in
      destruct r as [[? ?]|?] eqn:E; simpl in H; try discriminate
  end.

Lemma step_skip (trace : Trace) (st : gen_state) (e : TraceElem) (module : Module) :
  last_item (module_context_list e) = Ok module ->
  disposition_of (st_self st) module e = Skip ->
  schedule_step trace st e = Ok (st, None).
Proof.
  intros Hl Hd. unfold schedule_step. rewrite Hl. simpl. now rewrite Hd.
Qed.

Lemma step_not_skip (trace : Trace) (st st' : gen_state) (e : TraceElem)
    (module : Module) (o : option Instruction) :
  last_item (module_context_list e) = Ok module ->
  disposition_of (st_self st) module e <> Skip ->
  schedule_step trace st e = Ok (st', o) ->
  exists inst, o = Some inst.
Proof.
  intros Hl Hd H. unfold schedule_step in H. rewrite Hl in H. simpl in H.
  destruct (disposition_of (st_self st) module e); try congruence;
    bind_cases H; inversion H; eauto.
Qed.

Lemma step_ok_module (trace : Trace) (st st' : gen_state) (e : TraceElem)
    (o : option Instruction) :
  schedule_step trace st e = Ok (st', o) ->
  exists module, last_item (module_context_list e) = Ok module.
Proof.
  unfold schedule_step. destruct (last_item (module_context_list e)); simpl; eauto.
  discriminate.
Qed.


Lemma add_module_raises (self : Module) (name : string) (module : pyfn) (err : pyerror) :
  Hierarchy.add_module self name module = Raise err ->
  err = KeyError \/ err = TypeError.
Proof.
  unfold Hierarchy.add_module. destruct module as [m|n]; [|intro H; inversion H; auto].
  repeat match goal with |- context [if ?b then _ else _] => destruct b end;
    intro H; inversion H; auto.
Qed.

Lemma _add_module_raises (prefix_list : list string) :
  forall (alloc : nat) (module : pyfn) (module_name : string) (supermodule : Module)
         (err : pyerror),
  Hierarchy._add_module alloc module module_name prefix_list supermodule = Raise err ->
  err = KeyError \/ err = TypeError.
Proof.
  induction prefix_list as [|p rest IH]; intros alloc module module_name supermodule err; simpl.
  - destruct (Hierarchy.add_module supermodule module_name module) eqn:E; simpl;
      [intros; discriminate|]. intro H; inversion H; subst. eapply add_module_raises; eauto.
  - destruct (existsb _ _).
    + destruct (Dict.get _ p); [|intro H; inversion H; auto].
      destruct (Hierarchy._add_module alloc module module_name rest m) as [[? ?]|e] eqn:E;
        simpl; [intros; discriminate|]. intro H; inversion H; subst. eapply IH; eauto.
    + destruct (Hierarchy.add_module supermodule p
                  (FnModule (MkModule alloc Hierarchy.Module_class []))) eqn:E1; simpl.
      * destruct (Hierarchy._add_module (S alloc) module module_name rest
                    (MkModule alloc Hierarchy.Module_class []))
          as [[? ?]|e] eqn:E; simpl; [intros; discriminate|].
        intro H; inversion H; subst. eapply IH; eauto.
      * intro H; inversion H; subst. eapply add_module_raises; eauto.
Qed.

Lemma last_item_raises {A : Type} (l : list A) (err : pyerror) :
  last_item l = Raise err -> err = IndexError.
Proof.
  unfold last_item. destruct (rev l); [|discriminate]. intro H; now inversion H.
Qed.

Lemma _module_instruction_raises (module : pyfn) (e : TraceElem) (trace : Trace)
    (st : gen_state) (err : pyerror) :
  _module_instruction module e trace st = Raise err ->
  err = KeyError \/ err = TypeError \/ err = IndexError.
Proof.
  unfold _module_instruction.
  destruct (last_item (prefix_list e)) eqn:El; simpl.
  - destruct (Hierarchy._add_module _ _ _ _ _) as [[? ?]|e'] eqn:E; simpl; [intros; discriminate|].
    intro H; inversion H; subst. apply _add_module_raises in E. tauto.
  - intro H; inversion H; subst. apply last_item_raises in El. tauto.
Qed.




Lemma step_primitive_total (trace : Trace) (st : gen_state) (e : TraceElem) (module : Module) :
  last_item (module_context_list e) = Ok module ->
  disposition_of (st_self st) module e = EmitPrimitive ->
  fn_type e = FUNCTION \/ fn_type e = METHOD \/ fn_type e = ATTRIBUTE ->
  schedule_step trace st e = Ok (st, Some (_torch_fn_instruction e)).
Proof.
  intros Hl Hd Hk. unfold schedule_step. rewrite Hl; simpl. rewrite Hd.
  unfold dispatch_fn_type.
  destruct Hk as [Hk|[Hk|Hk]]; rewrite Hk; reflexivity.
Qed.

Lemma loop_run (trace : Trace) (elems : list TraceElem) :
  forall (st st' : gen_state) (acc schedule : list Instruction),
  gen_schedule_loop trace elems st acc = Ok (st', schedule) ->
  exists emitted, run trace st elems emitted st' /\ schedule = acc ++ emitted.
Proof.
  induction elems as [|e rest IH]; intros st st' acc schedule H; simpl in H.
  - inversion H; subst. exists []. split; [constructor|now rewrite app_nil_r].
  - destruct (schedule_step trace st e) as [[st1 o]|err] eqn:E; simpl in H; [|discriminate].
    destruct (step_ok_module _ _ _ _ _ E) as [module Hl].
    destruct (disposition_of (st_self st) module e) eqn:Hd;
      try (assert (Hne : disposition_of (st_self st) module e <> Skip) by congruence;
           destruct (step_not_skip _ _ _ _ _ _ Hl Hne E) as [inst ->];
           apply IH in H; destruct H as [emitted [Hr ->]];
           exists (inst :: emitted); split;
           [eapply run_emit; eauto | now rewrite <- app_assoc]).
    rewrite (step_skip _ _ _ _ Hl Hd) in E. inversion E; subst.
    apply IH in H. destruct H as [emitted [Hr ->]].
    exists emitted. split; [eapply run_skip; eauto | reflexivity].
Qed.







End ScheduleFacts_general.

#[local] Existing Instance Examples.torch_example.


End ScheduleFacts.

(** ** Ancestor precedence *)

Module AncestorFacts.
Import Classifier ClassifierSpec Tracker Synth Schedule ScheduleSpec ClaimsAsStated.

Section AncestorFacts_general.
Context {torch : Torch}.

#[local] Arguments Hierarchy._add_module : simpl never.

Lemma module_instruction_shape (module : pyfn) (e : TraceElem) (trace : Trace)
    (st st' : gen_state) (inst : Instruction) :
  _module_instruction module e trace st = Ok (st', inst) ->
  inst_fn inst = module
  /\ inst_fn_type inst = MODULE
  /\ input_args_list inst
     = map (fun i => VIndex (index_from_val trace i)) (module_input_list e)
  /\ input_kwargs_dict inst = []
  /\ output_index inst = VIndex (index_from_val trace (module_output e))
  /\ st_self st' = st_self st.
Proof.
  unfold _module_instruction.
  destruct (last_item (prefix_list e)); simpl; [|discriminate].
  destruct (Hierarchy._add_module _ _ _ _ _) as [[? ?]|?]; simpl; [|discriminate].
  intro H; inversion H; subst; simpl. repeat split; reflexivity.
Qed.

(** C2, as the code has it: an element that is emitted as an ancestor has the
    outermost eligible ancestor as the callable of its module instruction,
    while the positional input references and the output reference are those
    of the element's own [module_input_list] and [module_output]; the context
    recorded for it is that of the element's innermost module. *)
Theorem ancestor_instruction_uses_element_io (trace : Trace) (st st' : gen_state)
    (e : TraceElem) (module parent : Module) (inst : Instruction)
    (Hl : last_item (module_context_list e) = Ok module)
    (Hd : disposition_of (st_self st) module e = EmitAncestor parent)
    (Hs : schedule_step trace st e = Ok (st', Some inst)) :
  find (eligible (st_self st)) (all_but_last (module_context_list e)) = Some parent
  /\ _is_module_already_gen (st_self st) module e = false
  /\ inst_fn inst = FnModule parent
  /\ inst_fn_type inst = MODULE
  /\ input_args_list inst
     = map (fun i => VIndex (index_from_val trace i)) (module_input_list e)
  /\ output_index inst = VIndex (index_from_val trace (module_output e))
  /\ exists t, _generated_allowlist_modules (st_self st')
               = _generated_allowlist_modules (st_self st) ++ [t]
               /\ ctx_module t = module
               /\ ctx_input_list t = module_input_list e
               /\ ctx_output t = module_output e.
Proof.
  assert (Hp : _parent_in_gen_allowlist (st_self st) e = Some parent
               /\ _is_module_already_gen (st_self st) module e = false).
  { unfold disposition_of, choose_disposition in Hd.
    destruct (_parent_in_gen_allowlist (st_self st) e) as [p|];
      destruct (_is_module_already_gen (st_self st) module e);
      destruct (_is_module_in_gen_allowlist (st_self st) module
                && negb (_is_module_in_gen_blocklist (st_self st) module));
      simpl in Hd; try discriminate; inversion Hd; auto. }
  destruct Hp as [Hp Hdup].
  unfold _parent_in_gen_allowlist in Hp. rewrite ClassifierFacts.scan_reversed in Hp.
  unfold schedule_step in Hs. rewrite Hl in Hs. simpl in Hs. rewrite Hd in Hs.
  destruct (_module_instruction _ _ _ _) as [[st1 i]|?] eqn:E; simpl in Hs; [|discriminate].
  inversion Hs; subst.
  apply module_instruction_shape in E.
  destruct E as (Hf & Ht & Ha & _ & Ho & Hself).
  repeat (split; [assumption|]).
  rewrite Hself. simpl. eexists. split; [reflexivity|]. simpl. auto.
Qed.

End AncestorFacts_general.

#[local] Existing Instance Examples.torch_example.

Lemma ancestor_instruction_uses_element_io_witness :
  exists st' inst,
    schedule_step AncestorExample.block_trace
      (Examples.start_state Examples.default_generator 200)
      AncestorExample.inner1_elem = Ok (st', Some inst)
    /\ inst_fn inst = FnModule AncestorExample.block
    /\ input_args_list inst = [VIndex 0]
    /\ output_index inst = VIndex 1.
Proof.
  eexists. eexists. split; [vm_compute; reflexivity|].
  pose proof (ancestor_instruction_uses_element_io AncestorExample.block_trace
                (Examples.start_state Examples.default_generator 200) _
                AncestorExample.inner1_elem AncestorExample.inner1
                AncestorExample.block _ eq_refl eq_refl eq_refl) as H.
  destruct H as (_ & _ & Hf & _ & Ha & Ho & _).
  split; [exact Hf|]. split; [exact Ha|exact Ho].
Defined.

(** C2, as stated, fails whatever inputs and output are taken as declared by
    the ancestor: the two elements inside [block] are both emitted as [block],
    the first with output reference 1 and the second with output reference 2. *)
Lemma ancestor_io_claim_counterexample :
  ~ exists declared_inputs declared_output,
      ancestor_io_claim declared_inputs declared_output.
Proof.
  intros (di & dout & H).
  pose proof (H AncestorExample.block_trace
                (Examples.start_state Examples.default_generator 200) _
                AncestorExample.inner1_elem AncestorExample.inner1
                AncestorExample.block _ eq_refl eq_refl eq_refl) as [_ H1].
  pose proof (H AncestorExample.block_trace
                (Examples.start_state Examples.default_generator 200) _
                AncestorExample.inner2_elem AncestorExample.inner2
                AncestorExample.block _ eq_refl eq_refl eq_refl) as [_ H2].
  simpl in H1, H2. rewrite <- H1 in H2. discriminate H2.
Qed.

End AncestorFacts.

(** ** Deduplication *)

Module DedupFacts.
Import Classifier Tracker Synth Schedule ScheduleSpec TrackerSpec.

Section DedupFacts_general.
Context {torch : Torch}.

Lemma same_input_refl (l : list objaddr) : same_input l l = true.
Proof. induction l as [|x l IH]; simpl; [reflexivity|]. now rewrite Nat.eqb_refl. Qed.

Lemma same_input_prefix (l ext : list objaddr) : same_input l (l ++ ext) = true.
Proof. induction l as [|x l IH]; simpl; [reflexivity|]. now rewrite Nat.eqb_refl. Qed.

Lemma already_gen_eq (self : ModuleGenerator) (module : Module) (e : TraceElem) :
  _is_module_already_gen self module e = already_gen_first_loop self module e.
Proof.
  unfold _is_module_already_gen.
  now rewrite TrackerFacts.already_gen_parents_id, TrackerFacts.already_gen_exact_existsb.
Qed.

Lemma already_gen_recorded (self : ModuleGenerator) (module : Module) (e : TraceElem)
    (t : gen_ctx) :
  In t (_generated_allowlist_modules self) ->
  module_is (ctx_module t) module = true ->
  same_input (ctx_input_list t) (module_input_list e) = true ->
  ctx_output t = module_output e ->
  _is_module_already_gen self module e = true.
Proof.
  intros Hin Hm Hi Ho. rewrite already_gen_eq. unfold already_gen_first_loop.
  apply existsb_exists. exists t. split; [assumption|].
  rewrite Hm, Hi, Ho, Nat.eqb_refl. reflexivity.
Qed.

Lemma duplicate_not_preserved (self : ModuleGenerator) (module : Module) (e : TraceElem) :
  _is_module_already_gen self module e = true ->
  preserving (disposition_of self module e) = false.
Proof.
  intro Hd. unfold disposition_of, choose_disposition. rewrite Hd.
  destruct (_parent_in_gen_allowlist self e);
    destruct (_is_module_in_gen_allowlist self module
              && negb (_is_module_in_gen_blocklist self module)); reflexivity.
Qed.

End DedupFacts_general.

#[local] Existing Instance Examples.torch_example.

(** C5, the code at the failing input: after the first invocation of [conv]
    (inputs [[500]], output 501) is recorded, a second invocation with the
    same output and the longer input list [[500; 503]] is taken for the same
    invocation, because the comparison of the input lists stops at the end of
    the shorter list; the element is skipped and the schedule has a single
    module instruction for the two invocations. *)
Theorem longer_input_list_taken_for_duplicate :
  same_input [500] [500; 503] = true
  /\ (exists st,
        _gen_schedule DedupExample.two_invocations
          (Examples.start_state Examples.default_generator 200)
        = Ok (st, [{| output_index := VIndex 1;
                      inst_fn := FnModule Examples.conv;
                      inst_fn_type := MODULE;
                      input_args_list := [VIndex 0];
                      input_kwargs_dict := [];
                      inst_prefix := "features.0" |}])).
Proof. split; [reflexivity|]. eexists. vm_compute. reflexivity. Qed.

End DedupFacts.

(** ** Successive invocations *)

Module InvocationFacts.
Import Classifier Tracker Synth Schedule ScheduleSpec TrackerSpec Generator ClaimsAsStated.

Section InvocationFacts_general.
Context {torch : Torch}.

#[local] Arguments Hierarchy._add_module : simpl never.

Lemma extends_refl (self : ModuleGenerator) : extends self self.
Proof. repeat split. exists []. now rewrite app_nil_r. Qed.

Lemma extends_trans (a b c : ModuleGenerator) : extends a b -> extends b c -> extends a c.
Proof.
  intros (Ha & Hb & x & Hx) (Ha' & Hb' & y & Hy). repeat split; try congruence.
  exists (x ++ y). rewrite Hy, Hx. now rewrite app_assoc.
Qed.

Lemma record_ctx_extends (module : Module) (e : TraceElem) (st : gen_state) :
  extends (st_self st) (st_self (record_ctx module e st)).
Proof. repeat split. simpl. eauto. Qed.

Lemma dispatch_keeps_self (trace : Trace) (st st' : gen_state) (e : TraceElem)
    (inst : Instruction) :
  dispatch_fn_type e trace st = Ok (st', inst) -> st_self st' = st_self st.
Proof.
  unfold dispatch_fn_type, _module_fn_instruction.
  destruct (fn_type e); simpl; try (intro H; now inversion H); try discriminate.
  - destruct (Hierarchy._add_module _ _ _ _ _) as [[? ?]|?]; simpl; [|discriminate].
    intro H; now inversion H.
  - destruct (_module_instruction _ _ _ _) as [[st1 i]|?] eqn:E; simpl; [|discriminate].
    intro H; inversion H; subst. now apply AncestorFacts.module_instruction_shape in E.
Qed.

Lemma step_cases (trace : Trace) (st st' : gen_state) (e : TraceElem)
    (o : option Instruction) :
  schedule_step trace st e = Ok (st', o) ->
  exists module,
    last_item (module_context_list e) = Ok module
    /\ ((preserving (disposition_of (st_self st) module e) = true
         /\ st_self st' = st_self (record_ctx module e st))
        \/ (preserving (disposition_of (st_self st) module e) = false
            /\ st_self st' = st_self st)).
Proof.
  unfold schedule_step.
  destruct (last_item (module_context_list e)) as [module|]; simpl; [|discriminate].
  intro H. exists module. split; [reflexivity|].
  destruct (disposition_of (st_self st) module e); simpl.
  - left. destruct (_module_instruction _ _ _ _) as [[st1 i]|?] eqn:E; simpl in H;
      [|discriminate]. inversion H; subst.
    apply AncestorFacts.module_instruction_shape in E. split; [reflexivity|apply E].
  - left. destruct (_module_instruction _ _ _ _) as [[st1 i]|?] eqn:E; simpl in H;
      [|discriminate]. inversion H; subst.
    apply AncestorFacts.module_instruction_shape in E. split; [reflexivity|apply E].
  - right. inversion H; subst. auto.
  - right. destruct (dispatch_fn_type e trace st) as [[st1 i]|?] eqn:E; simpl in H;
      [|discriminate]. inversion H; subst.
    split; [reflexivity|]. eapply dispatch_keeps_self; eauto.
Qed.

Lemma step_extends (trace : Trace) (st st' : gen_state) (e : TraceElem)
    (o : option Instruction) :
  schedule_step trace st e = Ok (st', o) -> extends (st_self st) (st_self st').
Proof.
  intro H. apply step_cases in H. destruct H as (module & _ & [[_ ->]|[_ ->]]).
  - apply record_ctx_extends.
  - apply extends_refl.
Qed.

Lemma extends_lists (self self' : ModuleGenerator) (e : TraceElem) (module : Module) :
  extends self self' ->
  _parent_in_gen_allowlist self' e = _parent_in_gen_allowlist self e
  /\ _is_module_in_gen_allowlist self' module = _is_module_in_gen_allowlist self module
  /\ _is_module_in_gen_blocklist self' module = _is_module_in_gen_blocklist self module.
Proof.
  intros (Ha & Hb & _).
  unfold _parent_in_gen_allowlist, parent_scan_entries, _is_module_in_gen_allowlist,
    _is_module_in_gen_blocklist.
  rewrite Ha, Hb. auto.
Qed.

Lemma extends_already_gen (self self' : ModuleGenerator) (e : TraceElem) (module : Module) :
  extends self self' ->
  _is_module_already_gen self module e = true ->
  _is_module_already_gen self' module e = true.
Proof.
  intros (_ & _ & added & Hx). rewrite !DedupFacts.already_gen_eq.
  unfold already_gen_first_loop. rewrite Hx, existsb_app. intros ->. reflexivity.
Qed.

Lemma settled_extends (self self' : ModuleGenerator) (e : TraceElem) :
  extends self self' -> settled self e -> settled self' e.
Proof.
  intros Hx Hs module Hl. destruct (extends_lists _ _ e module Hx) as (Hp & Ha & Hb).
  destruct (Hs module Hl) as [Hd|[Hn Hf]].
  - left. eapply extends_already_gen; eauto.
  - right. rewrite Hp, Ha, Hb. auto.
Qed.

Lemma not_preserving_settled (self : ModuleGenerator) (module : Module) (e : TraceElem) :
  preserving (disposition_of self module e) = false ->
  _is_module_already_gen self module e = true
  \/ (_parent_in_gen_allowlist self e = None
      /\ _is_module_in_gen_allowlist self module
         && negb (_is_module_in_gen_blocklist self module) = false).
Proof.
  unfold disposition_of, choose_disposition.
  destruct (_parent_in_gen_allowlist self e);
    destruct (_is_module_already_gen self module e);
    destruct (_is_module_in_gen_allowlist self module
              && negb (_is_module_in_gen_blocklist self module));
    simpl; intro H; try discriminate; auto.
Qed.

Lemma settled_not_preserving (self : ModuleGenerator) (module : Module) (e : TraceElem) :
  last_item (module_context_list e) = Ok module ->
  settled self e ->
  preserving (disposition_of self module e) = false.
Proof.
  intros Hl Hs. destruct (Hs module Hl) as [Hd|[Hn Hf]].
  - now apply DedupFacts.duplicate_not_preserved.
  - unfold disposition_of, choose_disposition. rewrite Hn, Hf. reflexivity.
Qed.

Lemma step_settles (trace : Trace) (st st' : gen_state) (e : TraceElem)
    (o : option Instruction) :
  schedule_step trace st e = Ok (st', o) -> settled (st_self st') e.
Proof.
  intro H. apply step_cases in H.
  destruct H as (module & Hl & [[Hp Hs]|[Hp Hs]]); intros module' Hl';
    rewrite Hl in Hl'; inversion Hl'; subst module'; rewrite Hs.
  - left. eapply DedupFacts.already_gen_recorded with
      (t := {| ctx_addr := st_alloc st; ctx_module := module;
               ctx_input_list := module_input_list e;
               ctx_output := module_output e |}); simpl.
    + apply in_or_app. right. now left.
    + apply Nat.eqb_refl.
    + apply DedupFacts.same_input_refl.
    + reflexivity.
  - now apply not_preserving_settled.
Qed.

Lemma loop_settles (trace : Trace) (elems : list TraceElem) :
  forall st st' acc schedule,
  gen_schedule_loop trace elems st acc = Ok (st', schedule) ->
  extends (st_self st) (st_self st') /\ Forall (settled (st_self st')) elems.
Proof.
  induction elems as [|e rest IH]; intros st st' acc schedule H; simpl in H.
  - inversion H; subst. split; [apply extends_refl|constructor].
  - destruct (schedule_step trace st e) as [[st1 o]|?] eqn:E; simpl in H; [|discriminate].
    assert (H' : exists acc', gen_schedule_loop trace rest st1 acc' = Ok (st', schedule))
      by (destruct o; eauto).
    destruct H' as [acc' H']. apply IH in H'. destruct H' as [Hx Hf].
    split.
    + eapply extends_trans; [eapply step_extends; eauto|exact Hx].
    + constructor; [|exact Hf].
      eapply settled_extends; [exact Hx|]. eapply step_settles; eauto.
Qed.

Lemma loop_settled_keeps_self (trace : Trace) (elems : list TraceElem) :
  forall st st' acc schedule,
  Forall (settled (st_self st)) elems ->
  gen_schedule_loop trace elems st acc = Ok (st', schedule) ->
  st_self st' = st_self st.
Proof.
  induction elems as [|e rest IH]; intros st st' acc schedule Hf H; simpl in H.
  - now inversion H.
  - destruct (schedule_step trace st e) as [[st1 o]|?] eqn:E; simpl in H; [|discriminate].
    inversion Hf as [|? ? He Hrest]; subst.
    assert (Hs : st_self st1 = st_self st).
    { apply step_cases in E. destruct E as (module & Hl & [[Hp _]|[_ Hs]]); [|exact Hs].
      rewrite (settled_not_preserving _ _ _ Hl He) in Hp. discriminate. }
    assert (H' : exists acc', gen_schedule_loop trace rest st1 acc' = Ok (st', schedule))
      by (destruct o; eauto).
    destruct H' as [acc' H']. apply IH in H'; [congruence|]. now rewrite Hs.
Qed.

Lemma gen_model_schedule (self self' : ModuleGenerator) (alloc alloc' : nat)
    (trace : Trace) (m : CodegenModule) :
  gen_model self alloc trace = Ok (self', alloc', m) ->
  exists st' schedule,
    _gen_schedule trace
      {| st_self := self; st_model := MkModule alloc CodegenModule_class [];
         st_alloc := S alloc |} = Ok (st', schedule)
    /\ st_self st' = self'.
Proof.
  unfold gen_model.
  destruct (_gen_schedule trace _) as [[st' schedule]|?]; simpl; [|discriminate].
  destruct (Resolver._gen_constants_parameters schedule trace) as [[? ?]|?]; simpl;
    [|discriminate].
  intro H; inversion H; subst. eauto.
Qed.

(** C7, as the code has it: the tracker is created by [__init__] and
    [gen_model] never resets it.  A call only extends the tracker; after a
    successful call every element of the trace is settled, so a second call
    on the same generator and trace records nothing, leaves the generator as
    the first call left it, and preserves no element: each one is skipped or
    goes through the dispatch on its call kind. *)
Theorem second_invocation_reuses_tracker (self self1 self2 : ModuleGenerator)
    (alloc alloc1 alloc2 : nat) (trace : Trace) (m1 m2 : CodegenModule)
    (H1 : gen_model self alloc trace = Ok (self1, alloc1, m1))
    (H2 : gen_model self1 alloc1 trace = Ok (self2, alloc2, m2)) :
  extends self self1
  /\ self2 = self1
  /\ forall e module,
       In e (trace_elem_list trace) ->
       last_item (module_context_list e) = Ok module ->
       preserving (disposition_of self1 module e) = false.
Proof.
  apply gen_model_schedule in H1. destruct H1 as (st1 & s1 & H1 & <-).
  apply gen_model_schedule in H2. destruct H2 as (st2 & s2 & H2 & <-).
  unfold _gen_schedule in H1, H2.
  apply loop_settles in H1. destruct H1 as [Hx Hf]. simpl in Hx.
  split; [exact Hx|]. split.
  - apply loop_settled_keeps_self in H2; [exact H2|exact Hf].
  - intros e module Hin Hl. apply settled_not_preserving; [exact Hl|].
    rewrite Forall_forall in Hf. now apply Hf.
Qed.

End InvocationFacts_general.

#[local] Existing Instance Examples.torch_example.

Lemma second_invocation_reuses_tracker_witness :
  exists self1 alloc1 m1 alloc2 m2,
    gen_model Examples.default_generator 200 Examples.small_trace = Ok (self1, alloc1, m1)
    /\ gen_model self1 alloc1 Examples.small_trace = Ok (self1, alloc2, m2)
    /\ extends Examples.default_generator self1
    /\ List.length (cm_schedule m1) = 2
    /\ List.length (cm_schedule m2) = 1.
Proof.
  do 5 eexists.
  split; [vm_compute; reflexivity|].
  split; [vm_compute; reflexivity|].
  split; [|split; reflexivity].
  eapply (second_invocation_reuses_tracker Examples.default_generator _ _ 200 _ _
            Examples.small_trace); vm_compute; reflexivity.
Defined.

(** C7, as stated, fails: the second call on the default generator and the
    small trace skips the convolution that the first call recorded, and its
    schedule has one instruction where the first had two. *)
Lemma invocations_independent_counterexample : ~ invocations_independent.
Proof.
  intro H.
  specialize (H Examples.default_generator _ _ 200 _ _ Examples.small_trace _ _
                eq_refl eq_refl).
  vm_compute in H. discriminate H.
Qed.

End InvocationFacts.

(** ** The constant and parameter resolver *)

Module ResolverFacts.
Import Schedule Resolver Generator ResolverSpec ResolverClaims.

Section ResolverFacts_general.
Context {torch : Torch}.

Lemma pyval_eqb_atom_l (a k : pyval) :
  atom a = true -> pyval_eqb a k = true -> k = a.
Proof.
  destruct a; simpl; try discriminate; intros _; destruct k; simpl; try discriminate.
  - reflexivity.
  - intro H. apply Z.eqb_eq in H. now subst.
  - intro H. apply Nat.eqb_eq in H. now subst.
Qed.

Lemma pyval_eqb_atom_r (a k : pyval) :
  atom a = true -> pyval_eqb k a = true -> k = a.
Proof.
  destruct a; simpl; try discriminate; intros _; destruct k; simpl; try discriminate.
  - reflexivity.
  - intro H. apply Z.eqb_eq in H. now subst.
  - intro H. apply Nat.eqb_eq in H. now subst.
Qed.

Lemma pyval_eqb_atom_refl (a : pyval) : atom a = true -> pyval_eqb a a = true.
Proof.
  destruct a; simpl; try discriminate; intros _;
    [reflexivity|apply Z.eqb_refl|apply Nat.eqb_refl].
Qed.

Lemma py_in_atom (a : pyval) (l : list pyval) :
  atom a = true -> (py_in a l = true <-> In a l).
Proof.
  intro Ha. unfold py_in. rewrite existsb_exists. split.
  - intros (x & Hin & Hx). apply pyval_eqb_atom_l in Hx; [now subst|assumption].
  - intro Hin. exists a. split; [assumption|now apply pyval_eqb_atom_refl].
Qed.

Lemma py_in_filter_atom (a : pyval) (f : pyval -> bool) (l : list pyval) :
  atom a = true -> py_in a (filter f l) = py_in a l && f a.
Proof.
  intro Ha. apply eq_true_iff_eq.
  rewrite andb_true_iff, !py_in_atom by assumption.
  rewrite filter_In. tauto.
Qed.

Lemma pydict_mem_cons (k v a : pyval) (d : pydict) :
  pydict_mem ((k, v) :: d) a = pyval_eqb a k || pydict_mem d a.
Proof. unfold pydict_mem. simpl. destruct (pyval_eqb a k); reflexivity. Qed.

Lemma pydict_mem_set_atom (d : pydict) (k v a : pyval) :
  atom a = true ->
  pydict_mem (pydict_set d k v) a = pyval_eqb a k || pydict_mem d a.
Proof.
  intro Ha. induction d as [|[k' v'] d IH]; simpl.
  - rewrite pydict_mem_cons. reflexivity.
  - destruct (pyval_eqb k k') eqn:Ek; rewrite !pydict_mem_cons.
    + destruct (pyval_eqb a k') eqn:Ea; simpl; [now rewrite orb_true_r|].
      destruct (pyval_eqb a k) eqn:Eak; simpl; [|reflexivity].
      apply pyval_eqb_atom_l in Eak; [|assumption]. subst k. congruence.
    + rewrite IH. destruct (pyval_eqb a k'), (pyval_eqb a k); reflexivity.
Qed.

Lemma comprehension_mem (trace : Trace) (keep : pyval -> bool) (a : pyval)
    (l : list pyval) :
  atom a = true ->
  forall acc d,
  index_map_comprehension trace keep l acc = Ok d ->
  pydict_mem d a = pydict_mem acc a || (keep a && py_in a l).
Proof.
  intro Ha. induction l as [|c l IH]; intros acc d H; simpl in H.
  - inversion H; subst. simpl. now rewrite andb_false_r, orb_false_r.
  - unfold py_in; simpl; fold (py_in a l).
    destruct (keep c) eqn:Ek.
    + destruct (index_map_get trace c) as [v|?]; simpl in H; [|discriminate].
      apply IH in H. rewrite H, pydict_mem_set_atom by assumption.
      destruct (pyval_eqb a c) eqn:Eac; simpl.
      * apply pyval_eqb_atom_l in Eac; [|assumption]. subst c. rewrite Ek. simpl.
        now rewrite orb_true_r.
      * reflexivity.
    + apply IH in H. rewrite H.
      destruct (pyval_eqb a c) eqn:Eac; simpl; [|reflexivity].
      apply pyval_eqb_atom_l in Eac; [|assumption]. subst c. rewrite Ek. reflexivity.
Qed.

Lemma materialize_spec (d : pydict) :
  forall d', materialize d = Ok d' -> materialized d d'.
Proof.
  induction d as [|[k v] d IH]; intros d' H; simpl in H.
  - inversion H. constructor.
  - destruct (is_Tensor v) eqn:Et.
    + destruct v; simpl in Et; try discriminate.
      destruct data as [|x [|y data]]; simpl in H; try discriminate.
      destruct (materialize d) as [r|?]; simpl in H; [|discriminate].
      inversion H; subst. constructor. now apply IH.
    + simpl in H. destruct (materialize d) as [r|?]; simpl in H; [|discriminate].
      inversion H; subst. constructor; [assumption|now apply IH].
Qed.

Lemma materialized_keys (d d' : pydict) :
  materialized d d' -> forall a, pydict_mem d' a = pydict_mem d a.
Proof.
  induction 1; intro a; [reflexivity| |]; rewrite !pydict_mem_cons; now rewrite IHmaterialized.
Qed.

Lemma materialized_materialize (d d' : pydict) :
  materialized d d' -> materialize d = Ok d'.
Proof.
  induction 1; simpl; [reflexivity| |].
  - rewrite IHmaterialized. reflexivity.
  - rewrite H, IHmaterialized. reflexivity.
Qed.

Lemma flatten_VList (l : list pyval) : flatten (VList l) = flat_map flatten l.
Proof. simpl. induction l as [|a l IH]; simpl; [reflexivity|]. now rewrite IH. Qed.

Lemma inst_refs_consumed (schedule : list Instruction) (inst : Instruction) (r : pyval) :
  In inst schedule -> In r (inst_refs inst) -> In r (input_index_list schedule).
Proof.
  intros Hi Hr. unfold inst_refs in Hr. unfold input_index_list.
  rewrite !flatten_VList in *. apply in_app_or in Hr. apply in_or_app.
  destruct Hr as [Hr|Hr]; [left|right]; apply in_flat_map in Hr;
    destruct Hr as (x & Hx & Hr); apply in_flat_map; exists x; (split; [|exact Hr]);
    apply in_flat_map; exists inst; auto.
Qed.

Lemma candidates_atom (schedule : list Instruction) (trace : Trace) (a : pyval) :
  atom a = true ->
  py_in a (const_index_list schedule trace)
  = py_in a (input_index_list schedule) && negb (wired schedule trace a).
Proof.
  intro Ha. unfold const_index_list, wired, produced.
  rewrite !py_in_filter_atom by assumption.
  rewrite negb_orb, andb_assoc. reflexivity.
Qed.

Lemma index_map_get_raises (trace : Trace) (c : pyval) (err : pyerror) :
  index_map_get trace c = Raise err -> err = TypeError \/ err = KeyError.
Proof.
  unfold index_map_get. destruct (negb (hashable c)); [intro H; inversion H; auto|].
  destruct (pydict_get (index_map trace) c); [discriminate|intro H; inversion H; auto].
Qed.

Lemma comprehension_raises (trace : Trace) (keep : pyval -> bool) (l : list pyval) :
  forall acc err,
  index_map_comprehension trace keep l acc = Raise err ->
  err = TypeError \/ err = KeyError.
Proof.
  induction l as [|c l IH]; intros acc err H; simpl in H; [discriminate|].
  destruct (keep c); [|eauto].
  destruct (index_map_get trace c) eqn:E; simpl in H; [eauto|].
  inversion H; subst. eapply index_map_get_raises; eauto.
Qed.

Lemma materialize_raises (d : pydict) (err : pyerror) :
  materialize d = Raise err -> err = item_error.
Proof.
  induction d as [|[k v] d IH]; simpl; [discriminate|].
  destruct (is_Tensor v).
  - destruct v as [| | |p a data| | |]; simpl; try (intro H; now inversion H).
    destruct data as [|x [|y data]]; simpl; try (intro H; now inversion H).
    destruct (materialize d); simpl; [discriminate|]. intro H; inversion H; subst. auto.
  - simpl. destruct (materialize d); simpl; [discriminate|].
    intro H; inversion H; subst. auto.
Qed.

Lemma consts_none_key (schedule : list Instruction) (trace : Trace)
    (consts0 consts : pydict) :
  index_map_comprehension trace (fun c => negb (is_Parameter c))
    (const_index_list schedule trace) [] = Ok consts0 ->
  materialized consts0 consts ->
  pydict_mem consts VNone = py_in VNone (const_index_list schedule trace).
Proof.
  intros Hc Hm. rewrite (materialized_keys _ _ Hm).
  rewrite (comprehension_mem _ _ VNone _ eq_refl _ _ Hc). reflexivity.
Qed.

Lemma gen_constants_inv (schedule : list Instruction) (trace : Trace) (r : result (pydict * pydict)) :
  _gen_constants_parameters schedule trace = r ->
  match r with
  | Ok (consts, params) =>
      exists consts0,
        index_map_comprehension trace (fun c => negb (is_Parameter c))
          (const_index_list schedule trace) [] = Ok consts0
        /\ index_map_comprehension trace is_Parameter
             (const_index_list schedule trace) [] = Ok params
        /\ materialized consts0 consts
        /\ py_in VNone (const_index_list schedule trace) = false
  | Raise err =>
      (err = something_went_wrong
       /\ exists consts0 params consts,
            index_map_comprehension trace (fun c => negb (is_Parameter c))
              (const_index_list schedule trace) [] = Ok consts0
            /\ index_map_comprehension trace is_Parameter
                 (const_index_list schedule trace) [] = Ok params
            /\ materialized consts0 consts
            /\ py_in VNone (const_index_list schedule trace) = true)
      \/ err = TypeError \/ err = KeyError \/ err = item_error
  end.
Proof.
  unfold _gen_constants_parameters. intros <-.
  destruct (index_map_comprehension trace (fun c => negb (is_Parameter c)) _ [])
    as [consts0|e1] eqn:E1; simpl.
  2:{ apply comprehension_raises in E1. tauto. }
  destruct (index_map_comprehension trace is_Parameter _ []) as [params|e2] eqn:E2; simpl.
  2:{ apply comprehension_raises in E2. tauto. }
  destruct (materialize consts0) as [consts|e3] eqn:E3; simpl.
  2:{ apply materialize_raises in E3. tauto. }
  apply materialize_spec in E3.
  rewrite (consts_none_key _ _ _ _ E1 E3).
  destruct (py_in VNone (const_index_list schedule trace)) eqn:En; [left|]; eauto 10.
Qed.

Lemma classified_index (schedule : list Instruction) (trace : Trace)
    (consts params : pydict) (r : pyval) :
  atom r = true ->
  _gen_constants_parameters schedule trace = Ok (consts, params) ->
  In r (input_index_list schedule) ->
  pydict_mem consts r || pydict_mem params r = negb (wired schedule trace r)
  /\ pydict_mem consts r && pydict_mem params r = false.
Proof.
  intros Ha H Hin. apply gen_constants_inv in H.
  destruct H as (consts0 & Hc & Hp & Hm & _).
  rewrite (materialized_keys _ _ Hm).
  rewrite (comprehension_mem _ _ r _ Ha _ _ Hc), (comprehension_mem _ _ r _ Ha _ _ Hp).
  simpl. rewrite candidates_atom by assumption.
  apply (py_in_atom r _ Ha) in Hin. rewrite Hin. simpl.
  destruct (is_Parameter r), (wired schedule trace r); auto.
Qed.

(** C1, as the code has it: after a successful [gen_model], every [Index]
    consumed by an instruction of the raw schedule is either wired (a
    top-level input or the output of an instruction of the schedule) and then
    in neither map and left as it is, or not wired and then a key of exactly
    one of [consts] and [params], whose value replaces it in the final
    schedule. *)
Theorem consumed_references_classified (self self' : ModuleGenerator) (alloc alloc' : nat)
    (trace : Trace) (m : CodegenModule)
    (H : gen_model self alloc trace = Ok (self', alloc', m)) :
  exists st raw consts params,
    _gen_schedule trace (fresh_state self alloc) = Ok (st, raw)
    /\ _gen_constants_parameters raw trace = Ok (consts, params)
    /\ cm_schedule m = _apply_consts_params raw consts params
    /\ forall inst i,
         In inst raw ->
         In (VIndex i) (inst_refs inst) ->
         (wired raw trace (VIndex i) = true
          /\ pydict_mem consts (VIndex i) = false
          /\ pydict_mem params (VIndex i) = false
          /\ _solve_consts_params (VIndex i) consts params = VIndex i)
         \/ (wired raw trace (VIndex i) = false
             /\ xorb (pydict_mem consts (VIndex i)) (pydict_mem params (VIndex i)) = true
             /\ exists v,
                  (pydict_get consts (VIndex i) = Some v
                   \/ pydict_get params (VIndex i) = Some v)
                  /\ _solve_consts_params (VIndex i) consts params = v).
Proof.
  unfold gen_model in H.
  destruct (_gen_schedule trace (fresh_state self alloc)) as [[st raw]|?] eqn:Es;
    simpl in H; [|discriminate].
  destruct (_gen_constants_parameters raw trace) as [[consts params]|?] eqn:Ec;
    simpl in H; [|discriminate].
  inversion H; subst. exists st, raw, consts, params.
  split; [reflexivity|]. split; [assumption|]. split; [reflexivity|].
  intros inst i Hi Hr.
  pose proof (inst_refs_consumed _ _ _ Hi Hr) as Hin.
  destruct (classified_index raw trace consts params (VIndex i) eq_refl Ec Hin) as [Hor Hand].
  unfold pydict_mem in *. simpl.
  destruct (wired raw trace (VIndex i)); simpl in Hor; [left|right].
  - apply orb_false_iff in Hor. destruct Hor as [H1 H2].
    destruct (pydict_get consts (VIndex i)); [discriminate|].
    destruct (pydict_get params (VIndex i)); [discriminate|]. auto.
  - split; [reflexivity|].
    destruct (pydict_get consts (VIndex i)) as [v|];
      destruct (pydict_get params (VIndex i)) as [w|]; simpl in *; try discriminate.
    + split; [reflexivity|]. exists v. auto.
    + split; [reflexivity|]. exists w. auto.
Qed.


(** C4, as the code has it, where the exception of [item()] is not the
    generator's own [RuntimeError] with its message:
    [_gen_constants_parameters] raises its own error exactly when both
    comprehensions and the conversion of the tensors succeed and [None] is
    itself one of the candidate references; it succeeds exactly when they
    succeed and [None] is not a candidate, and then every tensor value of
    [consts] has been replaced by its element.  Any other exception that
    leaves it comes from a lookup in the index map or is the exception of
    [item()]. *)
Theorem unresolved_error_iff_none_key (schedule : list Instruction) (trace : Trace)
    (Hitem : item_error <> something_went_wrong) :
  (_gen_constants_parameters schedule trace = Raise something_went_wrong
   <-> (exists consts0 params consts,
          index_map_comprehension trace (fun c => negb (is_Parameter c))
            (const_index_list schedule trace) [] = Ok consts0
          /\ index_map_comprehension trace is_Parameter
               (const_index_list schedule trace) [] = Ok params
          /\ materialized consts0 consts)
       /\ In VNone (const_index_list schedule trace))
  /\ (forall consts params,
        _gen_constants_parameters schedule trace = Ok (consts, params)
        <-> (exists consts0,
               index_map_comprehension trace (fun c => negb (is_Parameter c))
                 (const_index_list schedule trace) [] = Ok consts0
               /\ index_map_comprehension trace is_Parameter
                    (const_index_list schedule trace) [] = Ok params
               /\ materialized consts0 consts)
            /\ ~ In VNone (const_index_list schedule trace))
  /\ (forall err,
        _gen_constants_parameters schedule trace = Raise err ->
        err = something_went_wrong \/ err = TypeError \/ err = KeyError
        \/ err = item_error).
Proof.
  split; [|split].
  - split.
    + intro H. apply gen_constants_inv in H.
      destruct H as [[_ (consts0 & params & consts & Hc & Hp & Hm & Hn)]
                    |[H|[H|H]]]; try discriminate.
      * split; [eauto 10|]. now apply (py_in_atom VNone _ eq_refl).
      * exfalso. apply Hitem. now symmetry.
    + intros [(consts0 & params & consts & Hc & Hp & Hm) Hn].
      unfold _gen_constants_parameters. rewrite Hc. simpl. rewrite Hp. simpl.
      rewrite (materialized_materialize _ _ Hm). simpl.
      rewrite (consts_none_key _ _ _ _ Hc Hm).
      apply (py_in_atom VNone _ eq_refl) in Hn. now rewrite Hn.
  - intros consts params. split.
    + intro H. apply gen_constants_inv in H.
      destruct H as (consts0 & Hc & Hp & Hm & Hn).
      split; [eauto 10|]. intro Hin. apply (py_in_atom VNone _ eq_refl) in Hin. congruence.
    + intros [(consts0 & Hc & Hp & Hm) Hn].
      unfold _gen_constants_parameters. rewrite Hc. simpl. rewrite Hp. simpl.
      rewrite (materialized_materialize _ _ Hm). simpl.
      rewrite (consts_none_key _ _ _ _ Hc Hm).
      destruct (py_in VNone (const_index_list schedule trace)) eqn:E; [|reflexivity].
      exfalso. apply Hn. now apply (py_in_atom VNone _ eq_refl).
  - intros err H. apply gen_constants_inv in H. tauto.
Qed.

End ResolverFacts_general.

#[local] Existing Instance Examples.torch_example.

Lemma consumed_references_classified_witness :
  exists self' alloc' m,
    gen_model Examples.default_generator 200 ResolverExample.mul_trace
    = Ok (self', alloc', m)
    /\ map input_args_list (cm_schedule m) = [[VIndex 0; VNum 5]]
    /\ exists st raw consts params,
         _gen_schedule ResolverExample.mul_trace
           (fresh_state Examples.default_generator 200) = Ok (st, raw)
         /\ _gen_constants_parameters raw ResolverExample.mul_trace = Ok (consts, params)
         /\ cm_schedule m = _apply_consts_params raw consts params.
Proof.
  do 3 eexists. split; [vm_compute; reflexivity|]. split; [reflexivity|].
  destruct (consumed_references_classified Examples.default_generator _ 200 _
              ResolverExample.mul_trace _ eq_refl)
    as (st & raw & consts & params & H1 & H2 & H3 & _).
  exists st, raw, consts, params. auto.
Defined.

(** C1, as stated, fails: in the trace of an in-place call the reference
    [Index 0] consumed by the second instruction is a top-level input and
    also the output of the first instruction, two of the four classes. *)
Lemma references_classified_claim_counterexample : ~ references_classified_claim.
Proof.
  intro H.
  specialize (H Examples.default_generator 200 ResolverExample.inplace_trace _ _ _ _
                eq_refl eq_refl 1 _ 0 eq_refl (or_introl eq_refl)).
  vm_compute in H. discriminate H.
Qed.

(** C3, the code at the failing input: [Index 7] is a free reference whose
    value in the index map is a [Parameter]; the test is made on the
    reference, which is not one, so it goes to [consts], where the parameter
    is replaced by its element, and [params] stays empty. *)
Theorem parameter_value_goes_to_consts :
  exists st raw,
    _gen_schedule ResolverExample.mul_trace
      (fresh_state Examples.default_generator 200) = Ok (st, raw)
    /\ In (VIndex 7) (const_index_list raw ResolverExample.mul_trace)
    /\ pydict_get (index_map ResolverExample.mul_trace) (VIndex 7)
       = Some (VTensor true 700 [5%Z])
    /\ _gen_constants_parameters raw ResolverExample.mul_trace
       = Ok ([(VIndex 7, VNum 5); (VIndex 8, VNone)], []).
Proof.
  do 2 eexists. split; [vm_compute; reflexivity|].
  split; [vm_compute; auto|]. split; vm_compute; reflexivity.
Qed.

(** C4, as stated, fails: [Index 8] is a constant whose value in the index
    map is [None], and the extraction succeeds. *)
Lemma unresolved_iff_none_value_claim_counterexample : ~ unresolved_iff_none_value_claim.
Proof.
  intro H.
  destruct (H [Synth._torch_fn_instruction ResolverExample.mul_elem]
              ResolverExample.mul_trace) as [_ H2].
  assert (Hr : _gen_constants_parameters
                 [Synth._torch_fn_instruction ResolverExample.mul_elem]
                 ResolverExample.mul_trace = Raise something_went_wrong).
  { apply H2. exists (VIndex 8). vm_compute. auto. }
  vm_compute in Hr. discriminate Hr.
Qed.

Lemma unresolved_error_iff_none_key_witness :
  item_error <> something_went_wrong
  /\ _gen_constants_parameters [Synth._torch_fn_instruction ResolverExample.mul_elem]
       ResolverExample.mul_trace <> Raise something_went_wrong.
Proof.
  assert (Hitem : item_error <> something_went_wrong) by (vm_compute; discriminate).
  split; [exact Hitem|].
  intro H.
  destruct (unresolved_error_iff_none_key
              [Synth._torch_fn_instruction ResolverExample.mul_elem]
              ResolverExample.mul_trace Hitem) as [[Hto _] _].
  apply Hto in H. destruct H as [_ Hn]. vm_compute in Hn.
  destruct Hn as [Hn|[Hn|Hn]]; [discriminate Hn|discriminate Hn|exact Hn].
Defined.

End ResolverFacts.

(** ** The hierarchy builder *)

Module HierarchyFacts.
Import Hierarchy HierarchySpec.

Section HierarchyFacts_general.
Context {torch : Torch}.

#[local] Arguments add_module : simpl never.

(** Induction on a module with the property known of all its children. *)
Lemma Module_children_ind (P : Module -> Prop)
    (H : forall i c l, Forall (fun kc => P (snd kc)) l -> P (MkModule i c l)) :
  forall m, P m.
Proof.
  fix IH 1. intros [i c l]. apply H.
  induction l as [|kc l IHl]; constructor; [apply IH|exact IHl].
Qed.

Lemma named_modules_memo_eq (i : nat) (c : pyclass) (children : list (string * Module))
    (memo : list nat) (prefix : string) :
  named_modules_memo (MkModule i c children) memo prefix
  = if existsb (Nat.eqb i) memo then ([], memo)
    else let '(ys, memo') := over_children prefix children (i :: memo) in
         ((prefix, MkModule i c children) :: ys, memo').
Proof.
  simpl. destruct (existsb (Nat.eqb i) memo); [reflexivity|].
  assert (E : forall l m,
             (fix over_children (l : list (string * Module)) (memo : list nat)
                {struct l} : list (string * Module) * list nat :=
                match l with
                | [] => ([], memo)
                | (name, module) :: l' =>
                    let submodule_prefix :=
                      (prefix ++ (if String.eqb prefix "" then "" else ".") ++ name)%string in
                    let '(ys, memo1) := named_modules_memo module memo submodule_prefix in
                    let '(zs, memo2) := over_children l' memo1 in
                    (ys ++ zs, memo2)
                end) l m = over_children prefix l m).
  { induction l as [|[k x] l IH]; intro m; simpl; [reflexivity|].
    destruct (named_modules_memo x m _) as [ys memo1]. now rewrite IH. }
  now rewrite E.
Qed.

Lemma over_children_app (prefix : string) (l1 l2 : list (string * Module)) :
  forall memo,
  over_children prefix (l1 ++ l2) memo
  = let '(ys, memo1) := over_children prefix l1 memo in
    let '(zs, memo2) := over_children prefix l2 memo1 in
    (ys ++ zs, memo2).
Proof.
  induction l1 as [|[k x] l1 IH]; intro memo; simpl.
  - destruct (over_children prefix l2 memo); reflexivity.
  - destruct (named_modules_memo x memo _) as [ys memo1].
    rewrite IH. destruct (over_children prefix l1 memo1) as [zs memo2].
    destruct (over_children prefix l2 memo2) as [ws memo3].
    now rewrite app_assoc.
Qed.

Lemma idents_below_eq (alloc i : nat) (c : pyclass) (children : list (string * Module)) :
  idents_below alloc (MkModule i c children)
  = (i <? alloc) && forallb (fun kc => idents_below alloc (snd kc)) children.
Proof.
  simpl. f_equal. induction children as [|[k x] l IH]; simpl; [reflexivity|].
  now rewrite IH.
Qed.

Lemma wf_module_eq (i : nat) (c : pyclass) (children : list (string * Module)) :
  wf_module (MkModule i c children)
  = distinct_keys (map fst children)
    && forallb (fun kc => valid_key (fst kc) && wf_module (snd kc)) children.
Proof.
  simpl. f_equal. induction children as [|[k x] l IH]; simpl; [reflexivity|].
  now rewrite IH.
Qed.

Lemma memo_below (alloc : nat) :
  forall m, idents_below alloc m = true ->
  forall memo prefix,
  Forall (fun x => x < alloc) memo ->
  Forall (fun x => x < alloc) (snd (named_modules_memo m memo prefix)).
Proof.
  induction m as [i c l IH] using Module_children_ind.
  intros Hb memo prefix Hm. rewrite named_modules_memo_eq.
  destruct (existsb (Nat.eqb i) memo); [exact Hm|].
  rewrite idents_below_eq in Hb. apply andb_prop in Hb. destruct Hb as [Hi Hl].
  apply Nat.ltb_lt in Hi.
  assert (Hc : forall memo0, Forall (fun x => x < alloc) memo0 ->
                 Forall (fun x => x < alloc) (snd (over_children prefix l memo0))).
  { clear Hm memo. induction l as [|[k x] l IHl]; intros memo0 Hm0; simpl; [exact Hm0|].
    simpl in Hl. apply andb_prop in Hl. destruct Hl as [Hx Hl].
    inversion IH as [|? ? IHx IHrest]; subst. simpl in IHx.
    specialize (IHx Hx memo0
                  (prefix ++ (if String.eqb prefix "" then "" else ".") ++ k)%string Hm0).
    destruct (named_modules_memo x memo0 _) as [ys memo1]. simpl in IHx.
    specialize (IHl IHrest Hl memo1 IHx).
    destruct (over_children prefix l memo1) as [zs memo2]. exact IHl. }
  specialize (Hc (i :: memo) (Forall_cons i Hi Hm)).
  destruct (over_children prefix l (i :: memo)) as [ys memo']. exact Hc.
Qed.

Lemma over_children_below (alloc : nat) (prefix : string) (l : list (string * Module)) :
  forallb (fun kc => idents_below alloc (snd kc)) l = true ->
  forall memo,
  Forall (fun x => x < alloc) memo ->
  Forall (fun x => x < alloc) (snd (over_children prefix l memo)).
Proof.
  induction l as [|[k x] l IH]; intros Hl memo Hm; simpl; [exact Hm|].
  simpl in Hl. apply andb_prop in Hl. destruct Hl as [Hx Hl].
  pose proof (memo_below alloc x Hx memo
                (prefix ++ (if String.eqb prefix "" then "" else ".") ++ k)%string Hm) as H1.
  destruct (named_modules_memo x memo _) as [ys memo1]. simpl in H1.
  specialize (IH Hl memo1 H1).
  destruct (over_children prefix l memo1) as [zs memo2]. exact IH.
Qed.

Lemma has_dot_app (a b : string) : has_dot (a ++ b) = has_dot a || has_dot b.
Proof.
  induction a as [|ch a IH]; simpl; [reflexivity|]. rewrite IH. now rewrite orb_assoc.
Qed.

Lemma append_nonempty (a b : string) : a <> ""%string -> (a ++ b)%string <> ""%string.
Proof. destruct a; simpl; [congruence|discriminate]. Qed.

(** Below a module whose own name is [prefix], not empty, every name is
    [prefix] itself or a dotted name. *)
Lemma names_dotted :
  forall m memo prefix n,
  prefix <> ""%string ->
  In n (map fst (fst (named_modules_memo m memo prefix))) ->
  n = prefix \/ has_dot n = true.
Proof.
  induction m as [i c l IH] using Module_children_ind.
  intros memo prefix n Hp. rewrite named_modules_memo_eq.
  destruct (existsb (Nat.eqb i) memo); [simpl; tauto|].
  assert (Hc : forall memo0 n,
             In n (map fst (fst (over_children prefix l memo0))) -> has_dot n = true).
  { clear memo n. induction l as [|[k x] l IHl]; intros memo0 n; simpl; [tauto|].
    inversion IH as [|? ? IHx IHrest]; subst. simpl in IHx.
    assert (Ep : String.eqb prefix "" = false) by (now apply String.eqb_neq).
    rewrite Ep.
    specialize (IHx memo0 (prefix ++ "." ++ k)%string).
    destruct (named_modules_memo x memo0 _) as [ys memo1]. simpl in IHx.
    specialize (IHl IHrest memo1).
    destruct (over_children prefix l memo1) as [zs memo2]. simpl in *.
    rewrite map_app, in_app_iff. intros [Hn|Hn]; [|now apply IHl].
    destruct (IHx n (append_nonempty _ _ Hp) Hn) as [->|Hd]; [|exact Hd].
    rewrite has_dot_app. simpl. now rewrite orb_true_r. }
  specialize (Hc (i :: memo) n).
  destruct (over_children prefix l (i :: memo)) as [ys memo']. simpl in *.
  intros [Hn|Hn]; [left; now symmetry|right; now apply Hc].
Qed.

Lemma yields_itself (m : Module) (memo : list nat) (prefix : string) :
  existsb (Nat.eqb (ident m)) memo = false ->
  exists ys, fst (named_modules_memo m memo prefix) = (prefix, m) :: ys.
Proof.
  destruct m as [i c l]. simpl ident. intro H. rewrite named_modules_memo_eq, H.
  destruct (over_children prefix l (i :: memo)) as [ys memo']. simpl. eauto.
Qed.

Lemma yields_nothing (m : Module) (memo : list nat) (prefix : string) :
  existsb (Nat.eqb (ident m)) memo = true ->
  named_modules_memo m memo prefix = ([], memo).
Proof.
  destruct m as [i c l]. simpl ident. intro H. now rewrite named_modules_memo_eq, H.
Qed.

(** *** The ordered dictionary [_modules] *)

Lemma dict_get_set_same (d : list (string * Module)) (k : string) (v : Module) :
  Dict.get (Dict.set d k v) k = Some v.
Proof.
  induction d as [|[k' v'] d IH]; simpl.
  - now rewrite String.eqb_refl.
  - destruct (String.eqb k k') eqn:E; simpl; [now rewrite String.eqb_refl|].
    now rewrite E.
Qed.

Lemma dict_get_set_other (d : list (string * Module)) (k k' : string) (v : Module) :
  k <> k' -> Dict.get (Dict.set d k v) k' = Dict.get d k'.
Proof.
  intro Hne. induction d as [|[k0 v0] d IH]; simpl.
  - destruct (String.eqb k' k) eqn:E; [|reflexivity].
    apply String.eqb_eq in E. congruence.
  - destruct (String.eqb k k0) eqn:E; simpl.
    + apply String.eqb_eq in E. subst k0.
      destruct (String.eqb k' k) eqn:E'; [|reflexivity].
      apply String.eqb_eq in E'. congruence.
    + destruct (String.eqb k' k0); [reflexivity|exact IH].
Qed.

Lemma dict_set_set (d : list (string * Module)) (k : string) (v v' : Module) :
  Dict.set (Dict.set d k v) k v' = Dict.set d k v'.
Proof.
  induction d as [|[k0 v0] d IH]; simpl.
  - now rewrite String.eqb_refl.
  - destruct (String.eqb k k0) eqn:E; simpl; [now rewrite String.eqb_refl|].
    now rewrite E, IH.
Qed.

(** After [d[k] = v] the entry of [k] follows entries of other keys that
    were in [d] already. *)
Lemma dict_set_split (d : list (string * Module)) (k : string) (v : Module) :
  exists before after rest,
    Dict.set d k v = before ++ (k, v) :: after
    /\ d = before ++ rest
    /\ existsb (String.eqb k) (map fst before) = false.
Proof.
  induction d as [|[k0 v0] d IH]; simpl.
  - exists [], [], []. auto.
  - destruct (String.eqb k k0) eqn:E.
    + exists [], d, ((k0, v0) :: d). auto.
    + destruct IH as (before & after & rest & Hs & Hd & Hn).
      exists ((k0, v0) :: before), after, rest. simpl.
      rewrite Hs, E, Hn. subst d. auto.
Qed.

Lemma dict_get_split (d : list (string * Module)) (k : string) (c : Module) :
  Dict.get d k = Some c ->
  exists before after,
    d = before ++ (k, c) :: after
    /\ existsb (String.eqb k) (map fst before) = false
    /\ forall v, Dict.set d k v = before ++ (k, v) :: after.
Proof.
  induction d as [|[k0 v0] d IH]; simpl; [discriminate|].
  destruct (String.eqb k k0) eqn:E.
  - intro H. inversion H; subst. apply String.eqb_eq in E. subst k0.
    exists [], d. auto.
  - intro H. destruct (IH H) as (before & after & Hd & Hn & Hs).
    exists ((k0, v0) :: before), after. simpl. rewrite E, Hn. subst d.
    repeat split; auto. intro v. now rewrite Hs.
Qed.

(** *** The names that [named_modules] reports *)

Lemma named_modules_eq (m : Module) :
  named_modules m
  = ((""%string, m) :: fst (over_children "" (_modules m) [ident m])).
Proof.
  unfold named_modules. destruct m as [i c l]. rewrite named_modules_memo_eq. simpl.
  destruct (over_children "" l [i]); reflexivity.
Qed.

Lemma child_reported (before after : list (string * Module)) (k : string) (x : Module)
    (memo : list nat) :
  existsb (Nat.eqb (ident x)) (snd (over_children "" before memo)) = false ->
  In k (map fst (fst (over_children "" (before ++ (k, x) :: after) memo))).
Proof.
  intro H. rewrite over_children_app.
  destruct (over_children "" before memo) as [ys memo1]. simpl in H.
  simpl. destruct (yields_itself x memo1 k H) as [zs Hz].
  destruct (named_modules_memo x memo1 k) as [ys2 memo2]. simpl in Hz. subst ys2.
  destruct (over_children "" after memo2) as [ws memo3]. simpl.
  rewrite map_app, in_app_iff. right. simpl. now left.
Qed.

Lemma children_names (l : list (string * Module)) :
  forallb (fun kc => valid_key (fst kc) && wf_module (snd kc)) l = true ->
  forall memo n,
  In n (map fst (fst (over_children "" l memo))) ->
  In n (map fst l) \/ has_dot n = true.
Proof.
  induction l as [|[k x] l IH]; intros Hl memo n; simpl; [tauto|].
  simpl in Hl. apply andb_prop in Hl. destruct Hl as [Hk Hl].
  apply andb_prop in Hk. destruct Hk as [Hk _].
  unfold valid_key in Hk. apply andb_prop in Hk. destruct Hk as [_ Hne].
  apply negb_true_iff in Hne. apply String.eqb_neq in Hne.
  pose proof (names_dotted x memo k n Hne) as Hx.
  destruct (named_modules_memo x memo k) as [ys memo1]. simpl in Hx.
  specialize (IH Hl memo1 n).
  destruct (over_children "" l memo1) as [zs memo2]. simpl in *.
  rewrite map_app, in_app_iff. intros [Hn|Hn].
  - destruct (Hx Hn) as [->|Hd]; auto.
  - destruct (IH Hn); auto.
Qed.

Lemma distinct_keys_app (k : string) (before after : list string) :
  distinct_keys (before ++ k :: after) = true ->
  existsb (String.eqb k) after = false.
Proof.
  induction before as [|b before IH]; simpl; intro H;
    apply andb_prop in H; destruct H as [H1 H2].
  - now apply negb_true_iff in H1.
  - now apply IH.
Qed.

Lemma not_in_keys (k : string) (keys : list string) :
  existsb (String.eqb k) keys = false -> ~ In k keys.
Proof.
  intros H Hin. assert (existsb (String.eqb k) keys = true); [|congruence].
  apply existsb_exists. exists k. split; [assumption|apply String.eqb_refl].
Qed.

(** *** Finding a segment again *)

#[local] Arguments named_modules : simpl never.

Lemma in_names (k : string) (names : list string) :
  existsb (String.eqb k) names = true <-> In k names.
Proof.
  rewrite existsb_exists. split.
  - intros (x & Hin & Hx). apply String.eqb_eq in Hx. now subst.
  - intro Hin. exists k. split; [assumption|apply String.eqb_refl].
Qed.

Lemma below_not_in_memo (alloc : nat) (memo : list nat) :
  Forall (fun x => x < alloc) memo -> existsb (Nat.eqb alloc) memo = false.
Proof.
  induction 1 as [|x memo Hx _ IH]; simpl; [reflexivity|].
  rewrite IH, orb_false_r. apply Nat.eqb_neq. lia.
Qed.

Lemma created_is_found (i : nat) (c : pyclass) (children : list (string * Module))
    (k : string) (x : Module) (alloc : nat) :
  idents_below alloc (MkModule i c children) = true ->
  ident x = alloc ->
  existsb (String.eqb k)
    (map fst (named_modules (MkModule i c (Dict.set children k x)))) = true.
Proof.
  intros Hb Hx. rewrite idents_below_eq in Hb. apply andb_prop in Hb.
  destruct Hb as [Hi Hl]. apply Nat.ltb_lt in Hi.
  destruct (dict_set_split children k x) as (before & after & rest & Hs & Hd & Hn).
  rewrite Hd, forallb_app in Hl. apply andb_prop in Hl. destruct Hl as [Hl _].
  apply in_names. rewrite named_modules_eq. simpl. right. rewrite Hs.
  apply child_reported. rewrite Hx. apply below_not_in_memo.
  apply over_children_below; [exact Hl|]. constructor; [exact Hi|constructor].
Qed.

Lemma found_stays_found (i : nat) (c : pyclass) (children : list (string * Module))
    (k : string) (child child' : Module) :
  wf_module (MkModule i c children) = true ->
  existsb (String.eqb k) (map fst (named_modules (MkModule i c children))) = true ->
  Dict.get children k = Some child ->
  ident child' = ident child ->
  existsb (String.eqb k)
    (map fst (named_modules (MkModule i c (Dict.set children k child')))) = true.
Proof.
  intros Hwf Hin Hget Hid.
  destruct (dict_get_split children k child Hget) as (before & after & Hd & Hn & Hs).
  rewrite wf_module_eq in Hwf. apply andb_prop in Hwf. destruct Hwf as [Hdist Hall].
  rewrite Hd in Hdist, Hall. rewrite map_app in Hdist. simpl in Hdist.
  apply distinct_keys_app in Hdist.
  rewrite forallb_app in Hall. apply andb_prop in Hall. destruct Hall as [Hbefore Hall].
  simpl in Hall. apply andb_prop in Hall. destruct Hall as [Hk Hafter].
  apply andb_prop in Hk. destruct Hk as [Hk _]. unfold valid_key in Hk.
  apply andb_prop in Hk. destruct Hk as [Hdot Hne].
  apply negb_true_iff in Hdot. apply negb_true_iff in Hne. apply String.eqb_neq in Hne.
  apply in_names in Hin. rewrite named_modules_eq in Hin. simpl in Hin.
  destruct Hin as [Hin|Hin]; [congruence|].
  apply in_names. rewrite named_modules_eq. simpl. right. rewrite Hs.
  apply child_reported. rewrite Hid.
  rewrite Hd, over_children_app in Hin.
  pose proof (children_names before Hbefore [i] k) as Hb.
  destruct (over_children "" before [i]) as [ys memo1]. simpl in *.
  destruct (existsb (Nat.eqb (ident child)) memo1) eqn:E; [|reflexivity]. exfalso.
  rewrite (yields_nothing child memo1 k E) in Hin.
  pose proof (children_names after Hafter memo1 k) as Ha.
  destruct (over_children "" after memo1) as [zs memo2]. simpl in *.
  rewrite map_app, in_app_iff in Hin. destruct Hin as [Hin|Hin].
  - destruct (Hb Hin) as [Hkey|Hd']; [|congruence].
    now apply (not_in_keys k (map fst before) Hn).
  - destruct (Ha Hin) as [Hkey|Hd']; [|congruence].
    now apply (not_in_keys k (map fst after) Hdist).
Qed.

Lemma add_module_ok (self : Module) (name : string) (module r : Module) :
  add_module self name (FnModule module) = Ok r ->
  r = MkModule (ident self) (cls self) (Dict.set (_modules self) name module).
Proof.
  unfold add_module.
  repeat match goal with |- context [if ?b then _ else _] => destruct b end;
    intro H; inversion H; reflexivity.
Qed.

Lemma add_module_attachable (self : Module) (name : string) (module : Module) :
  attachable name ->
  add_module self name (FnModule module)
  = Ok (MkModule (ident self) (cls self) (Dict.set (_modules self) name module)).
Proof.
  unfold attachable, valid_key, add_module, hasattr. intros [Hv Ha].
  apply andb_prop in Hv. destruct Hv as [H1 H2].
  apply negb_true_iff in H1. apply negb_true_iff in H2.
  rewrite (Ha self), H1, H2, orb_false_r.
  destruct (Dict.mem (_modules self) name); reflexivity.
Qed.

Lemma child_of_wf (i : nat) (c : pyclass) (children : list (string * Module))
    (k : string) (child : Module) (alloc : nat) :
  Dict.get children k = Some child ->
  (wf_module (MkModule i c children) = true -> wf_module child = true)
  /\ (idents_below alloc (MkModule i c children) = true -> idents_below alloc child = true).
Proof.
  intro Hget.
  destruct (dict_get_split children k child Hget) as (before & after & Hd & _ & _).
  split; intro H.
  - rewrite wf_module_eq in H. apply andb_prop in H. destruct H as [_ H].
    rewrite Hd, forallb_app in H. apply andb_prop in H. destruct H as [_ H].
    simpl in H. apply andb_prop in H. destruct H as [H _].
    apply andb_prop in H. tauto.
  - rewrite idents_below_eq in H. apply andb_prop in H. destruct H as [_ H].
    rewrite Hd, forallb_app in H. apply andb_prop in H. destruct H as [_ H].
    simpl in H. apply andb_prop in H. tauto.
Qed.

(** *** Two attachments under one path *)

Lemma attach_twice (leaf1 leaf2 : Module) (name1 name2 : string)
    (Hname2 : attachable name2) (prefix_list : list string) :
  forall (root : Module) (alloc : nat) (root1 : Module) (alloc1 : nat),
  wf_module root = true ->
  idents_below alloc root = true ->
  _add_module alloc (FnModule leaf1) name1 prefix_list root = Ok (root1, alloc1) ->
  ident root1 = ident root
  /\ alloc <= alloc1 <= alloc + List.length prefix_list
  /\ exists root2 container,
       _add_module alloc1 (FnModule leaf2) name2 prefix_list root1 = Ok (root2, alloc1)
       /\ descend root2 prefix_list = Some container
       /\ Dict.get (_modules container) name2 = Some leaf2
       /\ (name1 <> name2 -> Dict.get (_modules container) name1 = Some leaf1).
Proof.
  induction prefix_list as [|k rest IH]; intros root alloc root1 alloc1 Hwf Hb H; simpl in H.
  - destruct (add_module root name1 (FnModule leaf1)) as [r|] eqn:E; simpl in H;
      [|discriminate].
    inversion H; subst. apply add_module_ok in E. subst root1. simpl.
    split; [reflexivity|]. split; [lia|].
    rewrite add_module_attachable by assumption. simpl.
    eexists. eexists. split; [reflexivity|]. split; [reflexivity|]. simpl.
    split; [apply dict_get_set_same|].
    intro Hne. rewrite dict_get_set_other by congruence. apply dict_get_set_same.
  - destruct root as [i c children]. simpl in H.
    destruct (existsb (String.eqb k) (map fst (named_modules (MkModule i c children))))
      eqn:Efound.
    + destruct (Dict.get children k) as [child|] eqn:Eget; [|discriminate].
      destruct (_add_module alloc (FnModule leaf1) name1 rest child)
        as [[child1 a1]|] eqn:Erec; simpl in H; [|discriminate].
      inversion H; subst. clear H.
      destruct (child_of_wf i c children k child alloc Eget) as [Hwc Hbc].
      destruct (IH child alloc child1 alloc1 (Hwc Hwf) (Hbc Hb) Erec)
        as (Hid & Hle & root2 & container & H2 & Hdesc & Hg2 & Hg1).
      split; [reflexivity|]. split; [simpl; lia|].
      simpl.
      rewrite (found_stays_found i c children k child child1 Hwf Efound Eget Hid).
      rewrite dict_get_set_same, H2. simpl.
      eexists. eexists. split; [reflexivity|]. simpl.
      rewrite dict_get_set_same. eauto.
    + destruct (add_module (MkModule i c children) k
                  (FnModule (MkModule alloc Module_class []))) as [sm1|] eqn:Eadd;
        simpl in H; [|discriminate].
      apply add_module_ok in Eadd. subst sm1. simpl in H.
      destruct (_add_module (S alloc) (FnModule leaf1) name1 rest
                  (MkModule alloc Module_class [])) as [[child1 a1]|] eqn:Erec;
        simpl in H; [|discriminate].
      inversion H; subst. clear H.
      assert (Hfb : idents_below (S alloc) (MkModule alloc Module_class []) = true).
      { simpl. rewrite andb_true_r. apply Nat.ltb_lt. lia. }
      destruct (IH (MkModule alloc Module_class []) (S alloc) child1 alloc1 eq_refl Hfb Erec)
        as (Hid & Hle & root2 & container & H2 & Hdesc & Hg2 & Hg1).
      simpl in Hid.
      split; [reflexivity|]. split; [simpl; lia|].
      simpl. rewrite dict_set_set.
      rewrite (created_is_found i c children k child1 alloc Hb Hid).
      rewrite dict_get_set_same, H2. simpl.
      eexists. eexists. split; [reflexivity|]. simpl.
      rewrite dict_get_set_same. eauto.
Qed.

(** C9, as the code has it: in a well-formed output tree that holds no
    object twice and shares none with the two modules, after a first module
    was attached under a path, attaching a second one under the same path,
    with a name that [add_module] accepts, walks the chain of modules that
    the first attachment left: it succeeds without creating any container
    (the first attachment created one per segment at most), and the module at
    the end of the path holds the second module under its name and still the
    first one under its own. *)
Theorem attach_shares_prefix_chain (root root1 leaf1 leaf2 : Module)
    (name1 name2 : string) (prefix_list : list string) (alloc alloc1 : nat)
    (Hwf : wf_module root = true)
    (Hbelow : idents_below alloc root = true)
    (Hshare : no_shared_object root = true)
    (Hapart1 : apart root leaf1 = true)
    (Hapart2 : apart root leaf2 = true)
    (Hbelow1 : idents_below alloc leaf1 = true)
    (Hbelow2 : idents_below alloc leaf2 = true)
    (Hname2 : attachable name2)
    (Hdistinct : name1 <> name2)
    (H1 : _add_module alloc (FnModule leaf1) name1 prefix_list root = Ok (root1, alloc1)) :
  containers_created alloc alloc1 <= List.length prefix_list
  /\ exists root2 container,
       _add_module alloc1 (FnModule leaf2) name2 prefix_list root1 = Ok (root2, alloc1)
       /\ containers_created alloc1 alloc1 = 0
       /\ descend root2 prefix_list = Some container
       /\ Dict.get (_modules container) name1 = Some leaf1
       /\ Dict.get (_modules container) name2 = Some leaf2.
Proof.
  destruct (attach_twice leaf1 leaf2 name1 name2 Hname2 prefix_list root alloc root1 alloc1
              Hwf Hbelow H1) as (_ & Hle & root2 & container & H2 & Hd & Hg2 & Hg1).
  split; [unfold containers_created; lia|].
  exists root2, container. split; [exact H2|].
  split; [unfold containers_created; lia|]. auto.
Qed.

End HierarchyFacts_general.

#[local] Existing Instance Examples.torch_example.

Lemma attach_shares_prefix_chain_witness :
  exists root1 alloc1 root2 container,
    _add_module 201 (FnModule Examples.conv) "conv" ["features"; "block"]
      HierarchyExample.empty_root = Ok (root1, alloc1)
    /\ containers_created 201 alloc1 = 2
    /\ _add_module alloc1 (FnModule HierarchyExample.relu_module) "relu"
         ["features"; "block"] root1 = Ok (root2, alloc1)
    /\ descend root2 ["features"; "block"] = Some container
    /\ Dict.get (_modules container) "conv" = Some Examples.conv
    /\ Dict.get (_modules container) "relu" = Some HierarchyExample.relu_module.
Proof.
  eexists. eexists.
  assert (H1 : _add_module 201 (FnModule Examples.conv) "conv" ["features"; "block"]
                 HierarchyExample.empty_root
               = Ok (MkModule 200 Generator.CodegenModule_class
                       [("features",
                         MkModule 201 Module_class
                           [("block",
                             MkModule 202 Module_class [("conv", Examples.conv)])])],
                     203)) by (vm_compute; reflexivity).
  assert (Hname : attachable "relu") by (split; [reflexivity|intro self; reflexivity]).
  destruct (attach_shares_prefix_chain HierarchyExample.empty_root _ Examples.conv
              HierarchyExample.relu_module "conv" "relu" ["features"; "block"] 201 _
              eq_refl eq_refl eq_refl eq_refl eq_refl eq_refl eq_refl Hname
              ltac:(discriminate) H1)
    as (_ & root2 & container & H2 & _ & Hd & Hg1 & Hg2).
  exists root2, container.
  split; [exact H1|]. split; [reflexivity|]. auto.
Defined.

(** C9, as stated, fails: [forward] is an attribute of every module, so
    [add_module] refuses it as the name of the second module, and the second
    attachment under the path raises [KeyError]. *)
Lemma shared_prefix_claim_counterexample : ~ shared_prefix_claim.
Proof.
  intro H.
  destruct (H HierarchyExample.empty_root _ Examples.conv HierarchyExample.relu_module
              "conv" "forward" ["features"] 201 _ ltac:(discriminate) eq_refl)
    as (root2 & container & H2 & _).
  vm_compute in H2. discriminate H2.
Qed.

End HierarchyFacts.

(** * Further properties of the generator *)

(** ** Membership in the lists and eligibility *)

Module ListFacts.
Import Classifier ClassifierSpec Tracker Synth Schedule ScheduleSpec TrackerSpec.

Section ListFacts_general.
Context {torch : Torch}.

#[local] Arguments Hierarchy._add_module : simpl never.

(** A module is in a list exactly when some entry matches it: a string entry
    that is a prefix of its qualified class name, or a class entry that is
    in the method resolution order of its class.  The order of the entries
    and entries of other kinds play no role. *)
Theorem gen_list_membership (module : Module) (gen_list : list gen_entry) :
  _is_module_in_gen_list module gen_list = true
  <-> exists gm,
        In gm gen_list
        /\ ((exists s, gm = GStr s /\ startswith (module_class_name module) s = true)
            \/ (exists k, gm = GClass k /\ In k (class_mro (cls module)))).
Proof.
  rewrite ClassifierFacts.is_module_in_gen_list_existsb, existsb_exists. split.
  - intros (gm & Hin & Hm). exists gm. split; [assumption|].
    destruct gm as [s|k|]; simpl in Hm; [left; eauto|right|discriminate].
    exists k. split; [reflexivity|]. unfold isinstance_module in Hm.
    apply existsb_exists in Hm. destruct Hm as (x & Hx & E).
    apply Nat.eqb_eq in E. now subst.
  - intros (gm & Hin & [(s & -> & Hs)|(k & -> & Hk)]); eexists; (split; [eassumption|]); simpl;
      [assumption|].
    unfold isinstance_module. apply existsb_exists. exists k. split; [assumption|].
    apply Nat.eqb_refl.
Qed.

Lemma in_all_but_last {A : Type} (x : A) (l : list A) : In x (all_but_last l) -> In x l.
Proof.
  unfold all_but_last. induction l as [|a l IH]; simpl; [tauto|].
  destruct l as [|b l]; [simpl; tauto|]. simpl. intros [H|H]; [now left|right; now apply IH].
Qed.

Lemma last_item_in {A : Type} (x : A) (l : list A) : last_item l = Ok x -> In x l.
Proof.
  unfold last_item. destruct (rev l) as [|y r] eqn:E; [discriminate|].
  intro H; inversion H; subst. apply in_rev. rewrite E. now left.
Qed.

Lemma preserving_cases (self : ModuleGenerator) (module : Module) (e : TraceElem) :
  preserving (disposition_of self module e) = true ->
  _is_module_already_gen self module e = false
  /\ ((exists parent,
         disposition_of self module e = EmitAncestor parent
         /\ _parent_in_gen_allowlist self e = Some parent)
      \/ (disposition_of self module e = EmitModule
          /\ _parent_in_gen_allowlist self e = None
          /\ eligible self module = true)).
Proof.
  unfold disposition_of, choose_disposition, eligible.
  destruct (_parent_in_gen_allowlist self e) as [p|];
    destruct (_is_module_already_gen self module e);
    destruct (_is_module_in_gen_allowlist self module
              && negb (_is_module_in_gen_blocklist self module));
    simpl; intro H; try discriminate; split; eauto.
Qed.

(** Blocklist precedence: whenever an element is preserved as a module, the
    callable of the instruction is a module of the element's context list
    that matches the allowlist and does not match the blocklist, and the
    element was not already generated. *)
Theorem preserved_callable_is_eligible (trace : Trace) (st st' : gen_state)
    (e : TraceElem) (module : Module) (inst : Instruction)
    (Hl : last_item (module_context_list e) = Ok module)
    (Hp : preserving (disposition_of (st_self st) module e) = true)
    (Hs : schedule_step trace st e = Ok (st', Some inst)) :
  exists m,
    inst_fn inst = FnModule m
    /\ inst_fn_type inst = MODULE
    /\ In m (module_context_list e)
    /\ _is_module_in_gen_allowlist (st_self st) m = true
    /\ _is_module_in_gen_blocklist (st_self st) m = false
    /\ _is_module_already_gen (st_self st) module e = false.
Proof.
  destruct (preserving_cases _ _ _ Hp) as [Hdup [(parent & Hd & Hpar)|(Hd & _ & Hel)]];
    unfold schedule_step in Hs; rewrite Hl in Hs; simpl in Hs; rewrite Hd in Hs;
    destruct (_module_instruction _ _ _ _) as [[st1 i]|?] eqn:E; simpl in Hs;
    try discriminate; inversion Hs; subst;
    apply AncestorFacts.module_instruction_shape in E; destruct E as (Hf & Ht & _).
  - exists parent. unfold _parent_in_gen_allowlist in Hpar.
    rewrite ClassifierFacts.scan_reversed in Hpar. apply find_some in Hpar.
    destruct Hpar as [Hin Hel]. unfold eligible in Hel. apply andb_prop in Hel.
    destruct Hel as [Ha Hb]. apply negb_true_iff in Hb.
    repeat split; auto. now apply in_all_but_last.
  - exists module. unfold eligible in Hel. apply andb_prop in Hel.
    destruct Hel as [Ha Hb]. apply negb_true_iff in Hb.
    repeat split; auto. now apply last_item_in.
Qed.

End ListFacts_general.

#[local] Existing Instance Examples.torch_example.

Lemma preserved_callable_is_eligible_witness :
  exists st' inst,
    schedule_step Examples.small_trace
      (Examples.start_state Examples.default_generator 200) Examples.conv_elem
    = Ok (st', Some inst)
    /\ inst_fn inst = FnModule Examples.conv.
Proof.
  eexists. eexists. split; [vm_compute; reflexivity|].
  destruct (preserved_callable_is_eligible (torch := Examples.torch_example)
              Examples.small_trace
              (Examples.start_state Examples.default_generator 200) _
              Examples.conv_elem Examples.conv _ eq_refl eq_refl eq_refl)
    as (m & Hf & _).
  reflexivity.
Defined.

End ListFacts.

(** ** The tracker of generated contexts *)

Module TrackerMore.
Import Classifier ClassifierSpec Tracker Synth Schedule ScheduleSpec TrackerSpec.

Section TrackerMore_general.
Context {torch : Torch}.

(** The comparison of two input lists looks at their common length only: it
    holds exactly when each list, cut at the length of the other, gives the
    same list. *)
Theorem same_input_common_prefix (l l' : list objaddr) :
  same_input l l' = true
  <-> firstn (List.length l') l = firstn (List.length l) l'.
Proof.
  revert l'. induction l as [|x l IH]; intros [|y l']; simpl; try tauto.
  rewrite andb_true_iff, Nat.eqb_eq, IH. split.
  - intros [-> ->]. reflexivity.
  - intro H. inversion H. auto.
Qed.

Lemma same_input_sym (l l' : list objaddr) : same_input l l' = same_input l' l.
Proof.
  revert l'. induction l as [|x l IH]; intros [|y l']; simpl; try reflexivity.
  now rewrite IH, Nat.eqb_sym.
Qed.

(** A recorded context for the same module and the same output makes an
    element count as already generated as soon as one of the two input lists
    starts with the other; the element is then never preserved. *)
Theorem extended_input_list_is_duplicate (self : ModuleGenerator) (module : Module)
    (e : TraceElem) (t : gen_ctx) (ext : list objaddr)
    (Hin : In t (_generated_allowlist_modules self))
    (Hm : module_is (ctx_module t) module = true)
    (Ho : ctx_output t = module_output e)
    (Hext : module_input_list e = ctx_input_list t ++ ext
            \/ ctx_input_list t = module_input_list e ++ ext) :
  _is_module_already_gen self module e = true
  /\ preserving (disposition_of self module e) = false.
Proof.
  assert (H : _is_module_already_gen self module e = true).
  { apply (DedupFacts.already_gen_recorded self module e t Hin Hm); [|exact Ho].
    destruct Hext as [->| ->].
    - apply DedupFacts.same_input_prefix.
    - rewrite same_input_sym. apply DedupFacts.same_input_prefix. }
  split; [exact H|now apply DedupFacts.duplicate_not_preserved].
Qed.


(** An element whose module output was never recorded is not a duplicate: it
    is preserved exactly when it has an eligible ancestor or its own module
    is eligible.  In particular a second invocation with another output is
    preserved again. *)
Theorem new_output_is_not_duplicate (self : ModuleGenerator) (module : Module)
    (e : TraceElem)
    (Hnew : forall t, In t (_generated_allowlist_modules self) ->
                      ctx_output t <> module_output e) :
  _is_module_already_gen self module e = false
  /\ preserving (disposition_of self module e)
     = match _parent_in_gen_allowlist self e with
       | Some _ => true
       | None => eligible self module
       end.
Proof.
  assert (H : _is_module_already_gen self module e = false).
  { rewrite DedupFacts.already_gen_eq. unfold already_gen_first_loop.
    apply not_true_is_false. intro Hx. apply existsb_exists in Hx.
    destruct Hx as (t & Hin & Hx). apply andb_prop in Hx. destruct Hx as [_ Hx].
    apply Nat.eqb_eq in Hx. now apply (Hnew t Hin). }
  split; [exact H|].
  unfold disposition_of, choose_disposition, eligible. rewrite H.
  destruct (_parent_in_gen_allowlist self e); [reflexivity|].
  simpl. rewrite andb_true_r, andb_false_r.
  destruct (_is_module_in_gen_allowlist self module
            && negb (_is_module_in_gen_blocklist self module)); reflexivity.
Qed.


(** What one iteration does to the generator: a preserving disposition
    appends exactly the context of the element's innermost module, every
    other disposition leaves the generator as it is; the lists are never
    touched. *)
Theorem step_records_only_when_preserving (trace : Trace) (st st' : gen_state)
    (e : TraceElem) (o : option Instruction)
    (Hs : schedule_step trace st e = Ok (st', o)) :
  exists module,
    last_item (module_context_list e) = Ok module
    /\ gen_module_allowlist (st_self st') = gen_module_allowlist (st_self st)
    /\ gen_module_blocklist (st_self st') = gen_module_blocklist (st_self st)
    /\ _generated_allowlist_modules (st_self st')
       = if preserving (disposition_of (st_self st) module e)
         then _generated_allowlist_modules (st_self st)
              ++ [{| ctx_addr := st_alloc st;
                     ctx_module := module;
                     ctx_input_list := module_input_list e;
                     ctx_output := module_output e |}]
         else _generated_allowlist_modules (st_self st).
Proof.
  apply InvocationFacts.step_cases in Hs.
  destruct Hs as (module & Hl & [[Hp ->]|[Hp ->]]); exists module; rewrite Hp; simpl; auto.
Qed.


(** An element is preserved at most once: after a successful iteration on an
    element, no generator that extends the resulting one preserves that
    element again. *)
Theorem preserved_at_most_once (trace : Trace) (st st' : gen_state) (e : TraceElem)
    (o : option Instruction) (self : ModuleGenerator) (module : Module)
    (Hs : schedule_step trace st e = Ok (st', o))
    (Hx : extends (st_self st') self)
    (Hl : last_item (module_context_list e) = Ok module) :
  preserving (disposition_of self module e) = false.
Proof.
  apply InvocationFacts.settled_not_preserving; [exact Hl|].
  eapply InvocationFacts.settled_extends; [exact Hx|].
  eapply InvocationFacts.step_settles; eauto.
Qed.


(** The four dispositions, by what decides them.  The ancestor wins over the
    module itself; an element already generated is skipped when its own
    module is eligible, even under an eligible ancestor; an element already
    generated whose module is not eligible is decomposed into its primitive
    call, also when it was emitted as an ancestor before. *)
Theorem disposition_characterisation (self : ModuleGenerator) (module : Module)
    (e : TraceElem) :
  (forall parent,
     disposition_of self module e = EmitAncestor parent
     <-> _parent_in_gen_allowlist self e = Some parent
         /\ _is_module_already_gen self module e = false)
  /\ (disposition_of self module e = EmitModule
      <-> _parent_in_gen_allowlist self e = None
          /\ eligible self module = true
          /\ _is_module_already_gen self module e = false)
  /\ (disposition_of self module e = Skip
      <-> eligible self module = true
          /\ _is_module_already_gen self module e = true)
  /\ (disposition_of self module e = EmitPrimitive
      <-> eligible self module = false
          /\ (_parent_in_gen_allowlist self e = None
              \/ _is_module_already_gen self module e = true)).
Proof.
  unfold disposition_of, choose_disposition, eligible.
  destruct (_parent_in_gen_allowlist self e) as [p|];
    destruct (_is_module_already_gen self module e);
    destruct (_is_module_in_gen_allowlist self module
              && negb (_is_module_in_gen_blocklist self module));
    simpl; repeat split; intros;
    repeat match goal with
           | H : _ /\ _ |- _ => destruct H
           | H : _ \/ _ |- _ => destruct H
           end;
    try congruence;
    try (repeat split; congruence);
    try (split; [congruence|]; first [left; congruence|right; congruence]);
    first [left; reflexivity|right; reflexivity].
Qed.

End TrackerMore_general.

#[local] Existing Instance Examples.torch_example.

Lemma extended_input_list_is_duplicate_witness :
  _is_module_already_gen
    {| gen_module_allowlist := Generator.default_gen_module_allowlist;
       gen_module_blocklist := Generator.default_gen_module_blocklist;
       _generated_allowlist_modules :=
         [{| ctx_addr := 201; ctx_module := Examples.conv;
             ctx_input_list := [500]; ctx_output := 501 |}] |}
    Examples.conv DedupExample.conv_elem_two_inputs = true.
Proof.
  apply (extended_input_list_is_duplicate _ Examples.conv DedupExample.conv_elem_two_inputs
           {| ctx_addr := 201; ctx_module := Examples.conv;
              ctx_input_list := [500]; ctx_output := 501 |} [503]).
  - simpl. now left.
  - reflexivity.
  - reflexivity.
  - left. reflexivity.
Defined.

Lemma new_output_is_not_duplicate_witness :
  preserving
    (disposition_of
       {| gen_module_allowlist := Generator.default_gen_module_allowlist;
          gen_module_blocklist := Generator.default_gen_module_blocklist;
          _generated_allowlist_modules :=
            [{| ctx_addr := 201; ctx_module := Examples.conv;
                ctx_input_list := [500]; ctx_output := 777 |}] |}
       Examples.conv Examples.conv_elem) = true.
Proof.
  match goal with
  | |- preserving (disposition_of ?self ?m ?e) = true =>
      destruct (new_output_is_not_duplicate self m e) as [_ H]
  end.
  - intros t [<-|[]]. simpl. discriminate.
  - rewrite H. reflexivity.
Defined.

Lemma step_records_only_when_preserving_witness :
  exists st' o,
    schedule_step Examples.small_trace
      (Examples.start_state Examples.default_generator 200) Examples.relu_elem
    = Ok (st', o)
    /\ _generated_allowlist_modules (st_self st') = [].
Proof.
  eexists. eexists. split; [vm_compute; reflexivity|].
  destruct (step_records_only_when_preserving Examples.small_trace
              (Examples.start_state Examples.default_generator 200) _
              Examples.relu_elem _ eq_refl) as (module & _ & _ & _ & H).
  reflexivity.
Defined.

Lemma preserved_at_most_once_witness :
  exists st' o,
    schedule_step Examples.small_trace
      (Examples.start_state Examples.default_generator 200) Examples.conv_elem
    = Ok (st', o)
    /\ preserving (disposition_of (st_self st') Examples.conv Examples.conv_elem) = false.
Proof.
  eexists. eexists. split; [vm_compute; reflexivity|].
  eapply (preserved_at_most_once Examples.small_trace
            (Examples.start_state Examples.default_generator 200) _ Examples.conv_elem).
  - vm_compute. reflexivity.
  - apply InvocationFacts.extends_refl.
  - reflexivity.
Defined.

End TrackerMore.

(** ** The schedule as a whole *)

Module ScheduleMore.
Import Classifier ClassifierSpec Tracker Synth Schedule ScheduleSpec TrackerSpec
  ScheduleMoreSpec.

Section ScheduleMore_general.
Context {torch : Torch}.

#[local] Arguments Hierarchy._add_module : simpl never.

Lemma run_bounds (trace : Trace) (st st' : gen_state) (elems : list TraceElem)
    (emitted : list Instruction) :
  run trace st elems emitted st' ->
  List.length emitted <= List.length elems
  /\ List.length (_generated_allowlist_modules (st_self st'))
     <= List.length (_generated_allowlist_modules (st_self st)) + List.length emitted.
Proof.
  induction 1 as [st|st st' e module rest emitted Hl Hd Hr IH
                 |st st1 st' e module inst rest emitted Hl Hd Hs Hr IH]; simpl.
  - lia.
  - lia.
  - apply InvocationFacts.step_cases in Hs.
    destruct Hs as (m & _ & [[_ E]|[_ E]]); rewrite E in IH; simpl in IH;
      rewrite ?length_app in IH; simpl in IH; lia.
Qed.

(** The schedule has at most one instruction per trace element, and the
    tracker gains at most one context per emitted instruction. *)
Theorem schedule_length_bounds (trace : Trace) (st st' : gen_state)
    (schedule : list Instruction)
    (H : _gen_schedule trace st = Ok (st', schedule)) :
  List.length schedule <= List.length (trace_elem_list trace)
  /\ List.length (_generated_allowlist_modules (st_self st'))
     <= List.length (_generated_allowlist_modules (st_self st)) + List.length schedule.
Proof.
  unfold _gen_schedule in H. apply ScheduleFacts.loop_run in H.
  destruct H as (emitted & Hr & ->). simpl. now apply run_bounds in Hr.
Qed.


(** The loop over a trace cut in two is the loop over the first part followed
    by the loop over the second part, from the state and the schedule the
    first part leaves; an exception in the first part ends the run. *)
Theorem gen_schedule_loop_app (trace : Trace) (elems1 elems2 : list TraceElem) :
  forall (st : gen_state) (acc : list Instruction),
  gen_schedule_loop trace (elems1 ++ elems2) st acc
  = bind (gen_schedule_loop trace elems1 st acc)
      (fun r => gen_schedule_loop trace elems2 (fst r) (snd r)).
Proof.
  induction elems1 as [|e rest IH]; intros st acc; simpl; [reflexivity|].
  destruct (schedule_step trace st e) as [[st1 o]|err]; simpl; [|reflexivity].
  destruct o; apply IH.
Qed.

Lemma dispatch_raises (trace : Trace) (st : gen_state) (e : TraceElem) (err : pyerror) :
  dispatch_fn_type e trace st = Raise err ->
  err = IndexError \/ err = KeyError \/ err = TypeError \/ err = AssertionError.
Proof.
  unfold dispatch_fn_type, _module_fn_instruction.
  destruct (fn_type e); simpl; try discriminate.
  - destruct (Hierarchy._add_module _ _ _ _ _) as [[? ?]|x] eqn:E; simpl; [discriminate|].
    intro H; inversion H; subst. apply ScheduleFacts._add_module_raises in E. tauto.
  - destruct (_module_instruction _ _ _ _) as [[? ?]|x] eqn:E; simpl; [discriminate|].
    intro H; inversion H; subst. apply ScheduleFacts._module_instruction_raises in E. tauto.
  - intro H; inversion H; auto.
Qed.

Lemma step_raises (trace : Trace) (st : gen_state) (e : TraceElem) (err : pyerror) :
  schedule_step trace st e = Raise err ->
  err = IndexError \/ err = KeyError \/ err = TypeError \/ err = AssertionError.
Proof.
  unfold schedule_step.
  destruct (last_item (module_context_list e)) as [module|x] eqn:El; simpl.
  - destruct (disposition_of (st_self st) module e); try discriminate.
    + destruct (_module_instruction _ _ _ _) as [[? ?]|x] eqn:E; simpl; [discriminate|].
      intro H; inversion H; subst. apply ScheduleFacts._module_instruction_raises in E. tauto.
    + destruct (_module_instruction _ _ _ _) as [[? ?]|x] eqn:E; simpl; [discriminate|].
      intro H; inversion H; subst. apply ScheduleFacts._module_instruction_raises in E. tauto.
    + destruct (dispatch_fn_type e trace st) as [[? ?]|x] eqn:E; simpl; [discriminate|].
      intro H; inversion H; subst. eapply dispatch_raises; eauto.
  - intro H; inversion H; subst. apply ScheduleFacts.last_item_raises in El. auto.
Qed.

(** The only exceptions that leave [_gen_schedule] are [IndexError] (an empty
    context list or prefix list), [KeyError] and [TypeError] (from the output
    tree) and the [AssertionError] of the dispatch; and an element with an
    empty context list always raises [IndexError]. *)
Theorem gen_schedule_exceptions (trace : Trace) (st : gen_state) (err : pyerror)
    (H : _gen_schedule trace st = Raise err) :
  (err = IndexError \/ err = KeyError \/ err = TypeError \/ err = AssertionError)
  /\ forall st0 e, module_context_list e = [] ->
                   schedule_step trace st0 e = Raise IndexError.
Proof.
  split.
  - unfold _gen_schedule in H. revert st H. generalize (@nil Instruction) as acc.
    induction (trace_elem_list trace) as [|e rest IH]; intros acc st H; simpl in H;
      [discriminate|].
    destruct (schedule_step trace st e) as [[st1 o]|x] eqn:E; simpl in H.
    + destruct o; eapply IH; eauto.
    + inversion H; subst. eapply step_raises; eauto.
  - intros st0 e He. unfold schedule_step. now rewrite He.
Qed.


(** An element with no eligible ancestor and a module that is not eligible is
    never preserved nor skipped, whatever the tracker holds; when its call
    kind is a function, a method or an attribute, the iteration cannot fail,
    leaves the state as it is, and the instruction carries the element's
    callable, kind, arguments, keyword arguments, output and prefix
    unchanged. *)
Theorem primitive_call_passes_through (trace : Trace) (st : gen_state) (e : TraceElem)
    (module : Module)
    (Hl : last_item (module_context_list e) = Ok module)
    (Hpar : _parent_in_gen_allowlist (st_self st) e = None)
    (Hel : eligible (st_self st) module = false)
    (Hk : fn_type e = FUNCTION \/ fn_type e = METHOD \/ fn_type e = ATTRIBUTE) :
  schedule_step trace st e
  = Ok (st, Some {| output_index := fn_out_index e;
                    inst_fn := fn e;
                    inst_fn_type := fn_type e;
                    input_args_list := fn_args_index e;
                    input_kwargs_dict := fn_kwargs_index e;
                    inst_prefix := prefix e |}).
Proof.
  apply (ScheduleFacts.step_primitive_total trace st e module Hl); [|exact Hk].
  unfold disposition_of, choose_disposition. unfold eligible in Hel.
  rewrite Hpar, Hel. reflexivity.
Qed.


Lemma module_instruction_value (module : pyfn) (e : TraceElem) (trace : Trace)
    (st st' : gen_state) (inst : Instruction) :
  _module_instruction module e trace st = Ok (st', inst) ->
  inst = {| output_index := VIndex (index_from_val trace (module_output e));
            inst_fn := module;
            inst_fn_type := MODULE;
            input_args_list :=
              map (fun i => VIndex (index_from_val trace i)) (module_input_list e);
            input_kwargs_dict := [];
            inst_prefix := prefix e |}
  /\ st_self st' = st_self st.
Proof.
  unfold _module_instruction.
  destruct (last_item (prefix_list e)); simpl; [|discriminate].
  destruct (Hierarchy._add_module _ _ _ _ _) as [[? ?]|?]; simpl; [|discriminate].
  intro H; inversion H; subst; simpl. auto.
Qed.

Lemma dispatch_value (trace : Trace) (st st' : gen_state) (e : TraceElem)
    (inst : Instruction) :
  dispatch_fn_type e trace st = Ok (st', inst) ->
  st_self st' = st_self st
  /\ inst = match fn_type e with
            | SCRIPTMODULE =>
                {| output_index := VIndex (index_from_val trace (module_output e));
                   inst_fn := fn e;
                   inst_fn_type := MODULE;
                   input_args_list :=
                     map (fun i => VIndex (index_from_val trace i)) (module_input_list e);
                   input_kwargs_dict := [];
                   inst_prefix := prefix e |}
            | _ => _torch_fn_instruction e
            end.
Proof.
  unfold dispatch_fn_type, _module_fn_instruction.
  destruct (fn_type e); simpl; try (intro H; inversion H; subst; now auto);
    try discriminate.
  - destruct (Hierarchy._add_module _ _ _ _ _) as [[? ?]|?]; simpl; [|discriminate].
    intro H; inversion H; subst. auto.
  - destruct (_module_instruction _ _ _ _) as [[st1 i]|?] eqn:E; simpl; [|discriminate].
    intro H; inversion H; subst. apply module_instruction_value in E. tauto.
Qed.

Lemma same_contexts_already_gen (self self' : ModuleGenerator) (module : Module)
    (e : TraceElem) :
  same_contexts self self' ->
  _is_module_already_gen self module e = _is_module_already_gen self' module e.
Proof.
  intros (_ & _ & H). rewrite !DedupFacts.already_gen_eq.
  unfold already_gen_first_loop.
  induction H as [|t t' l l' (Hm & Hi & Ho) _ IH]; simpl; [reflexivity|].
  now rewrite IH, Hm, Hi, Ho.
Qed.

Lemma same_contexts_disposition (self self' : ModuleGenerator) (module : Module)
    (e : TraceElem) :
  same_contexts self self' ->
  disposition_of self module e = disposition_of self' module e.
Proof.
  intro H. unfold disposition_of.
  rewrite (same_contexts_already_gen _ _ module e H).
  destruct H as (Ha & Hb & _).
  unfold _parent_in_gen_allowlist, parent_scan_entries, _is_module_in_gen_allowlist,
    _is_module_in_gen_blocklist.
  now rewrite Ha, Hb.
Qed.

Lemma same_contexts_record (module : Module) (e : TraceElem) (st st' : gen_state) :
  same_contexts (st_self st) (st_self st') ->
  same_contexts (st_self (record_ctx module e st)) (st_self (record_ctx module e st')).
Proof.
  intros (Ha & Hb & H). repeat split; simpl; try assumption.
  apply Forall2_app; [assumption|]. constructor; [simpl; auto|constructor].
Qed.

Lemma same_contexts_step (trace : Trace) (a a' b b' : gen_state) (e : TraceElem)
    (o o' : option Instruction) :
  same_contexts (st_self a) (st_self b) ->
  schedule_step trace a e = Ok (a', o) ->
  schedule_step trace b e = Ok (b', o') ->
  o = o' /\ same_contexts (st_self a') (st_self b').
Proof.
  intros Hc Ha Hb. unfold schedule_step in Ha, Hb.
  destruct (last_item (module_context_list e)) as [module|]; simpl in Ha, Hb;
    [|discriminate].
  rewrite <- (same_contexts_disposition _ _ module e Hc) in Hb.
  destruct (disposition_of (st_self a) module e).
  - destruct (_module_instruction _ _ _ (record_ctx module e a)) as [[a1 i]|?] eqn:Ea;
      simpl in Ha; [|discriminate].
    destruct (_module_instruction _ _ _ (record_ctx module e b)) as [[b1 j]|?] eqn:Eb;
      simpl in Hb; [|discriminate].
    inversion Ha; inversion Hb; subst.
    apply module_instruction_value in Ea. apply module_instruction_value in Eb.
    destruct Ea as [-> ->]. destruct Eb as [-> ->].
    split; [reflexivity|now apply same_contexts_record].
  - destruct (_module_instruction _ _ _ (record_ctx module e a)) as [[a1 i]|?] eqn:Ea;
      simpl in Ha; [|discriminate].
    destruct (_module_instruction _ _ _ (record_ctx module e b)) as [[b1 j]|?] eqn:Eb;
      simpl in Hb; [|discriminate].
    inversion Ha; inversion Hb; subst.
    apply module_instruction_value in Ea. apply module_instruction_value in Eb.
    destruct Ea as [-> ->]. destruct Eb as [-> ->].
    split; [reflexivity|now apply same_contexts_record].
  - inversion Ha; inversion Hb; subst. auto.
  - destruct (dispatch_fn_type e trace a) as [[a1 i]|?] eqn:Ea; simpl in Ha; [|discriminate].
    destruct (dispatch_fn_type e trace b) as [[b1 j]|?] eqn:Eb; simpl in Hb; [|discriminate].
    inversion Ha; inversion Hb; subst.
    apply dispatch_value in Ea. apply dispatch_value in Eb.
    destruct Ea as [-> ->]. destruct Eb as [-> ->]. auto.
Qed.

Lemma same_contexts_loop (trace : Trace) (elems : list TraceElem) :
  forall a a' b b' acc sa sb,
  same_contexts (st_self a) (st_self b) ->
  gen_schedule_loop trace elems a acc = Ok (a', sa) ->
  gen_schedule_loop trace elems b acc = Ok (b', sb) ->
  sa = sb /\ same_contexts (st_self a') (st_self b').
Proof.
  induction elems as [|e rest IH]; intros a a' b b' acc sa sb Hc Ha Hb; simpl in Ha, Hb.
  - inversion Ha; inversion Hb; subst. auto.
  - destruct (schedule_step trace a e) as [[a1 o]|?] eqn:Ea; simpl in Ha; [|discriminate].
    destruct (schedule_step trace b e) as [[b1 o']|?] eqn:Eb; simpl in Hb; [|discriminate].
    destruct (same_contexts_step _ _ _ _ _ _ _ _ Hc Ea Eb) as [<- Hc1].
    destruct o; eapply IH; eauto.
Qed.

(** The schedule does not depend on the output tree nor on addresses: two
    runs over the same trace, from states whose generators hold the same
    lists and the same recorded contexts, give the same instructions whenever
    both succeed, and leave generators that again hold the same contexts. *)
Theorem schedule_independent_of_tree (trace : Trace) (a a' b b' : gen_state)
    (sa sb : list Instruction)
    (Hc : same_contexts (st_self a) (st_self b))
    (Ha : _gen_schedule trace a = Ok (a', sa))
    (Hb : _gen_schedule trace b = Ok (b', sb)) :
  sa = sb /\ same_contexts (st_self a') (st_self b').
Proof. unfold _gen_schedule in Ha, Hb. eapply same_contexts_loop; eauto. Qed.

End ScheduleMore_general.

#[local] Existing Instance Examples.torch_example.

Lemma schedule_length_bounds_witness :
  exists st' schedule,
    _gen_schedule Examples.small_trace
      (Examples.start_state Examples.default_generator 200) = Ok (st', schedule)
    /\ List.length schedule <= 2.
Proof.
  eexists. eexists. split; [vm_compute; reflexivity|].
  apply (schedule_length_bounds (torch := Examples.torch_example) Examples.small_trace
           (Examples.start_state Examples.default_generator 200) _ _ eq_refl).
Defined.

Lemma gen_schedule_exceptions_witness :
  _gen_schedule orphan_trace (Examples.start_state Examples.default_generator 200)
  = Raise IndexError
  /\ schedule_step orphan_trace (Examples.start_state Examples.default_generator 200)
       orphan_elem = Raise IndexError.
Proof.
  destruct (gen_schedule_exceptions orphan_trace
              (Examples.start_state Examples.default_generator 200) IndexError eq_refl)
    as [_ H].
  split; [reflexivity|]. apply H. reflexivity.
Defined.

Lemma primitive_call_passes_through_witness :
  exists inst,
    schedule_step Examples.small_trace
      (Examples.start_state Examples.default_generator 200) Examples.relu_elem
    = Ok (Examples.start_state Examples.default_generator 200, Some inst)
    /\ input_args_list inst = [VIndex 1].
Proof.
  eexists. split.
  - apply (primitive_call_passes_through Examples.small_trace
             (Examples.start_state Examples.default_generator 200) Examples.relu_elem
             Examples.net); [reflexivity|reflexivity|reflexivity|left; reflexivity].
  - reflexivity.
Defined.

Lemma schedule_independent_of_tree_witness :
  exists a' b' sa sb,
    _gen_schedule Examples.small_trace
      (Examples.start_state Examples.default_generator 200) = Ok (a', sa)
    /\ _gen_schedule Examples.small_trace
         {| st_self := Examples.default_generator;
            st_model := HierarchyExample.relu_module;
            st_alloc := 900 |} = Ok (b', sb)
    /\ sa = sb.
Proof.
  do 4 eexists. split; [vm_compute; reflexivity|]. split; [vm_compute; reflexivity|].
  eapply (schedule_independent_of_tree Examples.small_trace
            (Examples.start_state Examples.default_generator 200) _
            {| st_self := Examples.default_generator;
               st_model := HierarchyExample.relu_module;
               st_alloc := 900 |}).
  - repeat split. constructor.
  - vm_compute. reflexivity.
  - vm_compute. reflexivity.
Defined.

End ScheduleMore.

(** ** Attaching into the output tree *)

Module HierarchyMore.
Import Hierarchy HierarchySpec HierarchyFacts.

Section HierarchyMore_general.
Context {torch : Torch}.

#[local] Arguments add_module : simpl never.
#[local] Arguments named_modules : simpl never.

Lemma add_module_module (self : Module) (name : string) (module : pyfn) (r : Module) :
  add_module self name module = Ok r -> exists leaf, module = FnModule leaf.
Proof. destruct module as [m|n]; [eauto|discriminate]. Qed.

Lemma attach_lookup (module : pyfn) (module_name : string) (prefix_list : list string) :
  forall (root : Module) (alloc : nat) (root1 : Module) (alloc1 : nat),
  _add_module alloc module module_name prefix_list root = Ok (root1, alloc1) ->
  exists leaf container,
    module = FnModule leaf
    /\ descend root1 prefix_list = Some container
    /\ Dict.get (_modules container) module_name = Some leaf
    /\ ident root1 = ident root
    /\ cls root1 = cls root
    /\ alloc <= alloc1 <= alloc + List.length prefix_list
    /\ forall k, k <> hd module_name prefix_list ->
                 Dict.get (_modules root1) k = Dict.get (_modules root) k.
Proof.
  induction prefix_list as [|p rest IH]; intros root alloc root1 alloc1 H; simpl in H.
  - destruct (add_module root module_name module) as [r|] eqn:E; simpl in H; [|discriminate].
    inversion H; subst. destruct (add_module_module _ _ _ _ E) as [leaf ->].
    apply add_module_ok in E. subst root1. exists leaf. eexists.
    split; [reflexivity|]. split; [reflexivity|]. simpl.
    split; [apply dict_get_set_same|]. repeat split; try lia.
    intros k Hk. apply dict_get_set_other. congruence.
  - destruct (existsb (String.eqb p) (map fst (named_modules root))).
    + destruct (Dict.get (_modules root) p) as [child|] eqn:Eget; [|discriminate].
      destruct (_add_module alloc module module_name rest child) as [[child1 a1]|] eqn:Erec;
        simpl in H; [|discriminate].
      inversion H; subst. clear H.
      destruct (IH _ _ _ _ Erec) as (leaf & container & -> & Hd & Hg & _ & _ & Hle & _).
      exists leaf, container. simpl. rewrite dict_get_set_same.
      repeat split; auto; try lia.
      intros k Hk. apply dict_get_set_other. congruence.
    + destruct (add_module root p (FnModule (MkModule alloc Module_class [])))
        as [sm1|] eqn:Eadd; simpl in H; [|discriminate].
      apply add_module_ok in Eadd. subst sm1. simpl in H.
      destruct (_add_module (S alloc) module module_name rest
                  (MkModule alloc Module_class [])) as [[child1 a1]|] eqn:Erec;
        simpl in H; [|discriminate].
      inversion H; subst. clear H.
      destruct (IH _ _ _ _ Erec) as (leaf & container & -> & Hd & Hg & _ & _ & Hle & _).
      exists leaf, container. simpl. rewrite dict_get_set_same.
      repeat split; auto; try lia.
      intros k Hk. rewrite !dict_get_set_other by congruence. reflexivity.
Qed.

(** Attach, then look up: after a successful [_add_module] the attached
    object is a module and is found under its name at the end of the path,
    followed through [_modules] from the root; the root keeps its identity
    and class. *)
Theorem attached_module_is_reachable (module : pyfn) (module_name : string)
    (prefix_list : list string) (root root1 : Module) (alloc alloc1 : nat)
    (H : _add_module alloc module module_name prefix_list root = Ok (root1, alloc1)) :
  exists leaf container,
    module = FnModule leaf
    /\ descend root1 prefix_list = Some container
    /\ Dict.get (_modules container) module_name = Some leaf
    /\ ident root1 = ident root
    /\ cls root1 = cls root.
Proof.
  destruct (attach_lookup _ _ _ _ _ _ _ H) as (leaf & container & H1 & H2 & H3 & H4 & H5 & _).
  exists leaf, container. auto.
Qed.


(** In a tree that holds no object twice, an attachment touches one child of
    the root only, the one named by the first segment of the path (or by the
    module name when the path is empty): every other child is as before.  It
    allocates at most one container per segment. *)
Theorem attachment_is_local (module : pyfn) (module_name : string)
    (prefix_list : list string) (root root1 : Module) (alloc alloc1 : nat) (k : string)
    (Hshare : no_shared_object root = true)
    (H : _add_module alloc module module_name prefix_list root = Ok (root1, alloc1))
    (Hk : k <> hd module_name prefix_list) :
  Dict.get (_modules root1) k = Dict.get (_modules root) k
  /\ alloc <= alloc1 <= alloc + List.length prefix_list.
Proof.
  destruct (attach_lookup _ _ _ _ _ _ _ H) as (_ & _ & _ & _ & _ & _ & _ & Hle & Hs).
  split; [now apply Hs|exact Hle].
Qed.


(** Into a root without children, with segments and a module name that
    [add_module] accepts (no dot, not empty, an attribute of no module), the
    attachment always succeeds and creates exactly one container per
    segment. *)
Theorem attach_into_childless_root (prefix_list : list string) (root leaf : Module)
    (module_name : string) (alloc : nat)
    (Hroot : _modules root = [])
    (Hsegs : Forall attachable prefix_list)
    (Hname : attachable module_name) :
  exists root1,
    _add_module alloc (FnModule leaf) module_name prefix_list root
    = Ok (root1, alloc + List.length prefix_list).
Proof.
  revert root alloc Hroot.
  induction prefix_list as [|k rest IH]; intros root alloc Hroot; simpl.
  - rewrite add_module_attachable by assumption. simpl.
    rewrite Nat.add_0_r. eauto.
  - inversion Hsegs as [|? ? Hk Hrest]; subst.
    rewrite named_modules_eq, Hroot. simpl.
    assert (Hne : String.eqb k "" = false).
    { destruct Hk as [Hk _]. unfold valid_key in Hk. apply andb_prop in Hk.
      destruct Hk as [_ Hk]. now apply negb_true_iff in Hk. }
    rewrite Hne. simpl.
    rewrite add_module_attachable by assumption. simpl.
    destruct (IH Hrest (MkModule alloc Module_class []) (S alloc) eq_refl) as [child1 Hc].
    rewrite Hc. simpl. rewrite Nat.add_succ_r. eauto.
Qed.


Lemma memo_grows :
  forall m memo prefix x,
  In x memo -> In x (snd (named_modules_memo m memo prefix)).
Proof.
  induction m as [i c l IH] using Module_children_ind.
  intros memo prefix x Hx. rewrite named_modules_memo_eq.
  destruct (existsb (Nat.eqb i) memo); [exact Hx|].
  assert (Hc : forall memo0, In x memo0 -> In x (snd (over_children prefix l memo0))).
  { clear Hx memo. induction l as [|[k y] l IHl]; intros memo0 Hx; simpl; [exact Hx|].
    inversion IH as [|? ? IHy IHrest]; subst. simpl in IHy.
    specialize (IHy memo0
                  (prefix ++ (if String.eqb prefix "" then "" else ".") ++ k)%string x Hx).
    destruct (named_modules_memo y memo0 _) as [ys memo1]. simpl in IHy.
    specialize (IHl IHrest memo1 IHy).
    destruct (over_children prefix l memo1) as [zs memo2]. exact IHl. }
  specialize (Hc (i :: memo) (or_intror Hx)).
  destruct (over_children prefix l (i :: memo)) as [ys memo']. exact Hc.
Qed.

Lemma memo_has_ident (m : Module) (memo : list nat) (prefix : string) :
  existsb (Nat.eqb (ident m)) (snd (named_modules_memo m memo prefix)) = true.
Proof.
  apply existsb_exists. exists (ident m). split; [|apply Nat.eqb_refl].
  destruct (existsb (Nat.eqb (ident m)) memo) eqn:E.
  - rewrite (yields_nothing m memo prefix E). simpl.
    apply existsb_exists in E. destruct E as (x & Hx & E). apply Nat.eqb_eq in E. now subst.
  - destruct m as [i c l]. simpl ident in *. rewrite named_modules_memo_eq, E.
    assert (Hc : forall memo0, In i memo0 -> In i (snd (over_children prefix l memo0))).
    { clear E. induction l as [|[k y] l IHl]; intros memo0 Hx; simpl; [exact Hx|].
      pose proof (memo_grows y memo0
                    (prefix ++ (if String.eqb prefix "" then "" else ".") ++ k)%string
                    i Hx) as Hy.
      destruct (named_modules_memo y memo0 _) as [ys memo1]. simpl in Hy.
      specialize (IHl memo1 Hy).
      destruct (over_children prefix l memo1) as [zs memo2]. exact IHl. }
    specialize (Hc (i :: memo) (or_introl eq_refl)).
    destruct (over_children prefix l (i :: memo)) as [ys memo']. exact Hc.
Qed.

(** A child that is the same object as a child listed before it is not
    reported by [named_modules]; a path through its name does not descend
    into it: the child is replaced by a fresh empty container, and the module
    is attached there. *)
Theorem aliased_child_is_replaced (i : nat) (c : pyclass) (z k module_name : string)
    (x x' leaf : Module) (alloc : nat)
    (Hz : z <> ""%string)
    (Hkz : k <> z)
    (Hk : attachable k)
    (Hname : attachable module_name)
    (Halias : ident x' = ident x) :
  _add_module alloc (FnModule leaf) module_name [k] (MkModule i c [(z, x); (k, x')])
  = Ok (MkModule i c
          [(z, x); (k, MkModule alloc Module_class [(module_name, leaf)])],
        S alloc).
Proof.
  assert (Hdot : has_dot k = false /\ String.eqb k "" = false).
  { destruct Hk as [Hv _]. unfold valid_key in Hv. apply andb_prop in Hv.
    destruct Hv as [H1 H2].
    apply negb_true_iff in H1. apply negb_true_iff in H2. auto. }
  destruct Hdot as [Hdot Hne].
  assert (Hnot : existsb (String.eqb k)
                   (map fst (named_modules (MkModule i c [(z, x); (k, x')]))) = false).
  { apply not_true_is_false. intro Hin. apply in_names in Hin.
    rewrite named_modules_eq in Hin. simpl in Hin.
    destruct Hin as [Hin|Hin]; [apply String.eqb_neq in Hne; congruence|].
    pose proof (names_dotted x [i] z k Hz) as Hx.
    pose proof (memo_has_ident x [i] z) as Hm.
    destruct (named_modules_memo x [i] z) as [ys memo1]. simpl in Hx, Hm.
    rewrite <- Halias in Hm. rewrite (yields_nothing x' memo1 k Hm) in Hin.
    simpl in Hin. rewrite app_nil_r in Hin.
    destruct (Hx Hin) as [E|E]; congruence. }
  simpl. rewrite Hnot. rewrite add_module_attachable by assumption. simpl.
  rewrite add_module_attachable by assumption. simpl.
  assert (Ekz : String.eqb k z = false) by (now apply String.eqb_neq).
  rewrite Ekz, String.eqb_refl. simpl. rewrite Ekz, String.eqb_refl. reflexivity.
Qed.

End HierarchyMore_general.

#[local] Existing Instance Examples.torch_example.

Lemma attached_module_is_reachable_witness :
  exists root1 alloc1 container,
    _add_module 201 (FnModule Examples.conv) "conv" ["features"; "block"]
      HierarchyExample.empty_root = Ok (root1, alloc1)
    /\ descend root1 ["features"; "block"] = Some container
    /\ Dict.get (_modules container) "conv" = Some Examples.conv.
Proof.
  eexists. eexists.
  destruct (attached_module_is_reachable (torch := Examples.torch_example) (FnModule Examples.conv) "conv"
              ["features"; "block"] HierarchyExample.empty_root _ 201 _ eq_refl)
    as (leaf & container & Hl & Hd & Hg & _).
  inversion Hl; subst leaf. exists container. split; [reflexivity|]. auto.
Defined.

Lemma attachment_is_local_witness :
  exists root1 alloc1,
    _add_module 300 (FnModule HierarchyExample.relu_module) "relu" ["head"]
      Examples.net = Ok (root1, alloc1)
    /\ Dict.get (_modules root1) "features" = Some Examples.seq.
Proof.
  eexists. eexists. split; [vm_compute; reflexivity|].
  destruct (attachment_is_local (torch := Examples.torch_example)
              (FnModule HierarchyExample.relu_module) "relu" ["head"]
              Examples.net _ 300 _ "features" eq_refl ltac:(vm_compute; reflexivity)
              ltac:(discriminate)) as [Hs _].
  rewrite Hs. reflexivity.
Defined.

Lemma attach_into_childless_root_witness :
  exists root1,
    _add_module 201 (FnModule Examples.conv) "conv" ["features"; "block"]
      HierarchyExample.empty_root = Ok (root1, 203).
Proof.
  apply (attach_into_childless_root (torch := Examples.torch_example)
           ["features"; "block"] HierarchyExample.empty_root Examples.conv "conv" 201).
  - reflexivity.
  - repeat constructor; intro self; reflexivity.
  - split; [reflexivity|intro self; reflexivity].
Defined.

Lemma aliased_child_is_replaced_witness :
  _add_module 300 (FnModule HierarchyExample.relu_module) "relu" ["second"]
    (MkModule 250 Generator.CodegenModule_class
       [("first", Examples.conv); ("second", Examples.conv)])
  = Ok (MkModule 250 Generator.CodegenModule_class
          [("first", Examples.conv);
           ("second", MkModule 300 Module_class [("relu", HierarchyExample.relu_module)])],
        301).
Proof.
  apply (aliased_child_is_replaced (torch := Examples.torch_example)
           250 Generator.CodegenModule_class "first" "second"
           "relu" Examples.conv Examples.conv HierarchyExample.relu_module 300).
  - discriminate.
  - discriminate.
  - split; [reflexivity|intro self; reflexivity].
  - split; [reflexivity|intro self; reflexivity].
  - reflexivity.
Defined.

End HierarchyMore.

(** ** Instructions and the output tree *)

Module SynthMore.
Import Hierarchy Classifier Tracker Synth Schedule ScheduleSpec TrackerSpec.

Section SynthMore_general.
Context {torch : Torch}.

#[local] Arguments _add_module : simpl never.

(** A module instruction and the output tree agree: when [_module_instruction]
    succeeds, the callable is a module, the prefix list is not empty, and the
    module sits in the output tree under the last name of the prefix list, at
    the end of the path made of the names before it; the generator is left
    as it is. *)
Theorem module_instruction_attaches (module : pyfn) (e : TraceElem) (trace : Trace)
    (st st' : gen_state) (inst : Instruction)
    (H : _module_instruction module e trace st = Ok (st', inst)) :
  exists name leaf container,
    last_item (prefix_list e) = Ok name
    /\ module = FnModule leaf
    /\ inst_fn inst = FnModule leaf
    /\ descend (st_model st') (all_but_last (prefix_list e)) = Some container
    /\ Dict.get (_modules container) name = Some leaf
    /\ st_self st' = st_self st
    /\ st_alloc st <= st_alloc st' <= st_alloc st + List.length (prefix_list e).
Proof.
  unfold _module_instruction in H.
  destruct (last_item (prefix_list e)) as [name|] eqn:El; simpl in H; [|discriminate].
  destruct (_add_module _ _ _ _ _) as [[root1 alloc1]|] eqn:E; simpl in H; [|discriminate].
  inversion H; subst; simpl. clear H.
  destruct (HierarchyMore.attach_lookup _ _ _ _ _ _ _ E)
    as (leaf & container & -> & Hd & Hg & _ & _ & Hle & _).
  exists name, leaf, container. repeat split; auto; try lia.
  assert (List.length (all_but_last (prefix_list e)) <= List.length (prefix_list e)).
  { unfold all_but_last. generalize (prefix_list e) as l.
    induction l as [|a [|b l] IH]; simpl in *; lia. }
  lia.
Qed.


(** A module called through a function wrapper: the instruction is the plain
    call (the element's own arguments, keyword arguments, output and call
    kind), and the called module is attached under [module_fn_name] at the
    end of the whole prefix list; nothing is recorded in the tracker. *)
Theorem module_fn_instruction_attaches (e : TraceElem) (st st' : gen_state)
    (inst : Instruction)
    (H : _module_fn_instruction e st = Ok (st', inst)) :
  inst = _torch_fn_instruction e
  /\ st_self st' = st_self st
  /\ exists leaf container,
       fn e = FnModule leaf
       /\ descend (st_model st') (prefix_list e) = Some container
       /\ Dict.get (_modules container) (module_fn_name e) = Some leaf.
Proof.
  unfold _module_fn_instruction in H.
  destruct (_add_module _ _ _ _ _) as [[root1 alloc1]|] eqn:E; simpl in H; [|discriminate].
  inversion H; subst; simpl. clear H.
  destruct (HierarchyMore.attach_lookup _ _ _ _ _ _ _ E)
    as (leaf & container & Hf & Hd & Hg & _).
  repeat split. eauto.
Qed.


(** A scripted module that is not preserved goes through the module
    instruction all the same: the kind of the instruction is [MODULE], not
    the element's, its arguments are the references of the element's
    [module_input_list] and its output that of [module_output], the element's
    own arguments are dropped, and no context is recorded, so a second
    identical call is emitted again. *)
Theorem script_module_instruction (trace : Trace) (st st' : gen_state) (e : TraceElem)
    (module : Module) (inst : Instruction)
    (Hl : last_item (module_context_list e) = Ok module)
    (Hd : disposition_of (st_self st) module e = EmitPrimitive)
    (Hk : fn_type e = SCRIPTMODULE)
    (Hs : schedule_step trace st e = Ok (st', Some inst)) :
  inst = {| output_index := VIndex (index_from_val trace (module_output e));
            inst_fn := fn e;
            inst_fn_type := MODULE;
            input_args_list :=
              map (fun i => VIndex (index_from_val trace i)) (module_input_list e);
            input_kwargs_dict := [];
            inst_prefix := prefix e |}
  /\ st_self st' = st_self st
  /\ disposition_of (st_self st') module e = EmitPrimitive.
Proof.
  unfold schedule_step in Hs. rewrite Hl in Hs. simpl in Hs. rewrite Hd in Hs.
  destruct (dispatch_fn_type e trace st) as [[st1 i]|] eqn:E; simpl in Hs; [|discriminate].
  inversion Hs; subst. apply ScheduleMore.dispatch_value in E.
  rewrite Hk in E. destruct E as [E1 E2]. rewrite E1. auto.
Qed.

End SynthMore_general.

#[local] Existing Instance Examples.torch_example.

Lemma module_instruction_attaches_witness :
  exists st' inst container,
    _module_instruction (FnModule Examples.conv) Examples.conv_elem Examples.small_trace
      (Examples.start_state Examples.default_generator 200) = Ok (st', inst)
    /\ descend (st_model st') ["features"] = Some container
    /\ Dict.get (_modules container) "0" = Some Examples.conv.
Proof.
  eexists. eexists.
  destruct (module_instruction_attaches (torch := Examples.torch_example) (FnModule Examples.conv) Examples.conv_elem
              Examples.small_trace (Examples.start_state Examples.default_generator 200)
              _ _ eq_refl)
    as (name & leaf & container & Hn & Hl & _ & Hd & Hg & _).
  inversion Hn; subst name. inversion Hl; subst leaf.
  exists container. split; [reflexivity|]. auto.
Defined.

Lemma module_fn_instruction_attaches_witness :
  exists st' inst container,
    _module_fn_instruction
      {| module_context_list := [Examples.net];
         module_input_list := [500];
         module_output := 501;
         prefix_list := ["act"];
         prefix := "act";
         fn := FnModule HierarchyExample.relu_module;
         fn_type := MODULE;
         module_fn_name := "relu";
         fn_args_index := [VIndex 0];
         fn_kwargs_index := [];
         fn_out_index := VIndex 1 |}
      (Examples.start_state Examples.default_generator 200) = Ok (st', inst)
    /\ input_args_list inst = [VIndex 0]
    /\ descend (st_model st') ["act"] = Some container
    /\ Dict.get (_modules container) "relu" = Some HierarchyExample.relu_module.
Proof.
  eexists. eexists.
  match goal with
  | |- exists c, _module_fn_instruction ?e ?st = _ /\ _ =>
      destruct (module_fn_instruction_attaches (torch := Examples.torch_example) e st _ _ eq_refl)
        as (Hi & _ & leaf & container & Hl & Hd & Hg)
  end.
  simpl in Hl. inversion Hl; subst leaf.
  exists container. split; [reflexivity|]. split; [reflexivity|]. auto.
Defined.

Lemma script_module_instruction_witness :
  exists st' inst,
    schedule_step Examples.small_trace
      (Examples.start_state Examples.default_generator 200)
      {| module_context_list := [Examples.net];
         module_input_list := [500];
         module_output := 501;
         prefix_list := ["scripted"];
         prefix := "scripted";
         fn := FnModule HierarchyExample.relu_module;
         fn_type := SCRIPTMODULE;
         module_fn_name := "";
         fn_args_index := [VIndex 5; VIndex 6];
         fn_kwargs_index := [];
         fn_out_index := VIndex 9 |} = Ok (st', Some inst)
    /\ input_args_list inst = [VIndex 0]
    /\ output_index inst = VIndex 1
    /\ inst_fn_type inst = MODULE.
Proof.
  eexists. eexists. split; [vm_compute; reflexivity|].
  match goal with
  | |- input_args_list ?i = _ /\ _ =>
      destruct (script_module_instruction (torch := Examples.torch_example) Examples.small_trace
                  (Examples.start_state Examples.default_generator 200) _
                  {| module_context_list := [Examples.net];
                     module_input_list := [500];
                     module_output := 501;
                     prefix_list := ["scripted"];
                     prefix := "scripted";
                     fn := FnModule HierarchyExample.relu_module;
                     fn_type := SCRIPTMODULE;
                     module_fn_name := "";
                     fn_args_index := [VIndex 5; VIndex 6];
                     fn_kwargs_index := [];
                     fn_out_index := VIndex 9 |}
                  Examples.net i eq_refl eq_refl eq_refl eq_refl) as (Hi & _)
  end.
  repeat split; reflexivity.
Defined.

End SynthMore.

(** ** Resolution of constants and parameters *)

Module ResolverMore.
Import Schedule Resolver Generator ResolverSpec ResolverFacts ResolverMoreSpec.

Section ResolverMore_general.
Context {torch : Torch}.

(** [_apply_consts_params] rewrites arguments only: the instructions keep
    their number and order, their outputs, callables, kinds and prefixes,
    the number of their positional arguments and the names of their keyword
    arguments. *)
Theorem apply_keeps_wiring (schedule : list Instruction) (consts params : pydict) :
  let schedule' := _apply_consts_params schedule consts params in
  map output_index schedule' = map output_index schedule
  /\ map inst_fn schedule' = map inst_fn schedule
  /\ map inst_fn_type schedule' = map inst_fn_type schedule
  /\ map inst_prefix schedule' = map inst_prefix schedule
  /\ map (fun i => List.length (input_args_list i)) schedule'
     = map (fun i => List.length (input_args_list i)) schedule
  /\ map (fun i => map fst (input_kwargs_dict i)) schedule'
     = map (fun i => map fst (input_kwargs_dict i)) schedule.
Proof.
  unfold _apply_consts_params. simpl. rewrite !map_map. simpl.
  repeat split; try reflexivity; apply map_ext; intro inst.
  - apply length_map.
  - unfold solve_kwargs. rewrite map_map. reflexivity.
Qed.

Lemma pyval_nested_ind (P : pyval -> Prop)
    (HNone : P VNone)
    (HNum : forall z, P (VNum z))
    (HIndex : forall i, P (VIndex i))
    (HTensor : forall p a d, P (VTensor p a d))
    (HList : forall l, Forall P l -> P (VList l))
    (HTuple : forall l, Forall P l -> P (VTuple l))
    (HDict : forall l, Forall (fun kv => P (snd kv)) l -> P (VDict l)) :
  forall v, P v.
Proof.
  fix IH 1.
  intros [|z|i|p a d|l|l|l];
    [exact HNone|apply HNum|apply HIndex|apply HTensor| | | ].
  - apply HList. induction l as [|a l IHl]; constructor; [apply IH|exact IHl].
  - apply HTuple. induction l as [|a l IHl]; constructor; [apply IH|exact IHl].
  - apply HDict. induction l as [|a l IHl]; constructor; [apply IH|exact IHl].
Qed.

Lemma solve_untouched (consts params : pydict) :
  forall arg,
  (forall i, In i (index_leaves arg) ->
             pydict_get consts (VIndex i) = None /\ pydict_get params (VIndex i) = None) ->
  _solve_consts_params arg consts params = arg.
Proof.
  induction arg as [| | | |l IH|l IH|l IH] using pyval_nested_ind; intro H;
    try reflexivity.
  - simpl. destruct (H i (or_introl eq_refl)) as [-> ->]. reflexivity.
  - simpl. f_equal. induction l as [|a l IHl]; simpl; [reflexivity|].
    inversion IH as [|? ? Ha Hl]; subst. rewrite Ha, IHl; auto.
    + intros i Hi. apply H. simpl. apply in_or_app. now right.
    + intros i Hi. apply H. simpl. apply in_or_app. now left.
  - simpl. f_equal. induction l as [|a l IHl]; simpl; [reflexivity|].
    inversion IH as [|? ? Ha Hl]; subst. rewrite Ha, IHl; auto.
    + intros i Hi. apply H. simpl. apply in_or_app. now right.
    + intros i Hi. apply H. simpl. apply in_or_app. now left.
  - simpl. f_equal. induction l as [|[k a] l IHl]; simpl; [reflexivity|].
    inversion IH as [|? ? Ha Hl]; subst. simpl in Ha. rewrite Ha, IHl; auto.
    + intros i Hi. apply H. simpl. apply in_or_app. now right.
    + intros i Hi. apply H. simpl. apply in_or_app. now left.
Qed.

(** References that are a key of neither map are left untouched, at any
    depth: an argument structure none of whose [Index] objects is a key of
    [consts] or [params] comes out of [_solve_consts_params] unchanged. *)
Theorem unresolved_references_untouched (arg : pyval) (consts params : pydict)
    (H : forall i, In i (index_leaves arg) ->
                   pydict_get consts (VIndex i) = None
                   /\ pydict_get params (VIndex i) = None) :
  _solve_consts_params arg consts params = arg.
Proof. now apply solve_untouched. Qed.


Lemma pydict_get_set_atom (d : pydict) (k v a : pyval) :
  atom a = true ->
  pydict_get (pydict_set d k v) a = if pyval_eqb a k then Some v else pydict_get d a.
Proof.
  intro Ha. induction d as [|[k' v'] d IH]; simpl; [reflexivity|].
  destruct (pyval_eqb k k') eqn:Ek; simpl.
  - destruct (pyval_eqb a k') eqn:Ea.
    + apply pyval_eqb_atom_l in Ea; [|assumption]. subst k'.
      apply pyval_eqb_atom_r in Ek; [|assumption]. subst k.
      now rewrite pyval_eqb_atom_refl.
    + destruct (pyval_eqb a k) eqn:Eak; [|reflexivity].
      apply pyval_eqb_atom_l in Eak; [|assumption]. subst k. congruence.
  - destruct (pyval_eqb a k') eqn:Ea; [|exact IH].
    destruct (pyval_eqb a k) eqn:Eak; [|reflexivity].
    apply pyval_eqb_atom_l in Eak; [|assumption]. subst k.
    apply pyval_eqb_atom_l in Ea; [|assumption]. subst k'.
    rewrite pyval_eqb_atom_refl in Ek by assumption. discriminate.
Qed.

Lemma comprehension_get (trace : Trace) (keep : pyval -> bool) (a : pyval)
    (l : list pyval) :
  atom a = true ->
  forall acc d,
  index_map_comprehension trace keep l acc = Ok d ->
  if keep a && py_in a l
  then exists v, index_map_get trace a = Ok v /\ pydict_get d a = Some v
  else pydict_get d a = pydict_get acc a.
Proof.
  intro Ha. induction l as [|c l IH]; intros acc d H; simpl in H.
  - inversion H; subst. now rewrite andb_false_r.
  - unfold py_in; simpl; fold (py_in a l).
    destruct (keep c) eqn:Ek.
    + destruct (index_map_get trace c) as [v|?] eqn:Eg; simpl in H; [|discriminate].
      specialize (IH _ _ H).
      destruct (keep a && py_in a l) eqn:E.
      * apply andb_prop in E. destruct E as [E1 E2].
        rewrite E1, E2, orb_true_r. exact IH.
      * rewrite IH, pydict_get_set_atom by assumption.
        destruct (pyval_eqb a c) eqn:Eac; simpl.
        -- apply pyval_eqb_atom_l in Eac; [|assumption]. subst c. rewrite Ek. simpl. eauto.
        -- destruct (keep a); simpl in *; [now rewrite E|reflexivity].
    + specialize (IH _ _ H).
      destruct (pyval_eqb a c) eqn:Eac; simpl.
      * apply pyval_eqb_atom_l in Eac; [|assumption]. subst c. rewrite Ek in *. exact IH.
      * exact IH.
Qed.

Lemma materialized_get (d d' : pydict) (a : pyval) :
  materialized d d' ->
  forall v, pydict_get d a = Some v -> pydict_get d' a = Some (scalar_of v).
Proof.
  induction 1 as [|k p ad x d d' Hm IH|k w d d' Hw Hm IH]; intros v Hg; simpl in *.
  - discriminate.
  - destruct (pyval_eqb a k); [inversion Hg; reflexivity|now apply IH].
  - destruct (pyval_eqb a k); [|now apply IH].
    inversion Hg; subst. f_equal. destruct v; try reflexivity. discriminate.
Qed.

(** Scalar constants are materialised: when the resolution succeeds, a free
    [Index] (consumed, neither a top-level input nor an output) whose value
    in the index map is [v] is a key of [consts], with the element of [v]
    when [v] is a one-element tensor and with [v] itself otherwise, and that
    value replaces the reference in the arguments. *)
Theorem free_index_is_materialized (schedule : list Instruction) (trace : Trace)
    (consts params : pydict) (i : nat) (v : pyval)
    (H : _gen_constants_parameters schedule trace = Ok (consts, params))
    (Hin : In (VIndex i) (input_index_list schedule))
    (Hfree : wired schedule trace (VIndex i) = false)
    (Hv : pydict_get (index_map trace) (VIndex i) = Some v) :
  pydict_get consts (VIndex i) = Some (scalar_of v)
  /\ _solve_consts_params (VIndex i) consts params = scalar_of v.
Proof.
  apply gen_constants_inv in H. destruct H as (consts0 & Hc & _ & Hm & _).
  pose proof (comprehension_get trace _ (VIndex i) _ eq_refl _ _ Hc) as Hg.
  rewrite candidates_atom in Hg by reflexivity.
  apply (py_in_atom (VIndex i) _ eq_refl) in Hin. rewrite Hin, Hfree in Hg. simpl in Hg.
  destruct Hg as (w & Hw & Hg). unfold index_map_get in Hw. simpl in Hw.
  rewrite Hv in Hw. inversion Hw; subst w.
  pose proof (materialized_get _ _ (VIndex i) Hm v Hg) as Hg'.
  split; [exact Hg'|]. simpl. simpl in Hg'. now rewrite Hg'.
Qed.


Lemma comprehension_raise_at (trace : Trace) (keep : pyval -> bool) (l : list pyval) :
  forall acc err,
  index_map_comprehension trace keep l acc = Raise err ->
  exists c, In c l /\ keep c = true /\ index_map_get trace c = Raise err.
Proof.
  induction l as [|c l IH]; intros acc err H; simpl in H; [discriminate|].
  destruct (keep c) eqn:Ek.
  - destruct (index_map_get trace c) as [v|x] eqn:Eg; simpl in H.
    + destruct (IH _ _ H) as (c' & Hin & Hk & Hg). exists c'. simpl. auto.
    + inversion H; subst. exists c. simpl. auto.
  - destruct (IH _ _ H) as (c' & Hin & Hk & Hg). exists c'. simpl. auto.
Qed.

Lemma comprehension_ok_all (trace : Trace) (keep : pyval -> bool) (l : list pyval) :
  forall acc d,
  index_map_comprehension trace keep l acc = Ok d ->
  forall c, In c l -> keep c = true -> exists v, index_map_get trace c = Ok v.
Proof.
  induction l as [|c l IH]; intros acc d H c' Hin Hk; simpl in H; [destruct Hin|].
  destruct (keep c) eqn:Ek.
  - destruct (index_map_get trace c) as [v|x] eqn:Eg; simpl in H; [|discriminate].
    destruct Hin as [<-|Hin]; [eauto|]. eapply IH; eauto.
  - destruct Hin as [<-|Hin]; [congruence|]. eapply IH; eauto.
Qed.

Lemma comprehension_total (trace : Trace) (keep : pyval -> bool) (l : list pyval) :
  (forall c, In c l -> exists v, index_map_get trace c = Ok v) ->
  forall acc, exists d, index_map_comprehension trace keep l acc = Ok d.
Proof.
  induction l as [|c l IH]; intros Hall acc; simpl; [eauto|].
  destruct (keep c).
  - destruct (Hall c (or_introl eq_refl)) as [v ->]. simpl.
    apply IH. intros c' Hc'. apply Hall. now right.
  - apply IH. intros c' Hc'. apply Hall. now right.
Qed.

(** A free reference that the index map does not know makes the resolution
    raise [KeyError], as long as every candidate can be a dictionary key. *)
Theorem missing_reference_raises_key_error (schedule : list Instruction) (trace : Trace)
    (c : pyval)
    (Hhash : forallb hashable (const_index_list schedule trace) = true)
    (Hc : In c (const_index_list schedule trace))
    (Hmiss : pydict_get (index_map trace) c = None) :
  _gen_constants_parameters schedule trace = Raise KeyError.
Proof.
  assert (Hget : forall x err, In x (const_index_list schedule trace) ->
                   index_map_get trace x = Raise err -> err = KeyError).
  { intros x err Hx. unfold index_map_get.
    rewrite forallb_forall in Hhash. rewrite (Hhash x Hx). simpl.
    destruct (pydict_get (index_map trace) x); [discriminate|]. intro E; now inversion E. }
  assert (Hcm : forall v, index_map_get trace c <> Ok v).
  { intro v. unfold index_map_get. rewrite forallb_forall in Hhash.
    rewrite (Hhash c Hc), Hmiss. simpl. discriminate. }
  unfold _gen_constants_parameters.
  destruct (index_map_comprehension trace (fun c => negb (is_Parameter c)) _ [])
    as [consts0|e1] eqn:E1; simpl.
  - destruct (index_map_comprehension trace is_Parameter _ []) as [params|e2] eqn:E2; simpl.
    + exfalso. destruct (is_Parameter c) eqn:Ep.
      * destruct (comprehension_ok_all _ _ _ _ _ E2 c Hc Ep) as [v Hv]. now apply (Hcm v).
      * destruct (comprehension_ok_all _ _ _ _ _ E1 c Hc) as [v Hv]; [now rewrite Ep|].
        now apply (Hcm v).
    + apply comprehension_raise_at in E2. destruct E2 as (x & Hx & _ & Hg).
      now rewrite (Hget x e2 Hx Hg).
  - apply comprehension_raise_at in E1. destruct E1 as (x & Hx & _ & Hg).
    now rewrite (Hget x e1 Hx Hg).
Qed.


Lemma materialize_non_scalar (d : pydict) (k v : pyval) :
  In (k, v) d -> non_scalar_tensor v = true -> materialize d = Raise item_error.
Proof.
  intros Hin Hv. destruct (materialize d) as [d'|err] eqn:E.
  - exfalso. apply materialize_spec in E. clear -Hin Hv E.
    induction E as [|k0 p a x d d' Hm IH|k0 w d d' Hw Hm IH]; simpl in Hin.
    + exact Hin.
    + destruct Hin as [Heq|Hin]; [inversion Heq; subst; discriminate|auto].
    + destruct Hin as [Heq|Hin]; [|auto]. inversion Heq; subst.
      destruct v; simpl in *; discriminate.
  - apply materialize_raises in E. now subst.
Qed.

Lemma pydict_get_in (d : pydict) (a v : pyval) :
  pydict_get d a = Some v -> exists k, In (k, v) d.
Proof.
  induction d as [|[k w] d IH]; simpl; [discriminate|].
  destruct (pyval_eqb a k).
  - intro H; inversion H; subst. eauto.
  - intro H. destruct (IH H) as [k' Hk']. eauto.
Qed.

(** Only one-element tensors are accepted as constants: when every candidate
    is found in the index map and a free [Index] resolves to a tensor that
    has no element or several, the resolution raises the exception of
    [item()], whatever torch makes it. *)
Theorem non_scalar_constant_raises (schedule : list Instruction) (trace : Trace)
    (i : nat) (v : pyval)
    (Hall : forall c, In c (const_index_list schedule trace) ->
                      exists w, index_map_get trace c = Ok w)
    (Hin : In (VIndex i) (const_index_list schedule trace))
    (Hv : pydict_get (index_map trace) (VIndex i) = Some v)
    (Hbad : non_scalar_tensor v = true) :
  _gen_constants_parameters schedule trace = Raise item_error.
Proof.
  unfold _gen_constants_parameters.
  destruct (comprehension_total trace (fun c => negb (is_Parameter c)) _ Hall [])
    as [consts0 Hc].
  destruct (comprehension_total trace is_Parameter _ Hall []) as [params Hp].
  rewrite Hc, Hp. simpl.
  pose proof (comprehension_get trace _ (VIndex i) _ eq_refl _ _ Hc) as Hg.
  apply (py_in_atom (VIndex i) _ eq_refl) in Hin. rewrite Hin in Hg. simpl in Hg.
  destruct Hg as (w & Hw & Hg). unfold index_map_get in Hw. simpl in Hw.
  rewrite Hv in Hw. inversion Hw; subst w.
  destruct (pydict_get_in _ _ _ Hg) as [k Hk].
  now rewrite (materialize_non_scalar _ _ _ Hk Hbad).
Qed.

End ResolverMore_general.

#[local] Existing Instance Examples.torch_example.

Lemma unresolved_references_untouched_witness :
  _solve_consts_params
    (VTuple [VIndex 1; VList [VIndex 2; VNum 3]; VDict [("dim", VIndex 1)]])
    [(VIndex 7, VNum 5)] []
  = VTuple [VIndex 1; VList [VIndex 2; VNum 3]; VDict [("dim", VIndex 1)]].
Proof.
  apply unresolved_references_untouched.
  intros i Hi. simpl in Hi.
  destruct Hi as [<-|[<-|[<-|[]]]]; split; reflexivity.
Defined.

Lemma free_index_is_materialized_witness :
  pydict_get [(VIndex 7, VNum 5); (VIndex 8, VNone)] (VIndex 7) = Some (VNum 5).
Proof.
  apply (free_index_is_materialized
           [Synth._torch_fn_instruction ResolverExample.mul_elem]
           ResolverExample.mul_trace _ [] 7 (VTensor true 700 [5%Z]));
    vm_compute; auto.
Defined.

Lemma missing_reference_raises_key_error_witness :
  _gen_constants_parameters [Synth._torch_fn_instruction ResolverExample.mul_elem]
    dangling_trace = Raise KeyError.
Proof.
  apply (missing_reference_raises_key_error _ dangling_trace (VIndex 7)).
  - reflexivity.
  - vm_compute. auto.
  - reflexivity.
Defined.

Lemma non_scalar_constant_raises_witness :
  _gen_constants_parameters [Synth._torch_fn_instruction ResolverExample.mul_elem]
    weight_trace
  = Raise (RuntimeError "a Tensor with 2 elements cannot be converted to Scalar").
Proof.
  apply (non_scalar_constant_raises (torch := Examples.torch_example)
           _ weight_trace 7 (VTensor false 700 [5; 6]%Z)).
  - intros c Hc. vm_compute in Hc. destruct Hc as [<-|[<-|[]]]; eexists; reflexivity.
  - vm_compute. auto.
  - reflexivity.
  - reflexivity.
Defined.

End ResolverMore.
